(** * any-llm gateway: token service, image route and profile route

    A shallow embedding of
      - [any_llm/gateway/auth/tokens.py]   (module [Tokens]),
      - [any_llm/gateway/routes/image.py]  (modules [Base64] and [Image]),
      - [any_llm/gateway/routes/profile.py] (module [Profile]),
    with the properties of the specification proved over it.

    Python exceptions are values of an error type and every function that
    can raise returns a [result]; the wall clock read by [datetime.now] is
    an explicit argument, in microseconds since the Unix epoch. *)

From Stdlib Require Import ZArith Lia List String Ascii DecimalString.
From Stdlib.Strings Require Import Byte.
From Stdlib Require Import Floats.PrimFloat.
From stdpp Require Import base option list strings gmap sorting.

Local Open Scope string_scope.
Local Open Scope list_scope.
Local Open Scope Z_scope.

(** ** Results of computations that may raise *)

Inductive result (E A : Type) : Type :=
| Ok (a : A)
| Raise (e : E).
Arguments Ok {E A} a.
Arguments Raise {E A} e.

Definition result_bind {E A B} (m : result E A) (k : A -> result E B) : result E B :=
  match m with
  | Ok a => k a
  | Raise e => Raise e
  end.

Notation "'let*' x ':=' m 'in' k" := (result_bind m (fun x => k))
  (at level 10, x name, m at level 100, k at level 200).

(** ** Python values met in JSON claim sets and on SDK objects *)

(** JSON values of a claim set as far as the token service produces and
    inspects them. *)
Inductive jvalue : Type :=
| JInt (z : Z)
| JStr (s : string).

#[global] Instance jvalue_eq_dec : EqDecision jvalue.
Proof. solve_decision. Defined.

(** White space as [int] strips it from both ends of a string: the ASCII
    blanks and, of the characters up to 255, the next-line and the
    no-break space. *)
Definition is_space (c : ascii) : bool :=
  let n := nat_of_ascii c in
  ((9 <=? n)%nat && (n <=? 13)%nat) || (n =? 32)%nat || (n =? 133)%nat || (n =? 160)%nat.

Definition is_digit (c : ascii) : bool :=
  let n := nat_of_ascii c in
  ((48 <=? n)%nat && (n <=? 57)%nat).

Fixpoint lstrip (s : string) : string :=
  match s with
  | String c s' => if is_space c then lstrip s' else s
  | EmptyString => s
  end.

Fixpoint rstrip (s : string) : string :=
  match s with
  | String c s' =>
      match rstrip s' with
      | EmptyString => if is_space c then EmptyString else String c EmptyString
      | t => String c t
      end
  | EmptyString => s
  end.

(** The digits of a decimal literal: at least one digit, and single
    underscores between digits only. [prev_digit] says that the character
    before [s] was a digit. *)
Fixpoint digits_of (prev_digit : bool) (s : string) : option string :=
  match s with
  | EmptyString => if prev_digit then Some EmptyString else None
  | String c s' =>
      if is_digit c then String c <$> digits_of true s'
      else if Ascii.eqb c "_" && prev_digit then
        match s' with
        | String d _ => if is_digit d then digits_of false s' else None
        | EmptyString => None
        end
      else None
  end.

Definition decimal (digits : string) : Z :=
  fold_left (fun n c => 10 * n + (Z.of_nat (nat_of_ascii c) - 48))
            (list_ascii_of_string digits) 0.

(** [int(v)] as PyJWT applies it to a numeric claim: an integer is itself;
    a string is stripped of surrounding white space and read as a decimal
    literal with an optional sign, of at most 4300 digits (the default
    limit of the interpreter). [None] stands for the [ValueError] of a
    string that is not one. *)
Definition py_int (v : jvalue) : option Z :=
  match v with
  | JInt z => Some z
  | JStr s =>
      let t := rstrip (lstrip s) in
      let '(negative, body) :=
        match t with
        | String "-" r => (true, r)
        | String "+" r => (false, r)
        | _ => (false, t)
        end in
      match digits_of false body with
      | Some digits =>
          if (4300 <? String.length digits)%nat then None
          else Some (if negative then - decimal digits else decimal digits)
      | None => None
      end
  end.

(** Truth value of a JSON value ([bool(v)]). *)
Definition jtruthy (v : jvalue) : bool :=
  match v with
  | JInt z => negb (z =? 0)
  | JStr s => negb (String.eqb s "")
  end.

(** Truth value of an optional string ([str | None]): [None] and the empty
    string are falsy. *)
Definition str_truthy (s : option string) : bool :=
  match s with
  | Some (String _ _) => true
  | _ => false
  end.

(** ** Wall clock *)

(** An aware [datetime] in UTC is the number of microseconds since the
    epoch. *)
Definition datetime := Z.

(** [datetime.min] and [datetime.max] in UTC: the first microsecond of the
    year 1 and the last of the year 9999. *)
Definition datetime_min : datetime := -62135596800000000.
Definition datetime_max : datetime := 253402300799999999.

(** [timedelta(minutes=m)], in microseconds. *)
Definition timedelta_minutes (m : Z) : Z := m * 60000000.

(** *** Floats

    A binary64 of magnitude [m / 2 ^ s] is the pair [(m, s)]. *)

(** The integer nearest to [n / d], the even one of two equally near
    ([0 <= n], [0 < d]). *)
Definition round_half_even (n d : Z) : Z :=
  let q := n / d in
  let r := n mod d in
  if 2 * r <? d then q
  else if d <? 2 * r then q + 1
  else if Z.even q then q else q + 1.

(** [n / d] on two Python integers, [0 <= n] and [0 < d]: the binary64
    nearest to the quotient, ties to even. [e] is the binary exponent of
    the quotient, [2 ^ e <= n / d < 2 ^ (e + 1)], and the quotient is
    rounded to a multiple of [2 ^ (e - 52)]. Quotients are in the normal
    range of the format. *)
Definition true_divide (n d : Z) : Z * Z :=
  if n =? 0 then (0, 0)
  else
    let e0 := Z.log2 n - Z.log2 d in
    let e :=
      if (if 0 <=? e0 then d * 2 ^ e0 <=? n else d <=? n * 2 ^ (- e0))
      then e0 else e0 - 1 in
    let s := 52 - e in
    (if 0 <=? s then round_half_even (n * 2 ^ s) d
     else round_half_even n (d * 2 ^ (- s)),
     s).

(** [int(x)] on a float that is not negative: its integral part. *)
Definition float_int (x : Z * Z) : Z :=
  let '(m, s) := x in
  if 0 <=? s then m / 2 ^ s else m * 2 ^ (- s).

(** [int(d.timestamp())]: [timestamp()] divides the microseconds since the
    epoch by [10 ** 6] into a float, sign and magnitude apart, and [int]
    truncates it towards zero. *)
Definition int_timestamp (d : datetime) : Z :=
  Z.sgn d * float_int (true_divide (Z.abs d) 1000000).

(** Below [2 ^ 34] seconds from the epoch (the year 2514) the float of
    [timestamp()] is within a microsecond of the instant, and its integral
    part is the instant's whole seconds. *)
Definition timestamp_exact_below : datetime := 17179869184000000.

(** * Token service: [auth/tokens.py] *)

Module Tokens.

(** Modelled from the spec: [GatewayConfig] ([any_llm.gateway.config] is not
    among the sources). The fields are the attributes the code reads: the
    optional JWT secret, the optional master key, the default access-token
    lifetime in minutes and the per-provider settings. *)
Record GatewayConfig : Type := {
  jwt_secret : option string;
  master_key : option string;
  access_token_exp_minutes : Z;
  providers : gmap string (gmap string jvalue)
}.

(** The exceptions of the token service. An [OverflowError] comes from the
    [datetime] arithmetic; its message depends on where the overflow is
    found and is not kept. *)
Inductive py_error : Type :=
| RuntimeError (msg : string)
| ValueError (msg : string)
| OverflowError.

(** [d + timedelta(minutes=m)]: the [timedelta] holds at most 999999999
    days, and the sum stays within [datetime.min] and [datetime.max]. *)
Definition datetime_add_minutes (d : datetime) (m : Z) : result py_error datetime :=
  if (m / 1440 <? -999999999) || (999999999 <? m / 1440) then Raise OverflowError
  else
    let r := d + timedelta_minutes m in
    if (r <? datetime_min) || (datetime_max <? r) then Raise OverflowError
    else Ok r.

(** [_get_secret] *)
Definition _get_secret (config : GatewayConfig) : result py_error string :=
  if str_truthy (jwt_secret config) then Ok (default "" (jwt_secret config))
  else if str_truthy (master_key config) then Ok (default "" (master_key config))
  else Raise (RuntimeError "JWT secret not configured. Set jwt_secret or master_key.").

(** *** PyJWT, HS256 only

    A compact JWS string is represented by what it decodes to: the [alg] of
    its header, its claim set and its signature. A string that is not three
    base64url segments holding a JSON header and a JSON payload is
    [NotJWS]. *)
Inductive token : Type :=
| NotJWS (raw : string)
| JWS (alg : string) (claims : gmap string jvalue) (signature : string).

(** PyJWT's exceptions: [ExpiredSignatureError] and, for every other
    subclass of [InvalidTokenError] ([DecodeError], [InvalidSignatureError],
    [InvalidAlgorithmError], [ImmatureSignatureError], ...), the constructor
    [InvalidTokenError]; the argument is [str(exc)]. *)
Inductive jwt_error : Type :=
| ExpiredSignatureError (msg : string)
| InvalidTokenError (msg : string).

Section JWT.

(** The keyed MAC of HS256 over the signing input, which the header's
    algorithm name and the claim set determine. *)
Variable HS256 : string -> string -> gmap string jvalue -> string.

(** [jwt.encode(payload, key, algorithm)] *)
Definition jwt_encode (payload : gmap string jvalue) (key : string) (algorithm : string) : token :=
  JWS algorithm payload (HS256 key algorithm payload).

(** Validation of one "not yet valid" claim ([iat], [nbf]). PyJWT compares
    the integer of the claim with the float of the clock, [now / 10 ** 6];
    the comparison is made here on the microseconds of the clock, which
    gives the same verdict at every instant that is less than
    [timestamp_exact_below] away from the epoch. *)
Definition validate_not_before (name : string) (label : string)
    (claims : gmap string jvalue) (now : datetime) : result jwt_error unit :=
  match claims !! name with
  | None => Ok tt
  | Some v =>
      match py_int v with
      | None => Raise (InvalidTokenError (label +:+ " claim (" +:+ name +:+ ") must be an integer."))
      | Some n =>
          if n * 1000000 >? now
          then Raise (InvalidTokenError ("The token is not yet valid (" +:+ name +:+ ")"))
          else Ok tt
      end
  end.

(** Validation of [exp], compared with the clock as in
    [validate_not_before]. *)
Definition validate_exp (claims : gmap string jvalue) (now : datetime) : result jwt_error unit :=
  match claims !! "exp" with
  | None => Ok tt
  | Some v =>
      match py_int v with
      | None => Raise (InvalidTokenError "Expiration Time claim (exp) must be an integer.")
      | Some n =>
          if n * 1000000 <=? now
          then Raise (ExpiredSignatureError "Signature has expired")
          else Ok tt
      end
  end.

(** No audience is passed to [jwt.decode], so a token that carries one is
    refused. *)
Definition validate_aud (claims : gmap string jvalue) : result jwt_error unit :=
  match claims !! "aud" with
  | None => Ok tt
  | Some v => if jtruthy v then Raise (InvalidTokenError "Invalid audience") else Ok tt
  end.

Definition validate_claims (claims : gmap string jvalue) (now : datetime) : result jwt_error unit :=
  let* _ := validate_not_before "iat" "Issued At" claims now in
  let* _ := validate_not_before "nbf" "Not Before" claims now in
  let* _ := validate_exp claims now in
  validate_aud claims.

(** [jwt.decode(token, key, algorithms=...)] with the default options and
    no audience or issuer: structure, algorithm, signature, then the
    registered claims [iat], [nbf], [exp] and [aud]. *)
Definition jwt_decode (tok : token) (key : string) (algorithms : list string)
    (now : datetime) : result jwt_error (gmap string jvalue) :=
  match tok with
  | NotJWS _ => Raise (InvalidTokenError "Not enough segments")
  | JWS alg claims signature =>
      if negb (bool_decide (alg ∈ algorithms))
      then Raise (InvalidTokenError "The specified alg value is not allowed")
      else if negb (String.eqb signature (HS256 key alg claims))
      then Raise (InvalidTokenError "Signature verification failed")
      else let* _ := validate_claims claims now in Ok claims
  end.

(** *** [sign_access_token] and [verify_access_token] *)

(** [expires_minutes or config.access_token_exp_minutes] *)
Definition exp_minutes_of (expires_minutes : option Z) (config : GatewayConfig) : Z :=
  match expires_minutes with
  | Some m => if m =? 0 then access_token_exp_minutes config else m
  | None => access_token_exp_minutes config
  end.

(** The payload is built, and the expiry computed, before the secret is
    resolved. *)
Definition sign_access_token (user_id : string) (config : GatewayConfig) (jti : string)
    (expires_minutes : option Z) (now : datetime) : result py_error token :=
  let exp_minutes := exp_minutes_of expires_minutes config in
  let* expiry := datetime_add_minutes now exp_minutes in
  let payload : gmap string jvalue :=
    <["sub" := JStr user_id]>
    (<["jti" := JStr jti]>
    (<["iat" := JInt (int_timestamp now)]>
    (<["exp" := JInt (int_timestamp expiry)]> ∅))) in
  let* key := _get_secret config in
  Ok (jwt_encode payload key "HS256").

Definition verify_access_token (tok : token) (config : GatewayConfig) (now : datetime)
    : result py_error (gmap string jvalue) :=
  let* key := _get_secret config in
  match jwt_decode tok key ["HS256"] now with
  | Ok payload => Ok payload
  | Raise (ExpiredSignatureError _) => Raise (ValueError "Access token expired")
  | Raise (InvalidTokenError msg) => Raise (ValueError ("Invalid access token: " +:+ msg))
  end.

End JWT.

End Tokens.

(** * Base64: the standard alphabet of RFC 4648, as [base64.b64encode] *)

Module Base64.

Definition alphabet : string :=
  "ABCDEFGHIJKLMNOPQRSTUVWXYZabcdefghijklmnopqrstuvwxyz0123456789+/".

Definition pad : ascii := "="%char.

(** The character of a 6-bit group. *)
Definition char_of_sextet (n : N) : ascii :=
  default pad (String.get (N.to_nat n) alphabet).

Fixpoint index_from (c : ascii) (s : string) (i : N) : option N :=
  match s with
  | EmptyString => None
  | String d s' => if Ascii.eqb c d then Some i else index_from c s' (N.succ i)
  end.

(** The 6-bit group of a character of the alphabet. *)
Definition sextet_of_char (c : ascii) : option N := index_from c alphabet 0%N.

Definition byte_of_N (n : N) : byte := default x00 (Byte.of_N n).

(** Three bytes make four characters; a last group of one or two bytes is
    padded with [=]. *)
Fixpoint b64encode (data : list byte) : string :=
  match data with
  | [] => EmptyString
  | [a] =>
      let x := Byte.to_N a in
      String (char_of_sextet (x / 4))
        (String (char_of_sextet ((x mod 4) * 16))
          (String pad (String pad EmptyString)))
  | [a; b] =>
      let x := Byte.to_N a in
      let y := Byte.to_N b in
      String (char_of_sextet (x / 4))
        (String (char_of_sextet ((x mod 4) * 16 + y / 16))
          (String (char_of_sextet ((y mod 16) * 4))
            (String pad EmptyString)))
  | a :: b :: c :: rest =>
      let x := Byte.to_N a in
      let y := Byte.to_N b in
      let z := Byte.to_N c in
      String (char_of_sextet (x / 4))
        (String (char_of_sextet ((x mod 4) * 16 + y / 16))
          (String (char_of_sextet ((y mod 16) * 4 + z / 64))
            (String (char_of_sextet (z mod 64)) (b64encode rest))))
  end%N.

(** Decoding of canonical base64 text: groups of four characters of the
    alphabet, the last one possibly padded. [None] is [binascii.Error]. *)
Fixpoint b64decode (s : string) : option (list byte) :=
  match s with
  | EmptyString => Some []
  | String c0 (String c1 (String c2 (String c3 rest))) =>
      match sextet_of_char c0, sextet_of_char c1 with
      | Some s0, Some s1 =>
          let a := byte_of_N (s0 * 4 + s1 / 16) in
          if Ascii.eqb c2 pad then
            if Ascii.eqb c3 pad then
              match rest with EmptyString => Some [a] | _ => None end
            else None
          else
            match sextet_of_char c2 with
            | None => None
            | Some s2 =>
                let b := byte_of_N ((s1 mod 16) * 16 + s2 / 4) in
                if Ascii.eqb c3 pad then
                  match rest with EmptyString => Some [a; b] | _ => None end
                else
                  match sextet_of_char c3, b64decode rest with
                  | Some s3, Some tl => Some (a :: b :: byte_of_N ((s2 mod 4) * 64 + s3) :: tl)
                  | _, _ => None
                  end
            end
      | _, _ => None
      end
  | _ => None
  end%N.

End Base64.

(** * Effects: emitted events, client acquisition and release, exceptions *)

(** A JSON object with string values, in insertion order: the argument of
    [_format_sse_event]. *)
Definition payload := list (string * string).

Inductive effect : Type :=
| Acquire                (* [genai.Client(...)] returned a client *)
| Emit (p : payload)     (* the generator yielded the frame of [p] *)
| Release.               (* [client.close()] was called *)

(** A computation performs effects in order and then returns or raises. *)
Definition io (E A : Type) : Type := list effect * result E A.

Definition io_ret {E A} (a : A) : io E A := ([], Ok a).
Definition io_raise {E A} (e : E) : io E A := ([], Raise e).
Definition io_tell {E} (f : effect) : io E unit := ([f], Ok tt).
Definition io_lift {E A} (r : result E A) : io E A := ([], r).

Definition io_bind {E A B} (m : io E A) (k : A -> io E B) : io E B :=
  match m with
  | (t, Ok a) => let '(t', r) := k a in (t ++ t', r)
  | (t, Raise e) => (t, Raise e)
  end.

Notation "'do' x '<-' m ';' k" := (io_bind m (fun x => k))
  (at level 10, x name, m at level 100, k at level 200).
Notation "'do_' m ';' k" := (io_bind m (fun _ => k))
  (at level 10, m at level 100, k at level 200).

(** [try: m  except Exception as e: h e] *)
Definition try_except {E E' A} (m : io E A) (h : E -> io E' A) : io E' A :=
  match m with
  | (t, Ok a) => (t, Ok a)
  | (t, Raise e) => let '(t', r) := h e in (t ++ t', r)
  end.

(** [try: m  finally: f]: [f] runs on both exits, and an exception of [f]
    replaces the outcome of [m]. *)
Definition try_finally {E A} (m : io E A) (f : io E unit) : io E A :=
  let '(t, r) := m in
  let '(t', r') := f in
  (t ++ t', match r' with Ok _ => r | Raise e => Raise e end).

(** FastAPI's [HTTPException]. *)
Record HTTPException : Type := {
  status_code : Z;
  detail : string
}.

(** * Image route: [routes/image.py] *)

Module Image.

Import Tokens.

(** Values found in the attributes of the SDK's response objects. *)
Inductive pyval : Type :=
| PyNone
| PyBool (b : bool)
| PyInt (z : Z)
| PyStr (s : string)
| PyBytes (b : list byte)
| PyByteArray (b : list byte).

Definition truthy (v : pyval) : bool :=
  match v with
  | PyNone => false
  | PyBool b => b
  | PyInt z => negb (z =? 0)
  | PyStr s => negb (String.eqb s "")
  | PyBytes b | PyByteArray b => match b with [] => false | _ => true end
  end.

(** An instance of [Exception]; the field is [str(e)]. *)
Record exn : Type := Exception { exn_str : string }.

(** An absent attribute is the default of its [getattr]: [None] for
    [text], [data], [mime_type], [inline_data], [parts], [candidates] and
    [content], [False] for [thought]. *)
Record InlineData : Type := { data : pyval; mime_type : pyval }.
Record Part : Type := { text : pyval; thought : pyval; inline_data : option InlineData }.
Record Content : Type := { content_parts : option (list Part) }.
Record Candidate : Type := { content : option Content }.
(** A streamed chunk and a whole response are objects of one class. *)
Record Chunk : Type := { parts : option (list Part); candidates : option (list Candidate) }.

Record GenerateImageRequest : Type := {
  prompt : string;
  model : option string;
  aspect_ratio : option string;
  image_size : option string;
  stream : bool
}.

Record GenerateImageResponse : Type := {
  mimeType : string;
  base64 : string;
  texts : list string;
  thoughts : list string
}.

(** What the upstream iterator does when asked for its next item. *)
Inductive stream_item : Type :=
| Next (chunk : Chunk)
| Fails (e : exn).

(** Arguments of an upstream generation call. *)
Record call_args : Type := {
  call_model : string;
  call_contents : list string;
  call_aspect_ratio : string;
  call_image_size : string
}.

(** The collaborators of one request. [resolve_target_user] and
    [validate_user_credit] belong to [routes/utils.py], which is not among
    the sources: they are taken as the outcome of their call. The other
    fields are the behaviour of the [google.genai] SDK. *)
Record World : Type := {
  resolve_target_user : result HTTPException string;
  validate_user_credit : string -> result HTTPException unit;
  genai_installed : bool;
  Client : string -> result exn unit;
  content_config : call_args -> result exn unit;
  has_generate_content_stream : bool;
  generate_content_stream : call_args -> result exn (list stream_item);
  generate_content_stream_kw : call_args -> result exn (list stream_item);
  generate_content : call_args -> result exn Chunk;
  close : result exn unit
}.

(** [x or d] on an optional string. *)
Definition str_or (x : option string) (d : string) : string :=
  if str_truthy x then default d x else d.

(** [_get_gemini_api_key] *)
Definition _get_gemini_api_key (config : GatewayConfig) : result HTTPException string :=
  let provider_cfg := default ∅ (providers config !! "gemini") in
  match provider_cfg !! "api_key" with
  | Some (JStr (String c s)) => Ok (String c s)
  | _ => Raise {| status_code := 500;
                  detail := "Gemini provider api_key is not configured on the gateway" |}
  end.

(** [_iter_parts] *)
Definition _iter_parts (chunk : Chunk) : list Part :=
  match parts chunk with
  | Some (p :: ps) => p :: ps
  | _ =>
      match candidates chunk with
      | Some (c0 :: _) =>
          match content c0 with
          | Some ct =>
              match content_parts ct with
              | Some (p :: ps) => p :: ps
              | _ => []
              end
          | None => []
          end
      | _ => []
      end
  end.

Definition newline : string := String (ascii_of_nat 10) EmptyString.

(** [_format_sse_event], over the serialiser [json.dumps]. *)
Definition _format_sse_event (json_dumps : payload -> string) (p : payload) : string :=
  "data: " +:+ json_dumps p +:+ newline +:+ newline.

(** [getattr(inline_data, name, None) if inline_data is not None else None] *)
Definition inline_attr (f : InlineData -> pyval) (i : option InlineData) : pyval :=
  match i with
  | Some d => f d
  | None => PyNone
  end.

(** [isinstance(m, str) and m.startswith("image/")] *)
Definition is_image_mime (m : pyval) : bool :=
  match m with
  | PyStr s => String.prefix "image/" s
  | _ => false
  end.

Definition str_of (v : pyval) : string :=
  match v with
  | PyStr s => s
  | _ => ""
  end.

(** [isinstance(v, str) and v] *)
Definition is_text (v : pyval) : bool :=
  match v with
  | PyStr s => negb (String.eqb s "")
  | _ => false
  end.

(** The body of the inner loop of [event_stream], for one part. *)
Definition stream_part (part : Part) : io exn unit :=
  let text_value := text part in
  do_ (if is_text text_value
       then
         if truthy (thought part)
         then io_tell (Emit [("type", "thought"); ("content", str_of text_value)])
         else io_tell (Emit [("type", "text"); ("content", str_of text_value)])
       else io_ret tt);
  let data := inline_attr data (inline_data part) in
  let candidate_mime_type := inline_attr mime_type (inline_data part) in
  if negb (truthy data) then io_ret tt
  else
    match data with
    | PyByteArray b | PyBytes b =>
        let mime_type :=
          if is_image_mime candidate_mime_type then str_of candidate_mime_type
          else "image/png" in
        let base64_str := Base64.b64encode b in
        io_tell (Emit [("type", "image"); ("mimeType", mime_type); ("base64", base64_str)])
    | _ => io_ret tt
    end.

Fixpoint for_parts (ps : list Part) : io exn unit :=
  match ps with
  | [] => io_ret tt
  | part :: rest => do_ stream_part part; for_parts rest
  end.

(** [for chunk in stream_ref: ...]: the iterator is asked for its next item
    until it is exhausted or raises. *)
Fixpoint for_chunks (stream_ref : list stream_item) : io exn unit :=
  match stream_ref with
  | [] => io_ret tt
  | Fails e :: _ => io_raise e
  | Next chunk :: rest => do_ for_parts (_iter_parts chunk); for_chunks rest
  end.

(** [event_stream], run until it is exhausted: the events it yields, the
    call of [client_ref.close()], whose outcome is the argument
    [client_ref], and whether an exception leaves the generator. *)
Definition event_stream (client_ref : result exn unit) (stream_ref : list stream_item)
    : io exn unit :=
  try_finally
    (try_except
       (do_ for_chunks stream_ref; io_tell (Emit [("type", "done")]))
       (fun e => io_tell (Emit [("type", "error"); ("message", exn_str e)])))
    (try_except (do_ io_tell Release; io_lift client_ref) (fun _ => io_ret tt)).

(** The loop of the non-streaming path: the lists collected so far, then
    the parts still to visit; [break] ends the loop at the first part with
    a binary payload. *)
Fixpoint collect_parts (ps : list Part) (texts thoughts : list string) (cur_mime_type : string)
    : list string * list string * option (list byte) * string :=
  match ps with
  | [] => (texts, thoughts, None, cur_mime_type)
  | part :: rest =>
      let text_value := text part in
      let '(texts, thoughts) :=
        if is_text text_value
        then
          if truthy (thought part)
          then (texts, thoughts ++ [str_of text_value])
          else (texts ++ [str_of text_value], thoughts)
        else (texts, thoughts) in
      let data := inline_attr data (inline_data part) in
      let candidate_mime_type := inline_attr mime_type (inline_data part) in
      if negb (truthy data) then collect_parts rest texts thoughts cur_mime_type
      else
        match data with
        | PyByteArray b | PyBytes b =>
            (texts, thoughts, Some b,
             if is_image_mime candidate_mime_type then str_of candidate_mime_type
             else cur_mime_type)
        | _ => collect_parts rest texts thoughts cur_mime_type
        end
  end.

Inductive Response : Type :=
| JsonResponse (body : GenerateImageResponse)
| StreamingResponse (body : io exn unit).

Definition bad_gateway (e : exn) : HTTPException :=
  {| status_code := 502; detail := "Image generation failed: " +:+ exn_str e |}.

(** The part of [generate_image] after a successful non-streaming call. *)
Definition respond (resp : Chunk) : result HTTPException GenerateImageResponse :=
  let parts := default [] (parts resp) in
  let '(texts, thoughts, image_bytes, mime_type) := collect_parts parts [] [] "image/png" in
  match image_bytes with
  | Some (b :: bs) =>
      let base64_str := Base64.b64encode (b :: bs) in
      Ok {| mimeType := mime_type; base64 := base64_str; texts := texts; thoughts := thoughts |}
  | _ => Raise {| status_code := 502; detail := "Image generation returned no image parts" |}
  end.

(** What [generate_image] passes upstream: the model, the prompt and the
    image configuration, each with its default. *)
Definition request_args (request : GenerateImageRequest) : call_args :=
  let model_id := str_or (model request) "gemini-3-pro-image-preview" in
  {| call_model := model_id;
     call_contents := [prompt request];
     call_aspect_ratio := str_or (aspect_ratio request) "16:9";
     call_image_size := str_or (image_size request) "4K" |}.

(** [generate_image] *)
Definition generate_image (request : GenerateImageRequest) (config : GatewayConfig)
    (w : World) : io HTTPException Response :=
  do _user_id <- io_lift (resolve_target_user w);
  do_ io_lift (validate_user_credit w _user_id);
  if negb (genai_installed w)
  then io_raise {| status_code := 500; detail := "google-genai dependency is not installed" |}
  else
  do api_key <- io_lift (_get_gemini_api_key config);
  let args := request_args request in
  do_ try_except
        (do_ io_lift (Client w api_key);
         do_ io_tell Acquire;
         io_lift (content_config w args))
        (fun e => io_raise (bad_gateway e));
  if stream request then
    do stream <- try_except
                   (if has_generate_content_stream w
                    then io_lift (generate_content_stream w args)
                    else io_lift (generate_content_stream_kw w args))
                   (fun e => io_raise (bad_gateway e));
    io_ret (StreamingResponse (event_stream (close w) stream))
  else
    do resp <- try_except (io_lift (generate_content w args))
                 (fun e => io_raise (bad_gateway e));
    do body <- io_lift (respond resp);
    io_ret (JsonResponse body).

(** The effects of a whole request: those of the handler, then those of the
    response body when it is a generator that the server drains. *)
Definition request_effects (r : io HTTPException Response) : list effect :=
  match r with
  | (t, Ok (StreamingResponse (t', _))) => t ++ t'
  | (t, _) => t
  end.

End Image.

(** * Profile route: [routes/profile.py] *)

Module Profile.

(** Modelled from the spec: the rows of [any_llm.gateway.db.models] and
    [caret_models], which are not among the sources. The fields are the
    columns the route reads; a nullable column is an [option]. *)
Record APIKey : Type := { key_user_id : option string }.

Record User : Type := {
  user_id : string;
  alias : option string;
  blocked : option bool;
  budget_id : option string;
  spend : float;
  metadata_ : option (gmap string jvalue);
  budget_started_at : option datetime;
  next_budget_reset_at : option datetime
}.

Record CaretUser : Type := {
  caret_user_id : string;
  caret_provider : option string;
  caret_provider_user_id : option string;
  caret_name : option string;
  caret_email : option string;
  caret_avatar_url : option string;
  caret_metadata_ : option (gmap string jvalue);
  caret_last_login_at : option datetime
}.

Record Budget : Type := {
  row_budget_id : string;
  row_max_budget : option float;
  row_budget_duration_sec : option Z
}.

Record UsageLog : Type := {
  log_id : string;
  log_user_id : option string;
  log_timestamp : datetime;
  log_model : string;
  log_provider : option string;
  log_endpoint : string;
  log_prompt_tokens : option Z;
  log_completion_tokens : option Z;
  log_total_tokens : option Z;
  log_cost : option float;
  log_status : string;
  log_error_message : option string
}.

(** The store behind the [Session]. *)
Record DB : Type := {
  db_users : list User;
  db_caret_users : list CaretUser;
  db_budgets : list Budget;
  db_usage_logs : list UsageLog
}.

(** The queries a request sends to the store, in order. *)
Inductive query : Type :=
| QueryUser (user_id : string)
| QueryCaretUser (user_id : string)
| QueryBudget (budget_id : string)
| QueryUsageTotals (user_id : string) (since : datetime)
| QueryRecentUsage (user_id : string) (limit : Z).

Definition db_io (A : Type) : Type := list query * result HTTPException A.

Definition db_ret {A} (a : A) : db_io A := ([], Ok a).
Definition db_raise {A} (e : HTTPException) : db_io A := ([], Raise e).
Definition db_query {A} (q : query) (a : A) : db_io A := ([q], Ok a).

Definition db_bind {A B} (m : db_io A) (k : A -> db_io B) : db_io B :=
  match m with
  | (t, Ok a) => let '(t', r) := k a in (t ++ t', r)
  | (t, Raise e) => (t, Raise e)
  end.

Notation "'run' x '<-' m ';' k" := (db_bind m (fun x => k))
  (at level 10, x name, m at level 100, k at level 200).

Record BudgetInfo : Type := {
  bi_budget_id : option string;
  bi_max_budget : option float;
  bi_budget_duration_sec : option Z;
  bi_spend : float;
  bi_budget_started_at : option string;
  bi_next_budget_reset_at : option string
}.

Record ProfileInfo : Type := {
  pi_user_id : string;
  pi_provider : option string;
  pi_provider_user_id : option string;
  pi_alias : option string;
  pi_name : option string;
  pi_email : option string;
  pi_avatar_url : option string;
  pi_blocked : bool;
  pi_metadata : gmap string jvalue;
  pi_caret_metadata : gmap string jvalue;
  pi_last_login_at : option string
}.

Record UsageWindow : Type := {
  uw_requests : Z;
  uw_prompt_tokens : Z;
  uw_completion_tokens : Z;
  uw_total_tokens : Z;
  uw_cost : float
}.

Record UsageLogItem : Type := {
  item_id : string;
  item_timestamp : string;
  item_model : string;
  item_provider : option string;
  item_endpoint : string;
  item_prompt_tokens : option Z;
  item_completion_tokens : option Z;
  item_total_tokens : option Z;
  item_cost : option float;
  item_status : string;
  item_error_message : option string
}.

Record ProfileResponse : Type := {
  profile : ProfileInfo;
  budget : option BudgetInfo;
  usage : list (string * UsageWindow);
  recent_usage : list UsageLogItem
}.

Section Route.

(** [datetime.isoformat] *)
Variable isoformat : datetime -> string.

(** SQL [SUM] over a nullable integer column, [COALESCE]d to 0. *)
Definition sum_column (f : UsageLog -> option Z) (rows : list UsageLog) : Z :=
  foldr (fun r acc => default 0 (f r) + acc) 0 rows.

Definition sum_cost (rows : list UsageLog) : float :=
  foldr (fun r acc => match log_cost r with Some c => PrimFloat.add c acc | None => acc end)
        0%float rows.

(** [_aggregate_usage] *)
Definition _aggregate_usage (db : DB) (user_id : string) (since : datetime) : db_io UsageWindow :=
  let rows :=
    filter (fun r => log_user_id r = Some user_id /\ since <= log_timestamp r)
           (db_usage_logs db) in
  db_query (QueryUsageTotals user_id since)
    {| uw_requests := Z.of_nat (length rows);
       uw_prompt_tokens := sum_column log_prompt_tokens rows;
       uw_completion_tokens := sum_column log_completion_tokens rows;
       uw_total_tokens := sum_column log_total_tokens rows;
       uw_cost := sum_cost rows |}.

(** [ORDER BY timestamp DESC] *)
Definition newer_first (a b : UsageLog) : Prop := log_timestamp b <= log_timestamp a.

#[local] Instance newer_first_dec a b : Decision (newer_first a b).
Proof. unfold newer_first. apply _. Defined.

(** [_recent_usage]. The limit is not negative (the route admits 0 to
    100); what [LIMIT] selects for a negative number depends on the
    database. *)
Definition _recent_usage (db : DB) (user_id : string) (limit : Z) : db_io (list UsageLogItem) :=
  let logs :=
    take (Z.to_nat limit)
      (merge_sort newer_first
         (filter (fun r => log_user_id r = Some user_id) (db_usage_logs db))) in
  db_query (QueryRecentUsage user_id limit)
    (map (fun log =>
            {| item_id := log_id log;
               item_timestamp := isoformat (log_timestamp log);
               item_model := log_model log;
               item_provider := log_provider log;
               item_endpoint := log_endpoint log;
               item_prompt_tokens := log_prompt_tokens log;
               item_completion_tokens := log_completion_tokens log;
               item_total_tokens := log_total_tokens log;
               item_cost := log_cost log;
               item_status := log_status log;
               item_error_message := log_error_message log |})
         logs).

(** [.first()] of a filtered query. *)
Definition first_where {A} (p : A -> bool) (rows : list A) : option A :=
  List.find p rows.

(** [get_profile] *)
Definition get_profile (auth_result : option APIKey * bool * option string) (db : DB)
    (user : option string) (recent_limit : Z) (now : datetime) : db_io ProfileResponse :=
  let '(api_key, is_master, resolved_user_id) := auth_result in
  run target_user_id <-
    (if is_master then
       if negb (str_truthy user)
       then db_raise {| status_code := 400;
                        detail := "When using master key, 'user' query parameter is required" |}
       else db_ret (default "" user)
     else
       let target :=
         if str_truthy resolved_user_id then resolved_user_id
         else match api_key with Some k => key_user_id k | None => None end in
       if negb (str_truthy target)
       then db_raise {| status_code := 401; detail := "User not resolved" |}
       else db_ret (default "" target));
  run user_obj <-
    db_query (QueryUser target_user_id)
      (first_where (fun u => String.eqb (user_id u) target_user_id) (db_users db));
  match user_obj with
  | None =>
      db_raise {| status_code := 404;
                  detail := "User '" +:+ target_user_id +:+ "' not found" |}
  | Some user_obj =>
      run caret <-
        db_query (QueryCaretUser target_user_id)
          (first_where (fun c => String.eqb (caret_user_id c) target_user_id)
             (db_caret_users db));
      run budget <-
        (if str_truthy (budget_id user_obj)
         then db_query (QueryBudget (default "" (budget_id user_obj)))
                (first_where
                   (fun b => String.eqb (row_budget_id b) (default "" (budget_id user_obj)))
                   (db_budgets db))
         else db_ret None);
      run last_24h <- _aggregate_usage db target_user_id (now - 24 * 3600000000);
      run last_7d <- _aggregate_usage db target_user_id (now - 7 * 86400000000);
      run last_30d <- _aggregate_usage db target_user_id (now - 30 * 86400000000);
      run recent_logs <- _recent_usage db target_user_id recent_limit;
      let nonempty (m : option (gmap string jvalue)) : gmap string jvalue :=
        default ∅ m in
      let profile :=
        {| pi_user_id := user_id user_obj;
           pi_provider := caret ≫= caret_provider;
           pi_provider_user_id := caret ≫= caret_provider_user_id;
           pi_alias := alias user_obj;
           pi_name := match caret with Some c => caret_name c | None => alias user_obj end;
           pi_email := caret ≫= caret_email;
           pi_avatar_url := caret ≫= caret_avatar_url;
           pi_blocked := default false (blocked user_obj);
           pi_metadata := nonempty (metadata_ user_obj);
           pi_caret_metadata := nonempty (caret ≫= caret_metadata_);
           pi_last_login_at := isoformat <$> (caret ≫= caret_last_login_at) |} in
      let budget_info :=
        (fun b =>
           {| bi_budget_id := Some (row_budget_id b);
              bi_max_budget := row_max_budget b;
              bi_budget_duration_sec := row_budget_duration_sec b;
              bi_spend := spend user_obj;
              bi_budget_started_at := isoformat <$> budget_started_at user_obj;
              bi_next_budget_reset_at := isoformat <$> next_budget_reset_at user_obj |})
        <$> budget in
      db_ret {| profile := profile;
                budget := budget_info;
                usage := [("last_24h", last_24h); ("last_7d", last_7d); ("last_30d", last_30d)];
                recent_usage := recent_logs |}
  end.

End Route.

End Profile.

(** * Refresh tokens: [generate_refresh_token] of [auth/tokens.py] *)

Module Secrets.

(** [base64.urlsafe_b64encode]: the standard text with [+] and [/]
    replaced by [-] and [_]. *)
Definition urlsafe_char (c : ascii) : ascii :=
  if Ascii.eqb c "+" then "-"%char
  else if Ascii.eqb c "/" then "_"%char
  else c.

Fixpoint string_map (f : ascii -> ascii) (s : string) : string :=
  match s with
  | EmptyString => EmptyString
  | String c s' => String (f c) (string_map f s')
  end.

Definition urlsafe_b64encode (data : list byte) : string :=
  string_map urlsafe_char (Base64.b64encode data).

(** [s.rstrip("=")] *)
Fixpoint rstrip_pad (s : string) : string :=
  match s with
  | EmptyString => EmptyString
  | String c s' =>
      match rstrip_pad s' with
      | EmptyString => if Ascii.eqb c Base64.pad then EmptyString else String c EmptyString
      | r => String c r
      end
  end.

(** [secrets.token_urlsafe(nbytes)], over the source [token_bytes] of
    random bytes. *)
Definition token_urlsafe (token_bytes : nat -> list byte) (nbytes : nat) : string :=
  let tok := token_bytes nbytes in
  rstrip_pad (urlsafe_b64encode tok).

(** [generate_refresh_token] *)
Definition generate_refresh_token (token_bytes : nat -> list byte) : string :=
  token_urlsafe token_bytes 48.

End Secrets.

(** * JSON text of an event: [json.dumps] on a dictionary of strings

    A [string] stands for the Python string of its characters' codes,
    all below 256. *)

Module Json.

Definition quote : ascii := ascii_of_nat 34.
Definition backslash : ascii := ascii_of_nat 92.

Definition hex_digit (n : nat) : ascii :=
  nth n (list_ascii_of_string "0123456789abcdef") "0"%char.

(** One character inside a JSON string, with [ensure_ascii]: the quote and
    the backslash are escaped, and so is every character outside the range
    from the space to the tilde, by its short form or as [\u00XX]. *)
Definition escape_char (c : ascii) : list ascii :=
  let n := nat_of_ascii c in
  if Nat.eqb n 34 then [backslash; quote]
  else if Nat.eqb n 92 then [backslash; backslash]
  else if Nat.eqb n 10 then [backslash; "n"%char]
  else if Nat.eqb n 13 then [backslash; "r"%char]
  else if Nat.eqb n 9 then [backslash; "t"%char]
  else if Nat.eqb n 8 then [backslash; "b"%char]
  else if Nat.eqb n 12 then [backslash; "f"%char]
  else if (Nat.ltb n 32 || Nat.ltb 126 n)%bool
       then [backslash; "u"%char; "0"%char; "0"%char;
             hex_digit (Nat.div n 16); hex_digit (Nat.modulo n 16)]
  else [c].

Definition json_string (s : string) : list ascii :=
  [quote] ++ flat_map escape_char (list_ascii_of_string s) ++ [quote].

Definition json_item (kv : string * string) : list ascii :=
  json_string (fst kv) ++ list_ascii_of_string ": " ++ json_string (snd kv).

Fixpoint json_items (p : payload) : list ascii :=
  match p with
  | [] => []
  | [kv] => json_item kv
  | kv :: rest => json_item kv ++ list_ascii_of_string ", " ++ json_items rest
  end.

(** [json.dumps(payload)] with the default separators. *)
Definition json_dumps (p : payload) : string :=
  string_of_list_ascii (["{"%char] ++ json_items p ++ ["}"%char]).

End Json.

(** * Specification-side definitions and inputs to evaluate the code on *)

Module Examples.

Import Tokens.

(** The signing secret as the specification resolves it: the explicit JWT
    secret when one is configured, else the master key, else none. *)
Definition spec_signing_secret (config : GatewayConfig) : option string :=
  match jwt_secret config with
  | Some (String c s) => Some (String c s)
  | _ =>
      match master_key config with
      | Some (String c s) => Some (String c s)
      | _ => None
      end
  end.

(** A configuration and a MAC to evaluate the service on. The MAC is a
    stand-in that keeps its three inputs apart. *)
Definition example_config : GatewayConfig :=
  {| jwt_secret := None;
     master_key := Some "master-key";
     access_token_exp_minutes := 15;
     providers := {[ "gemini" := {[ "api_key" := JStr "test-api-key" ]} ]} |}.

Definition example_mac (key alg : string) (claims : gmap string jvalue) : string :=
  key +:+ "/" +:+ alg +:+ "/" +:+
  match claims !! "sub", claims !! "jti" with
  | Some (JStr a), Some (JStr b) => a +:+ "/" +:+ b
  | _, _ => ""
  end.

Import Image.

(** *** The image route *)

(** The value of a key of a payload. *)
Fixpoint payload_get (key : string) (p : payload) : option string :=
  match p with
  | [] => None
  | (k, v) :: rest => if String.eqb k key then Some v else payload_get key rest
  end.

Definition event_type (p : payload) : option string := payload_get "type" p.

(** The payloads a run emitted, in order. *)
Fixpoint emitted (t : list effect) : list payload :=
  match t with
  | [] => []
  | Emit p :: rest => p :: emitted rest
  | _ :: rest => emitted rest
  end.

(** An event that ends a stream. *)
Definition is_terminal (p : payload) : bool :=
  match event_type p with
  | Some ty => String.eqb ty "done" || String.eqb ty "error"
  | None => false
  end.

(** No event of the run ends a stream. *)
Definition no_terminal (t : list effect) : Prop :=
  Forall (fun p => is_terminal p = false) (emitted t).

(** The first exception the upstream iterator raises, if it raises. *)
Fixpoint first_failure (stream_ref : list stream_item) : option exn :=
  match stream_ref with
  | [] => None
  | Fails e :: _ => Some e
  | Next _ :: rest => first_failure rest
  end.

(** The binary payload a part carries: non-empty [bytes] or [bytearray]
    in the [data] of its [inline_data]. *)
Definition binary_payload (part : Part) : option (list byte) :=
  match inline_data part with
  | Some i =>
      match data i with
      | PyBytes (b :: bs) | PyByteArray (b :: bs) => Some (b :: bs)
      | _ => None
      end
  | None => None
  end.

(** The textual projection of a part that is not flagged as a thought. *)
Definition part_text (part : Part) : option string :=
  match text part with
  | PyStr (String c s) => if truthy (thought part) then None else Some (String c s)
  | _ => None
  end.

(** The textual projection of a part that is flagged as a thought. *)
Definition part_thought (part : Part) : option string :=
  match text part with
  | PyStr (String c s) => if truthy (thought part) then Some (String c s) else None
  | _ => None
  end.

Definition option_list {A} (o : option A) : list A :=
  match o with
  | Some a => [a]
  | None => []
  end.

Definition all_texts (ps : list Part) : list string := omap part_text ps.
Definition all_thoughts (ps : list Part) : list string := omap part_thought ps.

(** The mime type of a part's payload: the declared one when it starts
    with [image/], else [image/png]. *)
Definition resolved_mime (part : Part) : string :=
  match inline_data part with
  | Some i =>
      match mime_type i with
      | PyStr s => if String.prefix "image/" s then s else "image/png"
      | _ => "image/png"
      end
  | None => "image/png"
  end.

(** The parts of a response as the specification extracts them, for both
    modes: the direct [parts] when present and non-empty, else those of
    the content of the first candidate, else none. *)
Definition spec_parts (chunk : Chunk) : list Part :=
  match parts chunk with
  | Some (p :: ps) => p :: ps
  | _ =>
      match candidates chunk with
      | Some ({| content := Some {| content_parts := Some ps |} |} :: _) => ps
      | _ => []
      end
  end.

(** The request passed every check before the upstream call, the client
    and its configuration were built, and the non-streaming call returned
    [resp]. *)
Definition upstream_answers (request : GenerateImageRequest) (config : GatewayConfig)
    (w : World) (resp : Chunk) : Prop :=
  exists uid api_key,
    resolve_target_user w = Ok uid /\
    validate_user_credit w uid = Ok tt /\
    genai_installed w = true /\
    _get_gemini_api_key config = Ok api_key /\
    Client w api_key = Ok tt /\
    content_config w (request_args request) = Ok tt /\
    stream request = false /\
    generate_content w (request_args request) = Ok resp.

(** The fixtures of [tests/gateway/test_generate_image.py]. *)
Definition fake_png_bytes : list byte :=
  [x66; x61; x6b; x65; x2d; x70; x6e; x67; x2d; x62; x79; x74; x65; x73].

Definition fake_inline_data : InlineData :=
  {| data := PyBytes fake_png_bytes; mime_type := PyStr "image/png" |}.

Definition fake_thought_part : Part :=
  {| text := PyStr "thinking"; thought := PyBool true; inline_data := None |}.

Definition fake_text_part : Part :=
  {| text := PyStr "caption"; thought := PyBool false; inline_data := None |}.

Definition fake_image_part : Part :=
  {| text := PyNone; thought := PyBool false; inline_data := Some fake_inline_data |}.

Definition fake_part : Part :=
  {| text := PyStr "caption"; thought := PyBool false; inline_data := Some fake_inline_data |}.

Definition fake_chunk (ps : list Part) : Chunk :=
  {| parts := Some ps; candidates := None |}.

(** A response whose parts sit in the content of its first candidate. *)
Definition nested_chunk (ps : list Part) : Chunk :=
  {| parts := None;
     candidates := Some [ {| content := Some {| content_parts := Some ps |} |} ] |}.

Definition fake_stream : list stream_item :=
  [Next (fake_chunk [fake_thought_part]);
   Next (fake_chunk [fake_text_part]);
   Next (fake_chunk [fake_image_part])].

Definition failing_stream : list stream_item :=
  [Next (fake_chunk [fake_thought_part]); Fails (Exception "upstream reset")].

(** A world in which every collaborator succeeds; the upstream answers
    with [resp], or streams [items]. *)
Definition fake_world (resp : Chunk) (items : list stream_item) : World :=
  {| resolve_target_user := Ok "user-1";
     validate_user_credit := fun _ => Ok tt;
     genai_installed := true;
     Client := fun _ => Ok tt;
     content_config := fun _ => Ok tt;
     has_generate_content_stream := true;
     generate_content_stream := fun _ => Ok items;
     generate_content_stream_kw := fun _ => Ok items;
     generate_content := fun _ => Ok resp;
     close := Ok tt |}.

Definition fake_request (streaming : bool) : GenerateImageRequest :=
  {| prompt := "A cute cat"; model := None; aspect_ratio := None; image_size := None;
     stream := streaming |}.

(** *** The profile route *)

Definition empty_db : Profile.DB :=
  {| Profile.db_users := []; Profile.db_caret_users := [];
     Profile.db_budgets := []; Profile.db_usage_logs := [] |}.

(** A rendering of instants to evaluate the route with. *)
Definition epoch_micros (d : datetime) : string :=
  match d with
  | Z0 => "0"
  | Zpos _ => "after 1970"
  | Zneg _ => "before 1970"
  end.

End Examples.

(** * More specification-side definitions and fixtures *)

Module ExtraSpecs.

Import Tokens Image Examples.

(** *** Texts *)

Definition chars (s : string) : list ascii := list_ascii_of_string s.

(** A character of the standard base64 alphabet. *)
Definition in_alphabet (c : ascii) : bool :=
  match Base64.sextet_of_char c with
  | Some _ => true
  | None => false
  end.

(** A character of the URL-safe alphabet: letters, digits, [-] and [_]. *)
Definition is_urlsafe (c : ascii) : bool :=
  existsb (Ascii.eqb c)
    (chars "ABCDEFGHIJKLMNOPQRSTUVWXYZabcdefghijklmnopqrstuvwxyz0123456789-_").

(** The inverse of [urlsafe_char]. *)
Definition standard_char (c : ascii) : ascii :=
  if Ascii.eqb c "-" then "+"%char
  else if Ascii.eqb c "_" then "/"%char
  else c.

(** A printable ASCII character, from the space to the tilde. *)
Definition printable (c : ascii) : bool :=
  (Nat.leb 32 (nat_of_ascii c) && Nat.leb (nat_of_ascii c) 126)%bool.

(** *** The image route *)

(** The events one part gives rise to when streamed: its thought or text
    event, if it has a textual projection, then its image event, if it
    carries a binary payload. *)
Definition part_events (part : Part) : list payload :=
  match part_thought part, part_text part with
  | Some s, _ => [[("type", "thought"); ("content", s)]]
  | None, Some s => [[("type", "text"); ("content", s)]]
  | None, None => []
  end ++
  match binary_payload part with
  | Some bytes =>
      [[("type", "image"); ("mimeType", resolved_mime part);
        ("base64", Base64.b64encode bytes)]]
  | None => []
  end.

(** The chunks the upstream iterator hands over before it is exhausted or
    raises. *)
Fixpoint chunks_before_failure (stream_ref : list stream_item) : list Chunk :=
  match stream_ref with
  | Next chunk :: rest => chunk :: chunks_before_failure rest
  | _ => []
  end.

(** The event that ends the stream of [stream_ref]. *)
Definition terminal_event (stream_ref : list stream_item) : payload :=
  match first_failure stream_ref with
  | None => [("type", "done")]
  | Some e => [("type", "error"); ("message", exn_str e)]
  end.

Definition is_image (p : payload) : bool :=
  match event_type p with
  | Some ty => String.eqb ty "image"
  | None => false
  end.

(** The events up to and including the first image event. *)
Fixpoint upto_first_image (events : list payload) : list payload :=
  match events with
  | [] => []
  | p :: rest => if is_image p then [p] else p :: upto_first_image rest
  end.

(** The [content] of the events of one type, in order. *)
Definition contents_of (ty : string) (events : list payload) : list string :=
  omap (fun p => if bool_decide (event_type p = Some ty)
                 then payload_get "content" p else None) events.

(** The request passed the checks that come before the client is built. *)
Definition admitted (config : GatewayConfig) (w : World) (api_key : string) : Prop :=
  exists uid,
    resolve_target_user w = Ok uid /\
    validate_user_credit w uid = Ok tt /\
    genai_installed w = true /\
    _get_gemini_api_key config = Ok api_key.

(** The request passed every check, the client and its configuration
    were built, and the streaming call returned the iterator [items]. *)
Definition upstream_streams (request : GenerateImageRequest) (config : GatewayConfig)
    (w : World) (items : list stream_item) : Prop :=
  exists uid api_key,
    resolve_target_user w = Ok uid /\
    validate_user_credit w uid = Ok tt /\
    genai_installed w = true /\
    _get_gemini_api_key config = Ok api_key /\
    Client w api_key = Ok tt /\
    content_config w (request_args request) = Ok tt /\
    stream request = true /\
    (if has_generate_content_stream w
     then generate_content_stream w (request_args request)
     else generate_content_stream_kw w (request_args request)) = Ok items.

(** A part with a text and a JPEG payload, and one whose payload declares
    no image type. *)
Definition jpeg_part : Part :=
  {| text := PyStr "a cat"; thought := PyNone;
     inline_data := Some {| data := PyByteArray [xff; xd8; xff];
                            mime_type := PyStr "image/jpeg" |} |}.

Definition octet_part : Part :=
  {| text := PyNone; thought := PyNone;
     inline_data := Some {| data := PyBytes [x00; x01];
                            mime_type := PyStr "application/octet-stream" |} |}.

(** *** The profile route *)

(** The tenant of a caller who is not the master: the identity the
    credential resolved to, else the owner of the API key. *)
Definition own_tenant (api_key : option Profile.APIKey) (resolved_user_id : option string)
    : option string :=
  match resolved_user_id with
  | Some (String c s) => Some (String c s)
  | _ =>
      match api_key with
      | Some k =>
          match Profile.key_user_id k with
          | Some (String c s) => Some (String c s)
          | _ => None
          end
      | None => None
      end
  end.

(** A query that reads the rows of user [u], or the budget row that user
    [u] points to in the store [db]. *)
Definition scoped_to (db : Profile.DB) (u : string) (q : Profile.query) : Prop :=
  match q with
  | Profile.QueryUser v | Profile.QueryCaretUser v
  | Profile.QueryUsageTotals v _ | Profile.QueryRecentUsage v _ => v = u
  | Profile.QueryBudget b =>
      exists row, row ∈ Profile.db_users db /\
                  Profile.user_id row = u /\ Profile.budget_id row = Some b
  end.

(** The user whose profile a request addresses: for the master the [user]
    parameter, for every other caller the caller's own tenant. *)
Definition target_user (auth_result : option Profile.APIKey * bool * option string)
    (user : option string) : option string :=
  let '(api_key, is_master, resolved_user_id) := auth_result in
  if is_master
  then match user with
       | Some (String c s) => Some (String c s)
       | _ => None
       end
  else own_tenant api_key resolved_user_id.

(** The item [_recent_usage] makes of a usage row. *)
Definition item_of (isoformat : datetime -> string) (log : Profile.UsageLog)
    : Profile.UsageLogItem :=
  {| Profile.item_id := Profile.log_id log;
     Profile.item_timestamp := isoformat (Profile.log_timestamp log);
     Profile.item_model := Profile.log_model log;
     Profile.item_provider := Profile.log_provider log;
     Profile.item_endpoint := Profile.log_endpoint log;
     Profile.item_prompt_tokens := Profile.log_prompt_tokens log;
     Profile.item_completion_tokens := Profile.log_completion_tokens log;
     Profile.item_total_tokens := Profile.log_total_tokens log;
     Profile.item_cost := Profile.log_cost log;
     Profile.item_status := Profile.log_status log;
     Profile.item_error_message := Profile.log_error_message log |}.

(** The store with one more usage row recorded. *)
Definition with_log (db : Profile.DB) (row : Profile.UsageLog) : Profile.DB :=
  {| Profile.db_users := Profile.db_users db;
     Profile.db_caret_users := Profile.db_caret_users db;
     Profile.db_budgets := Profile.db_budgets db;
     Profile.db_usage_logs := row :: Profile.db_usage_logs db |}.

(** The usage rows of a user. *)
Definition logs_of (db : Profile.DB) (u : string) : list Profile.UsageLog :=
  filter (fun r => Profile.log_user_id r = Some u) (Profile.db_usage_logs db).

Definition fake_user (uid : string) (bid : option string) : Profile.User :=
  {| Profile.user_id := uid; Profile.alias := Some "Alice"; Profile.blocked := None;
     Profile.budget_id := bid; Profile.spend := 1.5%float; Profile.metadata_ := None;
     Profile.budget_started_at := None; Profile.next_budget_reset_at := None |}.

Definition fake_log (id uid : string) (ts : datetime) : Profile.UsageLog :=
  {| Profile.log_id := id; Profile.log_user_id := Some uid; Profile.log_timestamp := ts;
     Profile.log_model := "gemini"; Profile.log_provider := None;
     Profile.log_endpoint := "/v1/generate/image";
     Profile.log_prompt_tokens := Some 10; Profile.log_completion_tokens := None;
     Profile.log_total_tokens := Some 10; Profile.log_cost := Some 0.25%float;
     Profile.log_status := "success"; Profile.log_error_message := None |}.

(** Two tenants; [alice] has three usage rows, [bob] one. *)
Definition fake_db : Profile.DB :=
  {| Profile.db_users := [fake_user "alice" (Some "budget-1"); fake_user "bob" None];
     Profile.db_caret_users := [];
     Profile.db_budgets :=
       [{| Profile.row_budget_id := "budget-1"; Profile.row_max_budget := Some 10%float;
           Profile.row_budget_duration_sec := Some 86400 |}];
     Profile.db_usage_logs :=
       [fake_log "log-1" "alice" 1699990000000000;
        fake_log "log-2" "bob" 1699995000000000;
        fake_log "log-3" "alice" 1699999000000000;
        fake_log "log-4" "alice" 1699000000000000] |}.

End ExtraSpecs.

(** * Properties of the token service *)

Module TokenProps.

Import Tokens Examples.

Section Props.

Variable HS256 : string -> string -> gmap string jvalue -> string.

Lemma get_secret_spec (config : GatewayConfig) :
  _get_secret config =
  match spec_signing_secret config with
  | Some key => Ok key
  | None => Raise (RuntimeError "JWT secret not configured. Set jwt_secret or master_key.")
  end.
Proof.
  unfold _get_secret, spec_signing_secret.
  destruct (jwt_secret config) as [[|c s]|]; simpl; try reflexivity;
    destruct (master_key config) as [[|c' s']|]; reflexivity.
Qed.

(** *** The clock *)

Lemma round_half_even_near (n d : Z) :
  0 < d ->
  2 * (d * round_half_even n d) - d <= 2 * n <= 2 * (d * round_half_even n d) + d.
Proof.
  intros Hd. unfold round_half_even.
  pose proof (Z.div_mod n d ltac:(lia)) as Hn.
  pose proof (Z.mod_pos_bound n d Hd) as Hr.
  set (q := n / d) in *. set (r := n mod d) in *.
  destruct (Z.ltb_spec (2 * r) d); [lia|].
  destruct (Z.ltb_spec d (2 * r)); [lia|].
  destruct (Z.even q); lia.
Qed.

(** Below [2 ^ 34] seconds the float of the quotient by [10 ** 6] is less
    than half a microsecond away from it: the multiples of [2 ^ (e - 52)]
    are at most [2 ^ -19] apart there, so the quotient and its float have
    the same integral part. *)
Lemma true_divide_seconds (n : Z) :
  0 <= n < timestamp_exact_below ->
  float_int (true_divide n 1000000) = n / 1000000.
Proof.
  unfold timestamp_exact_below. intros Hn. unfold true_divide.
  destruct (Z.eqb_spec n 0) as [->|Hz]; [reflexivity|].
  change (Z.log2 1000000) with 19.
  assert (Hlog : Z.log2 n < 54) by (apply Z.log2_lt_pow2; lia).
  set (e0 := Z.log2 n - 19).
  set (e := if (if 0 <=? e0 then 1000000 * 2 ^ e0 <=? n else 1000000 <=? n * 2 ^ (- e0))
            then e0 else e0 - 1).
  assert (He : e <= 33).
  { subst e. destruct (Z.eq_dec e0 34) as [E|E].
    - rewrite E. change (0 <=? 34) with true. cbv iota.
      destruct (Z.leb_spec (1000000 * 2 ^ 34) n); lia.
    - destruct (if 0 <=? e0 then 1000000 * 2 ^ e0 <=? n else 1000000 <=? n * 2 ^ (- e0));
        subst e0; lia. }
  clearbody e. clear e0 Hlog.
  set (s := 52 - e). assert (Hs : 19 <= s) by (subst s; lia). clearbody s.
  unfold float_int. destruct (Z.leb_spec 0 s); [|lia].
  assert (HP : 2 ^ 19 <= 2 ^ s) by (apply Z.pow_le_mono_r; lia).
  change (2 ^ 19) with 524288 in HP.
  set (P := 2 ^ s) in *. clearbody P.
  pose proof (round_half_even_near (n * P) 1000000 ltac:(lia)) as Hm.
  set (m := round_half_even (n * P) 1000000) in *. clearbody m.
  pose proof (Z.div_mod n 1000000 ltac:(lia)) as Hdm.
  pose proof (Z.mod_pos_bound n 1000000 ltac:(lia)) as Hb.
  set (a := n / 1000000) in *. set (b := n mod 1000000) in *. clearbody a b.
  assert (HnP : n * P = 1000000 * (a * P) + b * P) by (rewrite Hdm; ring).
  assert (Hb0 : 0 <= b * P) by (apply Z.mul_nonneg_nonneg; lia).
  assert (Hb1 : b * P <= 999999 * P) by (apply Z.mul_le_mono_nonneg_r; lia).
  symmetry. apply (Z.div_unique m P a (m - a * P)); [left; lia | lia].
Qed.

(** Less than [2 ^ 34] seconds from the epoch, [int(d.timestamp())] is the
    instant in whole seconds, truncated towards zero. *)
Lemma int_timestamp_exact (d : datetime) :
  Z.abs d < timestamp_exact_below -> int_timestamp d = Z.quot d 1000000.
Proof.
  intros Hd. unfold int_timestamp.
  rewrite true_divide_seconds by lia.
  rewrite (Z.quot_div d 1000000) by lia.
  change (Z.sgn 1000000) with 1. change (Z.abs 1000000) with 1000000.
  rewrite Z.mul_1_r. reflexivity.
Qed.

Lemma int_timestamp_nonneg (t : datetime) :
  0 <= t < timestamp_exact_below -> int_timestamp t = t / 1000000.
Proof.
  intros H. rewrite int_timestamp_exact by lia. apply Z.quot_div_nonneg; lia.
Qed.

Lemma int_timestamp_add_minutes (t m : Z) :
  0 <= t < timestamp_exact_below ->
  0 <= t + timedelta_minutes m < timestamp_exact_below ->
  int_timestamp (t + timedelta_minutes m) = t / 1000000 + m * 60.
Proof.
  intros Ht Hm. rewrite int_timestamp_nonneg by assumption.
  unfold timedelta_minutes.
  replace (t + m * 60000000) with (t + (m * 60) * 1000000) by lia.
  apply Z.div_add. lia.
Qed.

Lemma datetime_add_minutes_ok (d : datetime) (m : Z) :
  datetime_min <= d <= datetime_max ->
  datetime_min <= d + timedelta_minutes m <= datetime_max ->
  datetime_add_minutes d m = Ok (d + timedelta_minutes m).
Proof.
  unfold datetime_add_minutes, datetime_min, datetime_max, timedelta_minutes.
  intros Hd Hr.
  destruct (Z.ltb_spec (m / 1440) (-999999999));
    [exfalso; zify; Z.to_euclidean_division_equations; lia|].
  destruct (Z.ltb_spec 999999999 (m / 1440));
    [exfalso; zify; Z.to_euclidean_division_equations; lia|].
  cbn [orb].
  destruct (Z.ltb_spec (d + m * 60000000) (-62135596800000000)); [lia|].
  destruct (Z.ltb_spec 253402300799999999 (d + m * 60000000)); [lia|].
  reflexivity.
Qed.

Lemma datetime_add_minutes_overflow (d : datetime) (m : Z) :
  datetime_min <= d <= datetime_max ->
  ~ (datetime_min <= d + timedelta_minutes m <= datetime_max) ->
  datetime_add_minutes d m = Raise OverflowError.
Proof.
  unfold datetime_add_minutes, datetime_min, datetime_max, timedelta_minutes.
  intros Hd Hr.
  destruct ((m / 1440 <? -999999999) || (999999999 <? m / 1440)); [reflexivity|].
  destruct (Z.ltb_spec (d + m * 60000000) (-62135596800000000)); [reflexivity|].
  destruct (Z.ltb_spec 253402300799999999 (d + m * 60000000)); [reflexivity | lia].
Qed.

(** *** Signing and verifying *)

(** The claim set [sign_access_token] builds when the expiry is a
    [datetime]. *)
Lemma sign_access_token_ok (user_id jti key : string) (config : GatewayConfig)
    (expires_minutes : option Z) (now : datetime) :
  _get_secret config = Ok key ->
  datetime_min <= now <= datetime_max ->
  datetime_min <= now + timedelta_minutes (exp_minutes_of expires_minutes config)
    <= datetime_max ->
  exists claims,
    sign_access_token HS256 user_id config jti expires_minutes now
      = Ok (JWS "HS256" claims (HS256 key "HS256" claims)) /\
    claims !! "sub" = Some (JStr user_id) /\
    claims !! "jti" = Some (JStr jti) /\
    claims !! "iat" = Some (JInt (int_timestamp now)) /\
    claims !! "exp" = Some (JInt (int_timestamp
        (now + timedelta_minutes (exp_minutes_of expires_minutes config)))) /\
    claims !! "nbf" = None /\
    claims !! "aud" = None.
Proof.
  intros Hk Hnow Hexp. unfold sign_access_token.
  rewrite (datetime_add_minutes_ok _ _ Hnow Hexp). cbn [result_bind].
  rewrite Hk. cbn [result_bind].
  eexists. split; [reflexivity|].
  repeat split; by simplify_map_eq.
Qed.

(** The instants below [timestamp_exact_below] are [datetime]s. *)
Lemma exact_is_datetime (t : datetime) :
  0 <= t < timestamp_exact_below -> datetime_min <= t <= datetime_max.
Proof. unfold timestamp_exact_below, datetime_min, datetime_max. lia. Qed.

Lemma alg_allowed (alg : string) :
  bool_decide (alg ∈ ["HS256"]) = true <-> alg = "HS256".
Proof.
  rewrite bool_decide_eq_true. split.
  - intros H. apply list_elem_of_singleton in H. exact H.
  - intros ->. apply list_elem_of_singleton. reflexivity.
Qed.

(** A token that [jwt_decode] accepts has passed every check. *)
Lemma jwt_decode_ok_inv (tok : token) (key : string) (now : datetime)
    (payload : gmap string jvalue) :
  jwt_decode HS256 tok key ["HS256"] now = Ok payload ->
  tok = JWS "HS256" payload (HS256 key "HS256" payload) /\
  validate_claims payload now = Ok tt.
Proof.
  destruct tok as [raw|alg claims sig]; simpl; [discriminate|].
  destruct (bool_decide (alg ∈ ["HS256"])) eqn:Halg; simpl; [|discriminate].
  apply alg_allowed in Halg. subst alg.
  destruct (String.eqb sig (HS256 key "HS256" claims)) eqn:Hsig; simpl; [|discriminate].
  apply String.eqb_eq in Hsig. subst sig.
  destruct (validate_claims claims now) as [[]|e] eqn:Hv; simpl; [|discriminate].
  intros [= <-]. split; [reflexivity | assumption].
Qed.

Lemma jwt_decode_signed (key : string) (claims : gmap string jvalue) (now : datetime) :
  jwt_decode HS256 (JWS "HS256" claims (HS256 key "HS256" claims)) key ["HS256"] now =
  let* _ := validate_claims claims now in Ok claims.
Proof.
  simpl. rewrite String.eqb_refl. reflexivity.
Qed.

Lemma validate_exp_passed (claims : gmap string jvalue) (now : datetime) (v : jvalue) (e : Z) :
  claims !! "exp" = Some v -> py_int v = Some e -> e * 1000000 <= now ->
  validate_exp claims now = Raise (ExpiredSignatureError "Signature has expired").
Proof.
  intros Hv He Hle. unfold validate_exp. rewrite Hv, He.
  destruct (Z.leb_spec (e * 1000000) now); [reflexivity | lia].
Qed.

Lemma validate_exp_ok_inv (claims : gmap string jvalue) (now : datetime) (v : jvalue) :
  validate_exp claims now = Ok tt -> claims !! "exp" = Some v ->
  exists e, py_int v = Some e /\ now < e * 1000000.
Proof.
  unfold validate_exp. intros H Hv. rewrite Hv in H.
  destruct (py_int v) as [e|]; [|discriminate].
  exists e. split; [reflexivity|].
  destruct (Z.leb_spec (e * 1000000) now); [discriminate | lia].
Qed.

Lemma validate_not_before_int (name label : string) (claims : gmap string jvalue)
    (now : datetime) (n : Z) :
  claims !! name = Some (JInt n) -> n * 1000000 <= now ->
  validate_not_before name label claims now = Ok tt.
Proof.
  intros Hn Hle. unfold validate_not_before. rewrite Hn. simpl.
  destruct (Z.gtb_spec (n * 1000000) now); [lia | reflexivity].
Qed.

Lemma validate_not_before_absent (name label : string) (claims : gmap string jvalue)
    (now : datetime) :
  claims !! name = None -> validate_not_before name label claims now = Ok tt.
Proof. intros Hn. unfold validate_not_before. rewrite Hn. reflexivity. Qed.

(** [verify_access_token] maps PyJWT's outcome as its two handlers say. *)
Lemma verify_access_token_cases (tok : token) (config : GatewayConfig) (key : string)
    (now : datetime) :
  _get_secret config = Ok key ->
  verify_access_token HS256 tok config now =
  match jwt_decode HS256 tok key ["HS256"] now with
  | Ok payload => Ok payload
  | Raise (ExpiredSignatureError _) => Raise (ValueError "Access token expired")
  | Raise (InvalidTokenError msg) => Raise (ValueError ("Invalid access token: " +:+ msg))
  end.
Proof. intros Hk. unfold verify_access_token. rewrite Hk. reflexivity. Qed.

(** What [validate_claims] can raise before and at the expiry check. *)
Lemma validate_claims_expired (claims : gmap string jvalue) (now : datetime) (v : jvalue) (e : Z) :
  validate_not_before "iat" "Issued At" claims now = Ok tt ->
  validate_not_before "nbf" "Not Before" claims now = Ok tt ->
  claims !! "exp" = Some v -> py_int v = Some e -> e * 1000000 <= now ->
  validate_claims claims now = Raise (ExpiredSignatureError "Signature has expired").
Proof.
  intros Hi Hn Hv He Hle. unfold validate_claims. rewrite Hi, Hn. simpl.
  rewrite (validate_exp_passed _ _ _ _ Hv He Hle). reflexivity.
Qed.

Lemma validate_claims_ok_exp (claims : gmap string jvalue) (now : datetime) (v : jvalue) :
  validate_claims claims now = Ok tt -> claims !! "exp" = Some v ->
  exists e, py_int v = Some e /\ now < e * 1000000.
Proof.
  unfold validate_claims. intros H Hv.
  destruct (validate_not_before "iat" "Issued At" claims now) as [[]|]; [|discriminate].
  destruct (validate_not_before "nbf" "Not Before" claims now) as [[]|]; [|discriminate].
  simpl in H.
  destruct (validate_exp claims now) as [[]|] eqn:Hx; [|discriminate].
  eapply validate_exp_ok_inv; eassumption.
Qed.

Lemma expired_not_invalid (d : string) :
  "Access token expired" <> "Invalid access token: " +:+ d.
Proof. simpl. discriminate. Qed.

(** A token of [sign_access_token] verifies at every instant from its
    signing up to its expiry, and its claims are those it was signed with. *)
Lemma verify_signed_in_window (user_id jti key : string) (config : GatewayConfig)
    (expires_minutes : option Z) (t_sign t_verify : datetime) :
  _get_secret config = Ok key ->
  0 <= t_sign <= t_verify ->
  t_sign + timedelta_minutes (exp_minutes_of expires_minutes config)
    < timestamp_exact_below ->
  t_verify < (t_sign / 1000000 + exp_minutes_of expires_minutes config * 60) * 1000000 ->
  exists claims,
    sign_access_token HS256 user_id config jti expires_minutes t_sign
      = Ok (JWS "HS256" claims (HS256 key "HS256" claims)) /\
    verify_access_token HS256 (JWS "HS256" claims (HS256 key "HS256" claims)) config t_verify
      = Ok claims /\
    claims !! "sub" = Some (JStr user_id) /\
    claims !! "jti" = Some (JStr jti) /\
    claims !! "iat" = Some (JInt (t_sign / 1000000)) /\
    claims !! "exp" = Some (JInt (t_sign / 1000000
                                  + exp_minutes_of expires_minutes config * 60)).
Proof.
  intros Hk Ht Hrange Hwin.
  set (m := exp_minutes_of expires_minutes config) in *.
  pose proof (Z.mul_div_le t_sign 1000000 ltac:(lia)) as Hle.
  assert (Hexp_range : 0 <= t_sign + timedelta_minutes m < timestamp_exact_below)
    by (unfold timedelta_minutes in *; lia).
  assert (Hsign_range : 0 <= t_sign < timestamp_exact_below)
    by (unfold timedelta_minutes in *; lia).
  destruct (sign_access_token_ok user_id jti key config expires_minutes t_sign Hk
              (exact_is_datetime _ Hsign_range) (exact_is_datetime _ Hexp_range))
    as (claims & Hs & Hsub & Hjti & Hiat & Hexp & Hnbf & Haud).
  fold m in Hexp.
  rewrite (int_timestamp_add_minutes t_sign m Hsign_range Hexp_range) in Hexp.
  rewrite (int_timestamp_nonneg t_sign Hsign_range) in Hiat.
  exists claims. repeat split; try assumption.
  rewrite (verify_access_token_cases _ _ key) by assumption.
  rewrite jwt_decode_signed. unfold validate_claims.
  rewrite (validate_not_before_int "iat" _ _ _ _ Hiat) by lia.
  rewrite (validate_not_before_absent "nbf" _ _ _ Hnbf). simpl.
  unfold validate_exp, validate_aud. rewrite Hexp, Haud. simpl.
  destruct (Z.leb_spec ((t_sign / 1000000 + m * 60) * 1000000) t_verify);
    [lia | reflexivity].
Qed.

(** With a lifetime of at least one minute the token verifies at the very
    instant it was signed. *)
Lemma verify_at_signing_instant (user_id jti key : string) (config : GatewayConfig)
    (expires_minutes : option Z) (now : datetime) :
  _get_secret config = Ok key ->
  0 <= now ->
  now + timedelta_minutes (exp_minutes_of expires_minutes config) < timestamp_exact_below ->
  1 <= exp_minutes_of expires_minutes config ->
  exists claims,
    sign_access_token HS256 user_id config jti expires_minutes now
      = Ok (JWS "HS256" claims (HS256 key "HS256" claims)) /\
    verify_access_token HS256 (JWS "HS256" claims (HS256 key "HS256" claims)) config now
      = Ok claims /\
    claims !! "exp" = Some (JInt (now / 1000000
                                  + exp_minutes_of expires_minutes config * 60)).
Proof.
  intros Hk Hnow Hrange Hm.
  pose proof (Z.mod_pos_bound now 1000000 ltac:(lia)) as Hmod.
  pose proof (Z.div_mod now 1000000 ltac:(lia)) as Hdm.
  destruct (verify_signed_in_window user_id jti key config expires_minutes now now Hk)
    as (claims & Hs & Hv & _ & _ & _ & Hexp); [lia | assumption | lia |].
  exists claims. repeat split; assumption.
Qed.

(** C2. For every subject, token id and configuration whose signing secret
    resolves, the token that [sign_access_token] issues with no explicit
    lifetime is accepted by [verify_access_token] at every instant from its
    issue until its expiry, and the claims returned carry that subject as
    [sub], that token id as [jti], and an [exp] that exceeds [iat] by the
    configured lifetime in minutes times 60 seconds. The token is signed
    not before the epoch and expires less than [2 ^ 34] seconds after it,
    where the float of [timestamp()] keeps the whole seconds. *)
Theorem sign_verify_roundtrip (user_id jti key : string) (config : GatewayConfig)
    (t_sign t_verify : datetime) :
  _get_secret config = Ok key ->
  0 <= t_sign <= t_verify ->
  t_sign + timedelta_minutes (access_token_exp_minutes config) < timestamp_exact_below ->
  t_verify < (t_sign / 1000000 + access_token_exp_minutes config * 60) * 1000000 ->
  exists tok claims iat exp,
    sign_access_token HS256 user_id config jti None t_sign = Ok tok /\
    verify_access_token HS256 tok config t_verify = Ok claims /\
    claims !! "sub" = Some (JStr user_id) /\
    claims !! "jti" = Some (JStr jti) /\
    claims !! "iat" = Some (JInt iat) /\
    claims !! "exp" = Some (JInt exp) /\
    exp - iat = access_token_exp_minutes config * 60.
Proof.
  intros Hk Ht Hrange Hwin.
  destruct (verify_signed_in_window user_id jti key config None t_sign t_verify
              Hk Ht Hrange Hwin)
    as (claims & Hs & Hv & Hsub & Hjti & Hiat & Hexp).
  simpl in Hexp.
  exists (JWS "HS256" claims (HS256 key "HS256" claims)), claims,
    (t_sign / 1000000), (t_sign / 1000000 + access_token_exp_minutes config * 60).
  repeat split; try assumption. lia.
Qed.

(** C7, amended. With the signing secret [key] resolved: a correctly
    signed token that passes the not-yet-valid checks of [iat] and [nbf],
    which come first, and whose [exp] has passed is refused with "Access
    token expired", and so is every token of [sign_access_token] verified
    after its expiry; every token is either accepted, with its signature
    checked and its expiry still ahead, or refused with "Access token
    expired", or refused with a message that starts "Invalid access
    token: "; a token that is not a JWS, names another algorithm or carries
    another signature gets the latter; and the two messages never
    coincide. *)
Theorem verify_expired_is_distinct (config : GatewayConfig) (key : string) (now : datetime) :
  _get_secret config = Ok key ->
  (forall claims v e,
      validate_not_before "iat" "Issued At" claims now = Ok tt ->
      validate_not_before "nbf" "Not Before" claims now = Ok tt ->
      claims !! "exp" = Some v -> py_int v = Some e -> e * 1000000 <= now ->
      verify_access_token HS256 (JWS "HS256" claims (HS256 key "HS256" claims)) config now
        = Raise (ValueError "Access token expired")) /\
  (forall user_id jti expires_minutes t_sign,
      0 <= t_sign <= now ->
      t_sign < timestamp_exact_below ->
      0 <= t_sign + timedelta_minutes (exp_minutes_of expires_minutes config)
        < timestamp_exact_below ->
      (t_sign + timedelta_minutes (exp_minutes_of expires_minutes config)) / 1000000
        * 1000000 <= now ->
      exists tok,
        sign_access_token HS256 user_id config jti expires_minutes t_sign = Ok tok /\
        verify_access_token HS256 tok config now = Raise (ValueError "Access token expired")) /\
  (forall tok,
      (exists claims,
          verify_access_token HS256 tok config now = Ok claims /\
          tok = JWS "HS256" claims (HS256 key "HS256" claims) /\
          forall v, claims !! "exp" = Some v ->
                    exists e, py_int v = Some e /\ now < e * 1000000) \/
      verify_access_token HS256 tok config now = Raise (ValueError "Access token expired") \/
      exists d,
        verify_access_token HS256 tok config now
          = Raise (ValueError ("Invalid access token: " +:+ d))) /\
  (forall tok,
      match tok with
      | NotJWS _ => True
      | JWS alg claims signature => alg <> "HS256" \/ signature <> HS256 key alg claims
      end ->
      exists d,
        verify_access_token HS256 tok config now
          = Raise (ValueError ("Invalid access token: " +:+ d))) /\
  (forall d, "Access token expired" <> "Invalid access token: " +:+ d).
Proof.
  intros Hk. repeat apply conj.
  - intros claims v e Hi Hn Hv He Hle.
    rewrite (verify_access_token_cases _ _ key) by assumption.
    rewrite jwt_decode_signed.
    rewrite (validate_claims_expired _ _ _ _ Hi Hn Hv He Hle). reflexivity.
  - intros user_id jti expires_minutes t_sign Ht Hs_range He_range Hle.
    assert (Hsign_range : 0 <= t_sign < timestamp_exact_below) by lia.
    destruct (sign_access_token_ok user_id jti key config expires_minutes t_sign Hk
                (exact_is_datetime _ Hsign_range) (exact_is_datetime _ He_range))
      as (claims & Hs & _ & _ & Hiat & Hexp & Hnbf & _).
    rewrite (int_timestamp_nonneg _ Hsign_range) in Hiat.
    rewrite (int_timestamp_nonneg _ He_range) in Hexp.
    eexists. split; [exact Hs|].
    rewrite (verify_access_token_cases _ _ key) by assumption.
    rewrite jwt_decode_signed.
    pose proof (Z.mul_div_le t_sign 1000000 ltac:(lia)).
    rewrite (validate_claims_expired claims now _ _) with (3 := Hexp) (5 := Hle);
      [reflexivity | | | reflexivity].
    + apply (validate_not_before_int _ _ _ _ _ Hiat). lia.
    + apply validate_not_before_absent. exact Hnbf.
  - intros tok. rewrite (verify_access_token_cases _ _ key) by assumption.
    destruct (jwt_decode HS256 tok key ["HS256"] now) as [payload|[msg|msg]] eqn:Hd.
    + left. exists payload. apply jwt_decode_ok_inv in Hd. destruct Hd as [-> Hv].
      repeat split. intros v Hexp. eapply validate_claims_ok_exp; eassumption.
    + right. left. reflexivity.
    + right. right. exists msg. reflexivity.
  - intros tok Hbad. rewrite (verify_access_token_cases _ _ key) by assumption.
    destruct tok as [raw|alg claims sig]; simpl.
    + eexists. reflexivity.
    + destruct (bool_decide (alg ∈ ["HS256"])) eqn:Halg; simpl; [|eexists; reflexivity].
      apply alg_allowed in Halg. subst alg.
      destruct Hbad as [Hbad|Hbad]; [congruence|].
      apply String.eqb_neq in Hbad. rewrite Hbad. simpl. eexists. reflexivity.
  - apply expired_not_invalid.
Qed.

(** C8. At an instant [now] of the clock: when the expiry, [now] plus the
    lifetime, is a [datetime], [sign_access_token] signs with the secret
    the specification resolves, the explicit JWT secret when one is
    configured and else the master key: the token it returns is HS256 and
    its signature is the MAC of its claims under that secret; when neither
    is configured it raises the [RuntimeError] "JWT secret not configured"
    and returns no token. The expiry is computed first: when it leaves the
    years 1 to 9999 the call raises [OverflowError] whatever the secrets,
    and returns no token either. *)
Theorem signing_secret_resolution (user_id jti : string) (config : GatewayConfig)
    (expires_minutes : option Z) (now : datetime) :
  datetime_min <= now <= datetime_max ->
  (datetime_min <= now + timedelta_minutes (exp_minutes_of expires_minutes config)
     <= datetime_max ->
   match spec_signing_secret config with
   | Some key =>
       exists claims,
         sign_access_token HS256 user_id config jti expires_minutes now
           = Ok (JWS "HS256" claims (HS256 key "HS256" claims)) /\
         claims !! "sub" = Some (JStr user_id) /\ claims !! "jti" = Some (JStr jti)
   | None =>
       sign_access_token HS256 user_id config jti expires_minutes now
         = Raise (RuntimeError "JWT secret not configured. Set jwt_secret or master_key.")
   end) /\
  (~ (datetime_min <= now + timedelta_minutes (exp_minutes_of expires_minutes config)
        <= datetime_max) ->
   sign_access_token HS256 user_id config jti expires_minutes now = Raise OverflowError).
Proof.
  intros Hnow. split.
  - intros Hexp. pose proof (get_secret_spec config) as Hk.
    destruct (spec_signing_secret config) as [key|].
    + destruct (sign_access_token_ok user_id jti key config expires_minutes now Hk Hnow Hexp)
        as (claims & Hs & Hsub & Hjti & _).
      exists claims. repeat split; assumption.
    + unfold sign_access_token.
      rewrite (datetime_add_minutes_ok _ _ Hnow Hexp). cbn [result_bind].
      rewrite Hk. reflexivity.
  - intros Hexp. unfold sign_access_token.
    rewrite (datetime_add_minutes_overflow _ _ Hnow Hexp). reflexivity.
Qed.

(** C10. An explicit lifetime of 0 minutes gives the same result as no
    lifetime argument: the [exp] of a token it returns is computed from
    the configured default lifetime. When that default is at least one
    minute, and the token is signed not before the epoch and expires less
    than [2 ^ 34] seconds after it, [exp] is the signing instant in whole
    seconds plus the default lifetime in seconds, and the token is
    accepted at the very instant it was signed. *)
Theorem zero_lifetime_uses_default (user_id jti : string) (config : GatewayConfig)
    (now : datetime) :
  sign_access_token HS256 user_id config jti (Some 0) now
    = sign_access_token HS256 user_id config jti None now /\
  (forall tok,
      sign_access_token HS256 user_id config jti (Some 0) now = Ok tok ->
      exists claims signature expiry,
        tok = JWS "HS256" claims signature /\
        datetime_add_minutes now (access_token_exp_minutes config) = Ok expiry /\
        claims !! "exp" = Some (JInt (int_timestamp expiry))) /\
  (forall key,
      _get_secret config = Ok key ->
      0 <= now ->
      now + timedelta_minutes (access_token_exp_minutes config) < timestamp_exact_below ->
      1 <= access_token_exp_minutes config ->
      exists tok claims,
        sign_access_token HS256 user_id config jti (Some 0) now = Ok tok /\
        verify_access_token HS256 tok config now = Ok claims /\
        claims !! "exp"
          = Some (JInt (now / 1000000 + access_token_exp_minutes config * 60))).
Proof.
  repeat apply conj.
  - reflexivity.
  - intros tok Hs. unfold sign_access_token in Hs.
    change (exp_minutes_of (Some 0) config) with (access_token_exp_minutes config) in Hs.
    destruct (datetime_add_minutes now (access_token_exp_minutes config)) as [expiry|];
      cbn [result_bind] in Hs; [|discriminate].
    destruct (_get_secret config) as [key|e]; cbn [result_bind] in Hs; [|discriminate].
    injection Hs as <-. do 3 eexists. split; [reflexivity|]. split; [reflexivity|].
    by simplify_map_eq.
  - intros key Hk Hnow Hrange Hm.
    destruct (verify_at_signing_instant user_id jti key config (Some 0) now Hk Hnow
                Hrange Hm) as (claims & Hs & Hv & Hexp).
    do 2 eexists. repeat split; eassumption.
Qed.

End Props.

(** The round trip on a concrete input. *)
Lemma sign_verify_roundtrip_witness :
  exists tok claims iat exp,
    sign_access_token example_mac "alice" example_config "jti-1" None 1700000000123456
      = Ok tok /\
    verify_access_token example_mac tok example_config 1700000060000000 = Ok claims /\
    claims !! "sub" = Some (JStr "alice") /\
    claims !! "jti" = Some (JStr "jti-1") /\
    claims !! "iat" = Some (JInt iat) /\
    claims !! "exp" = Some (JInt exp) /\
    exp - iat = access_token_exp_minutes example_config * 60.
Proof.
  apply (sign_verify_roundtrip example_mac "alice" "jti-1" "master-key" example_config
           1700000000123456 1700000060000000).
  - reflexivity.
  - lia.
  - vm_compute. reflexivity.
  - vm_compute. reflexivity.
Defined.

(** C7 as stated fails: a correctly signed token whose [exp] has passed
    and whose [nbf] lies ahead is refused as invalid, not as expired; the
    not-yet-valid checks come before the expiry check. *)
Lemma expired_but_not_yet_valid :
  _get_secret example_config = Ok "master-key" /\
  py_int (JInt 1600000000) = Some 1600000000 /\
  1600000000 * 1000000 <= 1700000000123456 /\
  verify_access_token example_mac
    (JWS "HS256"
       (<["exp" := JInt 1600000000]> (<["nbf" := JInt 1800000000]> ∅))
       (example_mac "master-key" "HS256"
          (<["exp" := JInt 1600000000]> (<["nbf" := JInt 1800000000]> ∅))))
    example_config 1700000000123456
  = Raise (ValueError "Invalid access token: The token is not yet valid (nbf)").
Proof. repeat split. vm_compute. discriminate. Qed.

(** A token signed five minutes into the past is refused as expired. *)
Lemma verify_expired_is_distinct_witness :
  _get_secret example_config = Ok "master-key" /\
  exists tok,
    sign_access_token example_mac "alice" example_config "jti-1" (Some (-5)) 1700000000123456
      = Ok tok /\
    verify_access_token example_mac tok example_config 1700000000123456
      = Raise (ValueError "Access token expired").
Proof.
  split; [reflexivity|].
  destruct (verify_expired_is_distinct example_mac example_config "master-key"
              1700000000123456 eq_refl) as (_ & Hsigned & _).
  apply (Hsigned "alice" "jti-1" (Some (-5)) 1700000000123456).
  - lia.
  - vm_compute. reflexivity.
  - vm_compute. split; [discriminate | reflexivity].
  - vm_compute. discriminate.
Defined.

(** On the example configuration: a token signed with the master key, and
    the overflow of a lifetime of ten thousand million minutes. *)
Lemma signing_secret_resolution_witness :
  (exists claims,
      sign_access_token example_mac "alice" example_config "jti-1" None 1700000000123456
        = Ok (JWS "HS256" claims (example_mac "master-key" "HS256" claims)) /\
      claims !! "sub" = Some (JStr "alice") /\ claims !! "jti" = Some (JStr "jti-1")) /\
  sign_access_token example_mac "alice" example_config "jti-1" (Some 10000000000)
      1700000000123456
    = Raise OverflowError.
Proof.
  split.
  - apply (signing_secret_resolution example_mac "alice" "jti-1" example_config None
             1700000000123456).
    + vm_compute. split; discriminate.
    + vm_compute. split; discriminate.
  - apply (signing_secret_resolution example_mac "alice" "jti-1" example_config
             (Some 10000000000) 1700000000123456).
    + vm_compute. split; discriminate.
    + vm_compute. intros [_ H]. apply H. reflexivity.
Defined.

(** A lifetime of 0 on the example configuration: the token lives for the
    fifteen minutes of the default and verifies at once. *)
Lemma zero_lifetime_uses_default_witness :
  sign_access_token example_mac "alice" example_config "jti-1" (Some 0) 1700000000123456
    = sign_access_token example_mac "alice" example_config "jti-1" None 1700000000123456 /\
  exists tok claims,
    sign_access_token example_mac "alice" example_config "jti-1" (Some 0) 1700000000123456
      = Ok tok /\
    verify_access_token example_mac tok example_config 1700000000123456 = Ok claims /\
    claims !! "exp" = Some (JInt 1700000900).
Proof.
  destruct (zero_lifetime_uses_default example_mac "alice" "jti-1" example_config
              1700000000123456) as (Hsame & _ & Hfresh).
  split; [exact Hsame|].
  apply (Hfresh "master-key"); [reflexivity | lia | vm_compute; reflexivity | simpl; lia].
Defined.

(** Refusals that are not expiry: a foreign signature, a string that is
    not a JWS, an algorithm other than HS256. *)
Example verify_rejects_invalid :
  verify_access_token example_mac
      (JWS "HS256" {[ "sub" := JStr "alice" ]} "forged") example_config 1700000000123456
    = Raise (ValueError "Invalid access token: Signature verification failed") /\
  verify_access_token example_mac (NotJWS "not-a-token") example_config 1700000000123456
    = Raise (ValueError "Invalid access token: Not enough segments") /\
  verify_access_token example_mac
      (JWS "none" {[ "sub" := JStr "alice" ]} "") example_config 1700000000123456
    = Raise (ValueError "Invalid access token: The specified alg value is not allowed").
Proof. repeat split. Qed.

(** With both secrets configured the JWT secret signs. *)
Example sign_prefers_jwt_secret :
  exists claims,
    sign_access_token example_mac "alice"
      {| jwt_secret := Some "jwt-secret"; master_key := Some "master-key";
         access_token_exp_minutes := 15; providers := ∅ |}
      "jti-1" None 1700000000123456
    = Ok (JWS "HS256" claims "jwt-secret/HS256/alice/jti-1").
Proof. eexists. reflexivity. Qed.

Example sign_without_secret :
  sign_access_token example_mac "alice"
    {| jwt_secret := Some ""; master_key := None;
       access_token_exp_minutes := 15; providers := ∅ |}
    "jti-1" None 1700000000123456
  = Raise (RuntimeError "JWT secret not configured. Set jwt_secret or master_key.").
Proof. reflexivity. Qed.

Example sign_zero_lifetime_exp :
  exists signature,
    sign_access_token example_mac "alice" example_config "jti-1" (Some 0) 1700000000123456
    = Ok (JWS "HS256"
            (<["sub" := JStr "alice"]> (<["jti" := JStr "jti-1"]>
              (<["iat" := JInt 1700000000]> (<["exp" := JInt 1700000900]> ∅))))
            signature).
Proof. eexists. reflexivity. Qed.

(** The float of [timestamp()] at work: up to [2 ^ 34] seconds the last
    microsecond of a second stays in its second, from there on it rounds
    up to the next one; before the epoch [int] truncates towards zero. *)
Example int_timestamp_rounding :
  int_timestamp 1700000000999999 = 1700000000 /\
  int_timestamp 17179869183999999 = 17179869183 /\
  int_timestamp 17179869184999999 = 17179869185 /\
  int_timestamp (-999999) = 0 /\
  int_timestamp datetime_max = 253402300800.
Proof. repeat split; vm_compute; reflexivity. Qed.

(** A lifetime that carries the expiry past [2 ^ 34] seconds: [exp] is one
    second more than [iat] plus the lifetime. *)
Example sign_far_expiry :
  exists signature,
    sign_access_token example_mac "alice" example_config "jti-1" (Some 300000000)
      1700000000999999
    = Ok (JWS "HS256"
            (<["sub" := JStr "alice"]> (<["jti" := JStr "jti-1"]>
              (<["iat" := JInt 1700000000]> (<["exp" := JInt 19700000001]> ∅))))
            signature).
Proof. eexists. vm_compute. reflexivity. Qed.

(** An expiry past the year 9999 overflows before the secret is looked
    for. *)
Example sign_overflow_without_secret :
  sign_access_token example_mac "alice"
    {| jwt_secret := None; master_key := None;
       access_token_exp_minutes := 10000000000; providers := ∅ |}
    "jti-1" None 1700000000123456
  = Raise OverflowError.
Proof. vm_compute. reflexivity. Qed.

(** Literals that [int] reads and refuses. *)
Example py_int_literals :
  py_int (JStr " 1_000 ") = Some 1000 /\
  py_int (JStr "+15") = Some 15 /\
  py_int (JStr "-007") = Some (-7) /\
  py_int (JStr "1__0") = None /\
  py_int (JStr "12 3") = None /\
  py_int (JStr "- 1") = None /\
  py_int (JStr "") = None.
Proof. repeat split. Qed.

End TokenProps.

(** * Further properties of the token service *)

Module TokenExtras.

Import Tokens Examples.

Section Props.

Variable HS256 : string -> string -> gmap string jvalue -> string.


(** The only way [validate_claims] reports an expiry. *)
Lemma validate_claims_expired_inv (claims : gmap string jvalue) (now : datetime) (msg : string) :
  validate_claims claims now = Raise (ExpiredSignatureError msg) ->
  validate_not_before "iat" "Issued At" claims now = Ok tt /\
  validate_not_before "nbf" "Not Before" claims now = Ok tt /\
  exists v e, claims !! "exp" = Some v /\ py_int v = Some e /\ e * 1000000 <= now.
Proof.
  unfold validate_claims.
  destruct (validate_not_before "iat" "Issued At" claims now) as [[]|err] eqn:Hi.
  2:{ unfold validate_not_before in Hi.
      destruct (claims !! "iat") as [v|]; [|discriminate].
      destruct (py_int v) as [n|]; [|injection Hi as <-; discriminate].
      destruct (n * 1000000 >? now); [injection Hi as <-; discriminate | discriminate]. }
  destruct (validate_not_before "nbf" "Not Before" claims now) as [[]|err] eqn:Hn.
  2:{ unfold validate_not_before in Hn.
      destruct (claims !! "nbf") as [v|]; [|discriminate].
      destruct (py_int v) as [n|]; [|injection Hn as <-; discriminate].
      destruct (n * 1000000 >? now); [injection Hn as <-; discriminate | discriminate]. }
  cbn [result_bind]. unfold validate_exp, validate_aud.
  destruct (claims !! "exp") as [v|] eqn:Hx; cbn [result_bind].
  - destruct (py_int v) as [e|] eqn:He; [|discriminate].
    destruct (Z.leb_spec (e * 1000000) now); cbn [result_bind].
    + intros _. split; [reflexivity|]. split; [reflexivity|].
      exists v, e. repeat split; assumption.
    + destruct (claims !! "aud") as [a|]; [destruct (jtruthy a)|]; discriminate.
  - destruct (claims !! "aud") as [a|]; [destruct (jtruthy a)|]; discriminate.
Qed.

(** A not-yet-valid check that passed keeps passing. *)
Lemma validate_not_before_later (name label : string) (claims : gmap string jvalue)
    (t t' : datetime) :
  t <= t' ->
  validate_not_before name label claims t = Ok tt ->
  validate_not_before name label claims t' = Ok tt.
Proof.
  intros Hle. unfold validate_not_before.
  destruct (claims !! name) as [v|]; [|trivial].
  destruct (py_int v) as [n|]; [|trivial].
  destruct (Z.gtb_spec (n * 1000000) t); [discriminate|].
  destruct (Z.gtb_spec (n * 1000000) t'); [lia | trivial].
Qed.

Lemma verify_expired_inv (tok : token) (config : GatewayConfig) (now : datetime) :
  verify_access_token HS256 tok config now = Raise (ValueError "Access token expired") ->
  exists key claims v e,
    _get_secret config = Ok key /\
    tok = JWS "HS256" claims (HS256 key "HS256" claims) /\
    validate_not_before "iat" "Issued At" claims now = Ok tt /\
    validate_not_before "nbf" "Not Before" claims now = Ok tt /\
    claims !! "exp" = Some v /\ py_int v = Some e /\ e * 1000000 <= now.
Proof.
  unfold verify_access_token.
  pose proof (TokenProps.get_secret_spec config) as Hk.
  destruct (spec_signing_secret config) as [key|]; rewrite Hk; cbn [result_bind];
    [|discriminate].
  destruct (jwt_decode HS256 tok key ["HS256"] now) as [payload|[msg|msg]] eqn:Hd;
    [discriminate| |cbn; discriminate].
  intros _. destruct tok as [raw|alg claims sig]; [discriminate|].
  cbn [jwt_decode] in Hd.
  destruct (bool_decide (alg ∈ ["HS256"])) eqn:Halg; cbn [negb] in Hd; [|discriminate].
  apply TokenProps.alg_allowed in Halg. subst alg.
  destruct (String.eqb sig (HS256 key "HS256" claims)) eqn:Hsig; cbn [negb] in Hd;
    [|discriminate].
  apply String.eqb_eq in Hsig. subst sig.
  destruct (validate_claims claims now) as [[]|err] eqn:Hv; cbn [result_bind] in Hd;
    [discriminate|].
  injection Hd as ->.
  destruct (validate_claims_expired_inv _ _ _ Hv) as (Hi & Hn & v & e & Hx & He & Hle).
  exists key, claims, v, e. repeat split; assumption.
Qed.

(** X14. Expiry is final: a token that [verify_access_token] refuses as
    expired at one instant is refused as expired at every later
    instant. *)
Theorem expired_stays_expired (tok : token) (config : GatewayConfig) (t t' : datetime) :
  verify_access_token HS256 tok config t = Raise (ValueError "Access token expired") ->
  t <= t' ->
  verify_access_token HS256 tok config t' = Raise (ValueError "Access token expired").
Proof.
  intros Hexp Hle.
  destruct (verify_expired_inv _ _ _ Hexp)
    as (key & claims & v & e & Hk & -> & Hi & Hn & Hx & He & Hpast).
  rewrite (TokenProps.verify_access_token_cases HS256 _ _ key) by assumption.
  rewrite TokenProps.jwt_decode_signed.
  rewrite (TokenProps.validate_claims_expired claims t' v e); [reflexivity | | | | |].
  - apply (validate_not_before_later _ _ _ t t' Hle Hi).
  - apply (validate_not_before_later _ _ _ t t' Hle Hn).
  - exact Hx.
  - exact He.
  - lia.
Qed.


(** X16. With an explicit lifetime other than 0 the configured default
    plays no part: the token verifies from its issue until its expiry, and
    its [exp] exceeds its [iat] by the explicit lifetime times 60
    seconds. The token is signed not before the epoch and expires less
    than [2 ^ 34] seconds after it, where the float of [timestamp()] keeps
    the whole seconds. *)
Theorem explicit_lifetime_roundtrip (user_id jti key : string) (config : GatewayConfig)
    (minutes : Z) (t_sign t_verify : datetime) :
  _get_secret config = Ok key ->
  minutes <> 0 ->
  0 <= t_sign <= t_verify ->
  t_sign + timedelta_minutes minutes < timestamp_exact_below ->
  t_verify < (t_sign / 1000000 + minutes * 60) * 1000000 ->
  exists tok claims iat,
    sign_access_token HS256 user_id config jti (Some minutes) t_sign = Ok tok /\
    verify_access_token HS256 tok config t_verify = Ok claims /\
    claims !! "sub" = Some (JStr user_id) /\
    claims !! "jti" = Some (JStr jti) /\
    claims !! "iat" = Some (JInt iat) /\
    claims !! "exp" = Some (JInt (iat + minutes * 60)).
Proof.
  intros Hk Hm Ht Hrange Hwin.
  assert (Hmin : exp_minutes_of (Some minutes) config = minutes).
  { unfold exp_minutes_of. destruct (Z.eqb_spec minutes 0); [contradiction | reflexivity]. }
  destruct (TokenProps.verify_signed_in_window HS256 user_id jti key config (Some minutes)
              t_sign t_verify Hk Ht) as (claims & Hs & Hv & Hsub & Hjti & Hiat & Hexp).
  { rewrite Hmin. exact Hrange. }
  { rewrite Hmin. exact Hwin. }
  rewrite Hmin in Hexp.
  exists (JWS "HS256" claims (HS256 key "HS256" claims)), claims, (t_sign / 1000000).
  repeat split; assumption.
Qed.

(** X17. Verification reads the configuration only through the signing
    secret it resolves: two configurations that resolve the same secret
    give the same verdict on every token, whatever their lifetimes and
    provider settings; and a configuration that resolves none makes
    [verify_access_token] raise the [RuntimeError] of [_get_secret] for
    every token, before the token is looked at. *)
Theorem verify_depends_on_secret_only (tok : token) (config config' : GatewayConfig)
    (now : datetime) :
  (spec_signing_secret config = spec_signing_secret config' ->
   verify_access_token HS256 tok config now = verify_access_token HS256 tok config' now) /\
  (spec_signing_secret config = None ->
   verify_access_token HS256 tok config now =
   Raise (RuntimeError "JWT secret not configured. Set jwt_secret or master_key.")).
Proof.
  split.
  - intros Heq. unfold verify_access_token.
    rewrite !TokenProps.get_secret_spec, Heq. reflexivity.
  - intros Hnone. unfold verify_access_token.
    rewrite TokenProps.get_secret_spec, Hnone. reflexivity.
Qed.

(** X21. Every token of [sign_access_token] names the algorithm HS256 and
    carries exactly the four claims [sub], [jti], [iat] and [exp]: no
    [nbf] and no [aud]. When it is signed less than [2 ^ 34] seconds from
    the epoch, [iat] is the signing instant in whole seconds. *)
Theorem signed_claim_set (user_id jti : string) (config : GatewayConfig)
    (expires_minutes : option Z) (now : datetime) (tok : token) :
  Z.abs now < timestamp_exact_below ->
  sign_access_token HS256 user_id config jti expires_minutes now = Ok tok ->
  exists claims signature,
    tok = JWS "HS256" claims signature /\
    dom claims = ({["sub"; "jti"; "iat"; "exp"]} : gset string) /\
    claims !! "iat" = Some (JInt (Z.quot now 1000000)).
Proof.
  intros Hnow. unfold sign_access_token.
  destruct (datetime_add_minutes now (exp_minutes_of expires_minutes config)) as [expiry|];
    cbn [result_bind]; [|discriminate].
  destruct (_get_secret config) as [key|]; cbn [result_bind]; [|discriminate].
  intros [= <-]. do 2 eexists. split; [reflexivity|]. split.
  - rewrite !dom_insert_L, dom_empty_L. set_solver.
  - rewrite <- (TokenProps.int_timestamp_exact now Hnow). by simplify_map_eq.
Qed.

(** X22. Changing the signing secret invalidates the tokens issued before:
    a token signed under one configuration is refused with "Invalid access
    token: Signature verification failed" under a configuration whose
    secret gives its claims another MAC, whether or not it has
    expired. *)
Theorem secret_rotation_invalidates (user_id jti key key' : string)
    (config config' : GatewayConfig) (expires_minutes : option Z) (t_sign t_verify : datetime)
    (claims : gmap string jvalue) (signature : string) :
  _get_secret config = Ok key ->
  _get_secret config' = Ok key' ->
  sign_access_token HS256 user_id config jti expires_minutes t_sign
    = Ok (JWS "HS256" claims signature) ->
  HS256 key' "HS256" claims <> HS256 key "HS256" claims ->
  verify_access_token HS256 (JWS "HS256" claims signature) config' t_verify =
  Raise (ValueError "Invalid access token: Signature verification failed").
Proof.
  intros Hk Hk' Hs Hmac. unfold sign_access_token in Hs.
  destruct (datetime_add_minutes t_sign (exp_minutes_of expires_minutes config))
    as [expiry|]; cbn [result_bind] in Hs; [|discriminate].
  rewrite Hk in Hs.
  cbn [result_bind jwt_encode] in Hs. injection Hs as Hc Hsig.
  rewrite Hc in Hsig. subst signature.
  rewrite (TokenProps.verify_access_token_cases HS256 _ _ key') by assumption.
  cbn [jwt_decode bool_decide]. 
  assert (Hneq : String.eqb (HS256 key "HS256" claims) (HS256 key' "HS256" claims) = false).
  { apply String.eqb_neq. congruence. }
  cbn. rewrite Hneq. reflexivity.
Qed.

End Props.

Lemma signed_claim_set_witness :
  exists claims signature,
    JWS "HS256"
        (<["sub" := JStr "alice"]> (<["jti" := JStr "jti-1"]>
          (<["iat" := JInt 1700000000]> (<["exp" := JInt 1700000900]> ∅))))
        "master-key/HS256/alice/jti-1"
      = JWS "HS256" claims signature /\
    dom claims = ({["sub"; "jti"; "iat"; "exp"]} : gset string) /\
    claims !! "iat" = Some (JInt 1700000000).
Proof.
  apply (signed_claim_set example_mac "alice" "jti-1" example_config None 1700000000123456).
  - vm_compute. reflexivity.
  - vm_compute. reflexivity.
Defined.

Lemma secret_rotation_invalidates_witness :
  verify_access_token example_mac
    (JWS "HS256"
         (<["sub" := JStr "alice"]> (<["jti" := JStr "jti-1"]>
           (<["iat" := JInt 1700000000]> (<["exp" := JInt 1700000900]> ∅))))
         "master-key/HS256/alice/jti-1")
    {| jwt_secret := Some "rotated"; master_key := Some "master-key";
       access_token_exp_minutes := 15; providers := ∅ |}
    1700000000123456
  = Raise (ValueError "Invalid access token: Signature verification failed").
Proof.
  apply (secret_rotation_invalidates example_mac "alice" "jti-1" "master-key" "rotated"
           example_config
           {| jwt_secret := Some "rotated"; master_key := Some "master-key";
              access_token_exp_minutes := 15; providers := ∅ |}
           None 1700000000123456 1700000000123456).
  - reflexivity.
  - reflexivity.
  - reflexivity.
  - discriminate.
Defined.

Lemma expired_stays_expired_witness :
  verify_access_token example_mac
    (JWS "HS256" {[ "exp" := JStr "1700000000" ]}
         (example_mac "master-key" "HS256" {[ "exp" := JStr "1700000000" ]}))
    example_config 1800000000000000
  = Raise (ValueError "Access token expired").
Proof.
  apply (expired_stays_expired example_mac _ example_config 1700000000000000
           1800000000000000).
  - reflexivity.
  - lia.
Defined.


Lemma explicit_lifetime_roundtrip_witness :
  exists tok claims iat,
    sign_access_token example_mac "alice" example_config "jti-1" (Some 1) 1700000000123456
      = Ok tok /\
    verify_access_token example_mac tok example_config 1700000059999999 = Ok claims /\
    claims !! "sub" = Some (JStr "alice") /\
    claims !! "jti" = Some (JStr "jti-1") /\
    claims !! "iat" = Some (JInt iat) /\
    claims !! "exp" = Some (JInt (iat + 1 * 60)).
Proof.
  apply (explicit_lifetime_roundtrip example_mac "alice" "jti-1" "master-key" example_config
           1 1700000000123456 1700000059999999).
  - reflexivity.
  - discriminate.
  - lia.
  - vm_compute. reflexivity.
  - vm_compute. reflexivity.
Defined.

Lemma verify_depends_on_secret_only_witness :
  verify_access_token example_mac (NotJWS "garbage")
    {| jwt_secret := None; master_key := Some ""; access_token_exp_minutes := 15;
       providers := ∅ |} 1700000000000000
  = Raise (RuntimeError "JWT secret not configured. Set jwt_secret or master_key.").
Proof.
  apply (verify_depends_on_secret_only example_mac (NotJWS "garbage")
           {| jwt_secret := None; master_key := Some ""; access_token_exp_minutes := 15;
              providers := ∅ |} example_config 1700000000000000).
  reflexivity.
Defined.

End TokenExtras.

(** * Properties of the base64 codec *)

Module Base64Props.

Import Base64.

Local Open Scope N_scope.

(** Linear arithmetic with division and remainder by constants. *)
Ltac div_lia := zify; Z.to_euclidean_division_equations; lia.

Lemma sextet_cases (P : N -> Prop) :
  (forall n, P n -> True) ->
  forall n, n < 64 ->
  Forall P (map N.of_nat (seq 0 64)) -> P n.
Proof.
  intros _ n Hn Hall.
  rewrite Forall_forall in Hall. apply Hall.
  apply list_elem_of_In, in_map_iff. exists (N.to_nat n). split.
  - apply N2Nat.id.
  - apply in_seq. lia.
Qed.

(** Every 6-bit group is read back from its character, which is never the
    padding character. *)
Lemma sextet_of_char_of_sextet (n : N) :
  n < 64 ->
  sextet_of_char (char_of_sextet n) = Some n /\ Ascii.eqb (char_of_sextet n) pad = false.
Proof.
  intros Hn.
  apply (sextet_cases
           (fun n => sextet_of_char (char_of_sextet n) = Some n /\
                     Ascii.eqb (char_of_sextet n) pad = false));
    [trivial | assumption |].
  vm_compute. repeat constructor.
Qed.

Lemma byte_of_to_N (b : byte) : byte_of_N (Byte.to_N b) = b.
Proof. unfold byte_of_N. rewrite Byte.of_to_N. reflexivity. Qed.

Lemma to_N_lt (b : byte) : Byte.to_N b < 256.
Proof. pose proof (Byte.to_N_bounded b). lia. Qed.

Lemma list_ind3 {A} (P : list A -> Prop) :
  P [] ->
  (forall a, P [a]) ->
  (forall a b, P [a; b]) ->
  (forall a b c l, P l -> P (a :: b :: c :: l)) ->
  forall l, P l.
Proof.
  intros H0 H1 H2 H3.
  refine (fix F (l : list A) : P l :=
            match l with
            | [] => H0
            | [a] => H1 a
            | [a; b] => H2 a b
            | a :: b :: c :: r => H3 a b c r (F r)
            end).
Qed.

(** The three bytes of a group are recovered from its four sextets. *)
Lemma regroup (x y z : N) :
  x < 256 -> y < 256 -> z < 256 ->
  x / 4 < 64 /\ (x mod 4) * 16 + y / 16 < 64 /\
  (y mod 16) * 4 + z / 64 < 64 /\ z mod 64 < 64 /\
  (x / 4) * 4 + ((x mod 4) * 16 + y / 16) / 16 = x /\
  (((x mod 4) * 16 + y / 16) mod 16) * 16 + ((y mod 16) * 4 + z / 64) / 4 = y /\
  (((y mod 16) * 4 + z / 64) mod 4) * 64 + z mod 64 = z.
Proof.
  intros Hx Hy Hz. repeat split; div_lia.
Qed.

Lemma b64decode_full (c0 c1 c2 c3 : ascii) (rest : string) (s0 s1 s2 s3 : N) :
  sextet_of_char c0 = Some s0 -> sextet_of_char c1 = Some s1 ->
  sextet_of_char c2 = Some s2 -> sextet_of_char c3 = Some s3 ->
  Ascii.eqb c2 pad = false -> Ascii.eqb c3 pad = false ->
  b64decode (String c0 (String c1 (String c2 (String c3 rest)))) =
  match b64decode rest with
  | Some tl =>
      Some (byte_of_N (s0 * 4 + s1 / 16) :: byte_of_N ((s1 mod 16) * 16 + s2 / 4)
              :: byte_of_N ((s2 mod 4) * 64 + s3) :: tl)
  | None => None
  end.
Proof.
  intros H0 H1 H2 H3 P2 P3. cbn [b64decode]. rewrite H0, H1, H2, H3, P2, P3. reflexivity.
Qed.

Lemma b64decode_two (c0 c1 c2 : ascii) (s0 s1 s2 : N) :
  sextet_of_char c0 = Some s0 -> sextet_of_char c1 = Some s1 ->
  sextet_of_char c2 = Some s2 -> Ascii.eqb c2 pad = false ->
  b64decode (String c0 (String c1 (String c2 (String pad EmptyString)))) =
  Some [byte_of_N (s0 * 4 + s1 / 16); byte_of_N ((s1 mod 16) * 16 + s2 / 4)].
Proof.
  intros H0 H1 H2 P2. cbn [b64decode]. rewrite H0, H1, H2, P2. reflexivity.
Qed.

Lemma b64decode_one (c0 c1 : ascii) (s0 s1 : N) :
  sextet_of_char c0 = Some s0 -> sextet_of_char c1 = Some s1 ->
  b64decode (String c0 (String c1 (String pad (String pad EmptyString)))) =
  Some [byte_of_N (s0 * 4 + s1 / 16)].
Proof.
  intros H0 H1. cbn [b64decode]. rewrite H0, H1. reflexivity.
Qed.

(** Decoding undoes encoding, for every byte string. *)
Lemma b64decode_b64encode (data : list byte) :
  b64decode (b64encode data) = Some data.
Proof.
  induction data as [|a|a b|a b c rest IH] using list_ind3.
  - reflexivity.
  - cbn [b64encode].
    pose proof (to_N_lt a) as Ha. set (x := Byte.to_N a) in *.
    assert (Hs0 : x / 4 < 64) by div_lia.
    assert (Hs1 : (x mod 4) * 16 < 64) by div_lia.
    destruct (sextet_of_char_of_sextet _ Hs0) as [E0 _].
    destruct (sextet_of_char_of_sextet _ Hs1) as [E1 _].
    rewrite (b64decode_one _ _ _ _ E0 E1).
    replace (x / 4 * 4 + x mod 4 * 16 / 16) with x
      by div_lia.
    subst x. rewrite byte_of_to_N. reflexivity.
  - cbn [b64encode].
    pose proof (to_N_lt a) as Ha. pose proof (to_N_lt b) as Hb.
    set (x := Byte.to_N a) in *. set (y := Byte.to_N b) in *.
    assert (Hs0 : x / 4 < 64) by div_lia.
    assert (Hs1 : (x mod 4) * 16 + y / 16 < 64)
      by div_lia.
    assert (Hs2 : (y mod 16) * 4 < 64) by div_lia.
    destruct (sextet_of_char_of_sextet _ Hs0) as [E0 _].
    destruct (sextet_of_char_of_sextet _ Hs1) as [E1 _].
    destruct (sextet_of_char_of_sextet _ Hs2) as [E2 P2].
    rewrite (b64decode_two _ _ _ _ _ _ E0 E1 E2 P2).
    replace (x / 4 * 4 + (x mod 4 * 16 + y / 16) / 16) with x
      by div_lia.
    replace ((x mod 4 * 16 + y / 16) mod 16 * 16 + y mod 16 * 4 / 4) with y
      by div_lia.
    subst x y. rewrite !byte_of_to_N. reflexivity.
  - cbn [b64encode].
    pose proof (to_N_lt a) as Ha. pose proof (to_N_lt b) as Hb. pose proof (to_N_lt c) as Hc.
    set (x := Byte.to_N a) in *. set (y := Byte.to_N b) in *. set (z := Byte.to_N c) in *.
    destruct (regroup x y z Ha Hb Hc) as (Hs0 & Hs1 & Hs2 & Hs3 & Rx & Ry & Rz).
    destruct (sextet_of_char_of_sextet _ Hs0) as [E0 _].
    destruct (sextet_of_char_of_sextet _ Hs1) as [E1 _].
    destruct (sextet_of_char_of_sextet _ Hs2) as [E2 P2].
    destruct (sextet_of_char_of_sextet _ Hs3) as [E3 P3].
    rewrite (b64decode_full _ _ _ _ _ _ _ _ _ E0 E1 E2 E3 P2 P3).
    rewrite IH, Rx, Ry, Rz.
    subst x y z. rewrite !byte_of_to_N. reflexivity.
Qed.

(** The text of [b"fake-png-bytes"], as the repository's tests expect it. *)
Example b64encode_fake_png :
  b64encode [x66; x61; x6b; x65; x2d; x70; x6e; x67; x2d; x62; x79; x74; x65; x73]
  = "ZmFrZS1wbmctYnl0ZXM="%string.
Proof. reflexivity. Qed.

Example b64encode_rfc4648 :
  b64encode [x66] = "Zg=="%string /\
  b64encode [x66; x6f] = "Zm8="%string /\
  b64encode [x66; x6f; x6f] = "Zm9v"%string /\
  b64encode [xfb; xff] = "+/8="%string.
Proof. repeat split. Qed.

End Base64Props.

(** * Properties of the base64 text and the refresh token *)

Module SecretsExtras.

Import Base64 Secrets Examples ExtraSpecs.

(** A check that holds of the 256 characters holds of every character. *)
Lemma ascii_forallb (b : ascii -> bool) :
  forallb b (map ascii_of_nat (seq 0 256)) = true -> forall c, b c = true.
Proof.
  intros H c. rewrite forallb_forall in H. apply H.
  apply in_map_iff. exists (nat_of_ascii c). split.
  - apply ascii_nat_embedding.
  - apply in_seq. pose proof (nat_ascii_bounded c). lia.
Qed.

(** Characters of the alphabet: none is the padding, and the URL-safe
    replacement is URL-safe and undone by [standard_char]. *)
Lemma alphabet_char (c : ascii) :
  in_alphabet c = true ->
  Ascii.eqb c pad = false /\
  is_urlsafe (urlsafe_char c) = true /\
  Ascii.eqb (urlsafe_char c) pad = false /\
  standard_char (urlsafe_char c) = c.
Proof.
  intros Hc.
  pose proof (ascii_forallb
                (fun c => if in_alphabet c
                          then negb (Ascii.eqb c pad) && is_urlsafe (urlsafe_char c)
                               && negb (Ascii.eqb (urlsafe_char c) pad)
                               && Ascii.eqb (standard_char (urlsafe_char c)) c
                          else true)%bool
                ltac:(vm_compute; reflexivity) c) as H.
  cbv beta in H. rewrite Hc in H.
  apply andb_prop in H. destruct H as [H H4].
  apply andb_prop in H. destruct H as [H H3].
  apply andb_prop in H. destruct H as [H1 H2].
  apply negb_true_iff in H1. apply negb_true_iff in H3. apply Ascii.eqb_eq in H4.
  repeat split; assumption.
Qed.

Lemma char_of_sextet_alphabet (n : N) : (n < 64)%N -> in_alphabet (char_of_sextet n) = true.
Proof.
  intros Hn. unfold in_alphabet.
  destruct (Base64Props.sextet_of_char_of_sextet n Hn) as [-> _]. reflexivity.
Qed.

(** The characters of base64 text: alphabet or padding, and alphabet only
    when the bytes come in whole groups of three. *)
Lemma b64encode_chars (data : list byte) :
  Forall (fun c => in_alphabet c = true \/ c = pad) (chars (b64encode data)).
Proof.
  induction data as [|a|a b|a b c rest IH] using Base64Props.list_ind3;
    cbn [b64encode chars list_ascii_of_string].
  - constructor.
  - pose proof (Base64Props.to_N_lt a).
    apply Forall_cons; split; [left; apply char_of_sextet_alphabet; Base64Props.div_lia|].
    apply Forall_cons; split; [left; apply char_of_sextet_alphabet; Base64Props.div_lia|].
    apply Forall_cons; split; [right; reflexivity|].
    apply Forall_cons; split; [right; reflexivity|]. constructor.
  - pose proof (Base64Props.to_N_lt a). pose proof (Base64Props.to_N_lt b).
    apply Forall_cons; split; [left; apply char_of_sextet_alphabet; Base64Props.div_lia|].
    apply Forall_cons; split; [left; apply char_of_sextet_alphabet; Base64Props.div_lia|].
    apply Forall_cons; split; [left; apply char_of_sextet_alphabet; Base64Props.div_lia|].
    apply Forall_cons; split; [right; reflexivity|]. constructor.
  - pose proof (Base64Props.to_N_lt a). pose proof (Base64Props.to_N_lt b).
    pose proof (Base64Props.to_N_lt c).
    repeat (apply Forall_cons; split;
            [left; apply char_of_sextet_alphabet; Base64Props.div_lia|]).
    exact IH.
Qed.

Lemma b64encode_whole_groups (n : nat) (data : list byte) :
  length data = (3 * n)%nat ->
  Forall (fun c => in_alphabet c = true) (chars (b64encode data)).
Proof.
  revert data. induction n as [|n IH]; intros data Hlen.
  - destruct data; [constructor | discriminate].
  - destruct data as [|a [|b [|c rest]]]; cbn [length] in Hlen; try lia.
    cbn [b64encode chars list_ascii_of_string].
    pose proof (Base64Props.to_N_lt a). pose proof (Base64Props.to_N_lt b).
    pose proof (Base64Props.to_N_lt c).
    repeat (apply Forall_cons; split;
            [apply char_of_sextet_alphabet; Base64Props.div_lia|]).
    apply IH. lia.
Qed.

Lemma b64encode_length (data : list byte) :
  String.length (b64encode data) = (4 * ((length data + 2) / 3))%nat.
Proof.
  induction data as [|a|a b|a b c rest IH] using Base64Props.list_ind3;
    try reflexivity.
  cbn [b64encode String.length length]. rewrite IH.
  replace (S (S (S (length rest))) + 2)%nat with (length rest + 2 + 1 * 3)%nat by lia.
  rewrite Nat.div_add by lia. lia.
Qed.

Lemma b64encode_inj (a b : list byte) : b64encode a = b64encode b -> a = b.
Proof.
  intros H. apply (f_equal b64decode) in H.
  rewrite !Base64Props.b64decode_b64encode in H. injection H as H. exact H.
Qed.

(** X18. The base64 text of [n] bytes has [4 * ceil(n / 3)] characters,
    each of the standard alphabet or the padding [=], and two byte strings
    with the same text are equal. *)
Theorem b64encode_shape (data : list byte) :
  String.length (b64encode data) = (4 * ((length data + 2) / 3))%nat /\
  Forall (fun c => in_alphabet c = true \/ c = pad) (chars (b64encode data)) /\
  forall data', b64encode data = b64encode data' -> data = data'.
Proof.
  split; [apply b64encode_length|]. split; [apply b64encode_chars|].
  intros data'. apply b64encode_inj.
Qed.

(** *** The refresh token *)

Lemma string_map_chars (f : ascii -> ascii) (s : string) :
  chars (string_map f s) = map f (chars s).
Proof. induction s as [|c s IH]; [reflexivity|]. cbn. f_equal. exact IH. Qed.

Lemma string_length_chars (s : string) : String.length s = length (chars s).
Proof. induction s as [|c s IH]; [reflexivity|]. cbn. f_equal. exact IH. Qed.

Lemma chars_inj (s s' : string) : chars s = chars s' -> s = s'.
Proof.
  intros H. apply (f_equal string_of_list_ascii) in H. unfold chars in H.
  rewrite !string_of_list_ascii_of_string in H. exact H.
Qed.

(** Nothing is stripped from a text without padding. *)
Lemma rstrip_pad_id (s : string) :
  Forall (fun c => Ascii.eqb c pad = false) (chars s) -> rstrip_pad s = s.
Proof.
  induction s as [|c s IH]; [reflexivity|].
  cbn [chars list_ascii_of_string]. intros H. apply Forall_cons in H. destruct H as [Hc Hs].
  cbn [rstrip_pad]. rewrite (IH Hs), Hc. destruct s; reflexivity.
Qed.

(** The URL-safe text of whole groups of three bytes. *)
Lemma urlsafe_whole_groups (n : nat) (data : list byte) :
  length data = (3 * n)%nat ->
  rstrip_pad (urlsafe_b64encode data) = urlsafe_b64encode data /\
  Forall (fun c => is_urlsafe c = true) (chars (urlsafe_b64encode data)) /\
  string_map standard_char (urlsafe_b64encode data) = b64encode data.
Proof.
  intros Hlen. pose proof (b64encode_whole_groups n data Hlen) as Halpha.
  unfold urlsafe_b64encode. split; [|split].
  - apply rstrip_pad_id. rewrite string_map_chars. apply Forall_map.
    eapply Forall_impl; [exact Halpha|]. intros c Hc. apply (alphabet_char c Hc).
  - rewrite string_map_chars. apply Forall_map.
    eapply Forall_impl; [exact Halpha|]. intros c Hc. apply (alphabet_char c Hc).
  - apply chars_inj. rewrite !string_map_chars, map_map.
    induction Halpha as [|c l Hc _ IH]; [reflexivity|].
    cbn [map]. f_equal; [apply (alphabet_char c Hc) | exact IH].
Qed.

(** X19. When the random source hands over the 48 bytes it is asked for,
    [generate_refresh_token] returns 64 characters, all of them letters,
    digits, [-] or [_] (no padding is left to strip), and the token
    determines the random bytes: two draws that differ give different
    tokens. *)
Theorem refresh_token_shape (token_bytes : nat -> list byte) :
  length (token_bytes 48%nat) = 48%nat ->
  String.length (generate_refresh_token token_bytes) = 64%nat /\
  Forall (fun c => is_urlsafe c = true) (chars (generate_refresh_token token_bytes)) /\
  forall token_bytes',
    length (token_bytes' 48%nat) = 48%nat ->
    generate_refresh_token token_bytes = generate_refresh_token token_bytes' ->
    token_bytes 48%nat = token_bytes' 48%nat.
Proof.
  intros Hlen. unfold generate_refresh_token, token_urlsafe.
  destruct (urlsafe_whole_groups 16 (token_bytes 48%nat) Hlen) as (Hstrip & Hsafe & Hstd).
  rewrite Hstrip. split; [|split].
  - unfold urlsafe_b64encode.
    rewrite string_length_chars, string_map_chars, length_map, <- string_length_chars.
    rewrite b64encode_length, Hlen. reflexivity.
  - exact Hsafe.
  - intros token_bytes' Hlen' Heq.
    destruct (urlsafe_whole_groups 16 (token_bytes' 48%nat) Hlen') as (Hstrip' & _ & Hstd').
    rewrite Hstrip' in Heq. apply b64encode_inj. rewrite <- Hstd, <- Hstd', Heq. reflexivity.
Qed.

Lemma refresh_token_shape_witness :
  String.length (generate_refresh_token (fun n => repeat xfb n)) = 64%nat /\
  Forall (fun c => is_urlsafe c = true)
    (chars (generate_refresh_token (fun n => repeat xfb n))) /\
  forall token_bytes',
    length (token_bytes' 48%nat) = 48%nat ->
    generate_refresh_token (fun n => repeat xfb n) = generate_refresh_token token_bytes' ->
    repeat xfb 48 = token_bytes' 48%nat.
Proof.
  apply (refresh_token_shape (fun n => repeat xfb n)). reflexivity.
Defined.

Example token_urlsafe_strips_padding :
  token_urlsafe (fun n => repeat xfb n) 2 = "-_s" /\
  token_urlsafe (fun n => repeat xff n) 4 = "_____w".
Proof. split; reflexivity. Qed.

End SecretsExtras.

(** * Properties of the image route *)

Module ImageProps.

Import Tokens Image Examples.

#[local] Arguments Base64.b64encode : simpl never.

Lemma emitted_app (t1 t2 : list effect) :
  emitted (t1 ++ t2) = emitted t1 ++ emitted t2.
Proof.
  induction t1 as [|f t1 IH]; [reflexivity|].
  destruct f; simpl; rewrite IH; reflexivity.
Qed.

(** [_iter_parts] extracts the parts as the specification says. *)
Lemma iter_parts_spec (chunk : Chunk) : _iter_parts chunk = spec_parts chunk.
Proof.
  unfold _iter_parts, spec_parts.
  destruct (parts chunk) as [[|p ps]|]; try reflexivity;
    destruct (candidates chunk) as [[|[[[[[|q qs]|]]|]] cs]|]; reflexivity.
Qed.

(** *** The streaming generator *)

Lemma stream_part_events (part : Part) :
  exists t, stream_part part = (t, Ok tt) /\ no_terminal t.
Proof.
  unfold stream_part, no_terminal. destruct part as [tx th i]. simpl.
  destruct (is_text tx); destruct (truthy th);
    destruct i as [[d m]|]; simpl;
    try (destruct d as [|[]|[]|[]|[]|[]]; simpl);
    eexists; (split; [reflexivity|]); simpl; repeat constructor.
Qed.

Lemma for_parts_events (ps : list Part) :
  exists t, for_parts ps = (t, Ok tt) /\ no_terminal t.
Proof.
  induction ps as [|part rest (t' & E' & N')].
  - exists []. split; [reflexivity | constructor].
  - destruct (stream_part_events part) as (t & E & N).
    exists (t ++ t'). cbn [for_parts]. rewrite E. unfold io_bind. rewrite E'.
    split; [reflexivity|]. unfold no_terminal in *. rewrite emitted_app.
    apply Forall_app. split; assumption.
Qed.

Lemma for_chunks_events (stream_ref : list stream_item) :
  exists t,
    for_chunks stream_ref =
      (t, match first_failure stream_ref with None => Ok tt | Some e => Raise e end) /\
    no_terminal t.
Proof.
  induction stream_ref as [|[chunk|e] rest (t' & E' & N')].
  - exists []. split; [reflexivity | constructor].
  - destruct (for_parts_events (_iter_parts chunk)) as (t & E & N).
    exists (t ++ t'). cbn [for_chunks first_failure]. rewrite E. unfold io_bind. rewrite E'.
    split; [reflexivity|]. unfold no_terminal in *. rewrite emitted_app.
    apply Forall_app. split; assumption.
  - exists []. split; [reflexivity | constructor].
Qed.

(** The whole run of [event_stream]: the events of the chunks, one
    terminal event, then the release of the client. *)
Lemma event_stream_run (client_ref : result exn unit) (stream_ref : list stream_item) :
  exists t,
    no_terminal t /\
    event_stream client_ref stream_ref =
      (t ++ [Emit match first_failure stream_ref with
                  | None => [("type", "done")]
                  | Some e => [("type", "error"); ("message", exn_str e)]
                  end; Release],
       Ok tt).
Proof.
  destruct (for_chunks_events stream_ref) as (t & E & N).
  exists t. split; [assumption|].
  unfold event_stream. rewrite E.
  destruct (first_failure stream_ref) as [e|]; destruct client_ref as [[]|e'];
    simpl; rewrite <- ?app_assoc; reflexivity.
Qed.

(** C1. For every finite upstream sequence and whatever [client.close()]
    does, the generator returns without raising, and the events it emitted
    are a run of non-terminal events followed by exactly one terminal event:
    [done] when the iterator never raised, and otherwise [error] with the
    message of the exception, in place of [done]. The chunks
    [thought-only, text-only, image-only] give [thought, text, image, done];
    a thought chunk followed by an exception gives [thought, error]. *)
Theorem event_stream_one_terminal (client_ref : result exn unit)
    (stream_ref : list stream_item) :
  (exists body last,
      snd (event_stream client_ref stream_ref) = Ok tt /\
      emitted (fst (event_stream client_ref stream_ref)) = body ++ [last] /\
      Forall (fun p => is_terminal p = false) body /\
      is_terminal last = true /\
      last = match first_failure stream_ref with
             | None => [("type", "done")]
             | Some e => [("type", "error"); ("message", exn_str e)]
             end) /\
  emitted (fst (event_stream client_ref fake_stream)) =
    [ [("type", "thought"); ("content", "thinking")];
      [("type", "text"); ("content", "caption")];
      [("type", "image"); ("mimeType", "image/png"); ("base64", "ZmFrZS1wbmctYnl0ZXM=")];
      [("type", "done")] ] /\
  emitted (fst (event_stream client_ref failing_stream)) =
    [ [("type", "thought"); ("content", "thinking")];
      [("type", "error"); ("message", "upstream reset")] ].
Proof.
  split; [|split].
  - destruct (event_stream_run client_ref stream_ref) as (t & N & E).
    rewrite E. cbn [fst snd].
    exists (emitted t). eexists. split; [reflexivity|].
    split; [rewrite emitted_app; reflexivity|].
    split; [exact N|].
    split; [|reflexivity].
    destruct (first_failure stream_ref); reflexivity.
  - destruct client_ref as [[]|e]; reflexivity.
  - destruct client_ref as [[]|e]; reflexivity.
Qed.

(** *** The non-streaming path *)

Lemma all_texts_cons (part : Part) (ps : list Part) :
  all_texts (part :: ps) = option_list (part_text part) ++ all_texts ps.
Proof. unfold all_texts. simpl. destruct (part_text part); reflexivity. Qed.

Lemma all_thoughts_cons (part : Part) (ps : list Part) :
  all_thoughts (part :: ps) = option_list (part_thought part) ++ all_thoughts ps.
Proof. unfold all_thoughts. simpl. destruct (part_thought part); reflexivity. Qed.

Lemma all_texts_app (ps qs : list Part) : all_texts (ps ++ qs) = all_texts ps ++ all_texts qs.
Proof. apply omap_app. Qed.

Lemma all_thoughts_app (ps qs : list Part) :
  all_thoughts (ps ++ qs) = all_thoughts ps ++ all_thoughts qs.
Proof. apply omap_app. Qed.

(** One turn of the loop on a part without a binary payload. *)
Lemma collect_parts_skip (part : Part) (rest : list Part) (tx th : list string) (m : string) :
  binary_payload part = None ->
  collect_parts (part :: rest) tx th m =
  collect_parts rest (tx ++ option_list (part_text part))
                     (th ++ option_list (part_thought part)) m.
Proof.
  destruct part as [t tho i]. unfold binary_payload, part_text, part_thought.
  cbn [collect_parts text thought inline_data].
  destruct i as [[d mt]|]; cbn [inline_attr data mime_type];
    [destruct d as [|[]|[]|[]|[]|[]]|]; try discriminate; intros _;
    destruct t as [|?|?|[|? ?]|?|?]; cbn [is_text str_of truthy negb String.eqb];
    try destruct (truthy tho); cbn [option_list negb];
    rewrite ?app_nil_r; reflexivity.
Qed.

(** The turn of the loop that finds the payload and breaks. *)
Lemma collect_parts_hit (part : Part) (rest : list Part) (tx th : list string)
    (bytes : list byte) :
  binary_payload part = Some bytes ->
  collect_parts (part :: rest) tx th "image/png" =
  (tx ++ option_list (part_text part), th ++ option_list (part_thought part),
   Some bytes, resolved_mime part).
Proof.
  destruct part as [t tho i]. unfold binary_payload, part_text, part_thought, resolved_mime.
  cbn [collect_parts text thought inline_data].
  destruct i as [[d mt]|]; cbn [inline_attr data mime_type];
    [destruct d as [|[]|[]|[]|[]|[]]|]; try discriminate; intros [= <-];
    destruct t as [|?|?|[|? ?]|?|?]; cbn [is_text str_of truthy negb String.eqb];
    try destruct (truthy tho); cbn [option_list negb];
    rewrite ?app_nil_r;
    destruct mt as [|?|?|?|?|?]; cbn [is_image_mime str_of];
    try destruct (String.prefix "image/" _); reflexivity.
Qed.

Lemma collect_parts_none (ps : list Part) (tx th : list string) (m : string) :
  Forall (fun p => binary_payload p = None) ps ->
  collect_parts ps tx th m = (tx ++ all_texts ps, th ++ all_thoughts ps, None, m).
Proof.
  intros H. revert tx th. induction H as [|part rest Hp _ IH]; intros tx th.
  - cbn [collect_parts]. unfold all_texts, all_thoughts. simpl. rewrite !app_nil_r.
    reflexivity.
  - rewrite (collect_parts_skip _ _ _ _ _ Hp), IH, all_texts_cons, all_thoughts_cons.
    rewrite <- !app_assoc. reflexivity.
Qed.

Lemma collect_parts_first (pre : list Part) (part : Part) (post : list Part)
    (tx th : list string) (bytes : list byte) :
  Forall (fun p => binary_payload p = None) pre ->
  binary_payload part = Some bytes ->
  collect_parts (pre ++ part :: post) tx th "image/png" =
  (tx ++ all_texts (pre ++ [part]), th ++ all_thoughts (pre ++ [part]),
   Some bytes, resolved_mime part).
Proof.
  intros H Hpart. revert tx th. induction H as [|p rest Hp _ IH]; intros tx th.
  - cbn [app]. rewrite (collect_parts_hit _ _ _ _ _ Hpart).
    rewrite all_texts_cons, all_thoughts_cons.
    unfold all_texts, all_thoughts. simpl. rewrite !app_nil_r. reflexivity.
  - cbn [app]. rewrite (collect_parts_skip _ _ _ _ _ Hp), IH.
    rewrite (all_texts_cons p), (all_thoughts_cons p), <- !app_assoc. reflexivity.
Qed.

Lemma binary_payload_nonempty (part : Part) (bytes : list byte) :
  binary_payload part = Some bytes -> exists b bs, bytes = b :: bs.
Proof.
  unfold binary_payload. destruct (inline_data part) as [[d m]|]; [|discriminate].
  cbn [data]. destruct d as [| | | |[|b bs]|[|b bs]]; try discriminate;
    intros [= <-]; eauto.
Qed.

(** Every list of parts either has no payload or splits at its first. *)
Lemma first_payload_split (ps : list Part) :
  Forall (fun p => binary_payload p = None) ps \/
  exists pre part post bytes,
    ps = pre ++ part :: post /\
    Forall (fun p => binary_payload p = None) pre /\
    binary_payload part = Some bytes.
Proof.
  induction ps as [|p ps [IH|(pre & part & post & bytes & -> & Hpre & Hpart)]].
  - left. constructor.
  - destruct (binary_payload p) as [bytes|] eqn:Hp.
    + right. exists [], p, ps, bytes. repeat split; [constructor | assumption].
    + left. constructor; assumption.
  - destruct (binary_payload p) as [bytes'|] eqn:Hp.
    + right. exists [], p, (pre ++ part :: post), bytes'.
      repeat split; [constructor | assumption].
    + right. exists (p :: pre), part, post, bytes.
      repeat split; [constructor; assumption | assumption].
Qed.

(** What [respond] returns, by the position of the first payload. *)
Lemma respond_no_payload (resp : Chunk) :
  Forall (fun p => binary_payload p = None) (default [] (parts resp)) ->
  respond resp = Raise {| status_code := 502;
                          detail := "Image generation returned no image parts" |}.
Proof.
  intros H. unfold respond. rewrite (collect_parts_none _ _ _ _ H). reflexivity.
Qed.

Lemma respond_first_payload (resp : Chunk) (pre : list Part) (part : Part)
    (post : list Part) (bytes : list byte) :
  default [] (parts resp) = pre ++ part :: post ->
  Forall (fun p => binary_payload p = None) pre ->
  binary_payload part = Some bytes ->
  respond resp = Ok {| mimeType := resolved_mime part;
                       base64 := Base64.b64encode bytes;
                       texts := all_texts (pre ++ [part]);
                       thoughts := all_thoughts (pre ++ [part]) |}.
Proof.
  intros Hs Hpre Hpart. unfold respond. rewrite Hs.
  rewrite (collect_parts_first _ _ _ _ _ _ Hpre Hpart).
  destruct (binary_payload_nonempty _ _ Hpart) as (b & bs & ->). reflexivity.
Qed.

(** The handler on the non-streaming path, once the upstream has answered. *)
Lemma generate_image_answered (request : GenerateImageRequest) (config : GatewayConfig)
    (w : World) (resp : Chunk) :
  upstream_answers request config w resp ->
  generate_image request config w =
  ([Acquire],
   match respond resp with
   | Ok body => Ok (JsonResponse body)
   | Raise e => Raise e
   end).
Proof.
  intros (uid & key & H1 & H2 & H3 & H4 & H5 & H6 & H7 & H8).
  unfold generate_image. rewrite H1. cbn [io_lift io_bind]. rewrite H2. cbn [app].
  rewrite H3. cbn [negb]. rewrite H4. cbn [app]. rewrite H5, H6. cbn [try_except io_bind io_tell io_lift app].
  rewrite H7, H8. cbn [try_except io_bind io_lift app].
  destruct (respond resp); reflexivity.
Qed.

Lemma fake_world_answers (resp : Chunk) (items : list stream_item) :
  upstream_answers (fake_request false) example_config (fake_world resp items) resp.
Proof. exists "user-1", "test-api-key". repeat split. Qed.

(** C3. [_iter_parts], which the streaming path applies to every chunk,
    extracts the parts as the specification says. The non-streaming path
    reads the direct [parts] only: a response whose single image part sits
    in the content of its first candidate is answered with 502 "no image
    parts", while the same object streamed as a chunk yields its image. *)
Theorem nonstreaming_ignores_candidates :
  (forall chunk, _iter_parts chunk = spec_parts chunk) /\
  spec_parts (nested_chunk [fake_image_part]) = [fake_image_part] /\
  _iter_parts (nested_chunk [fake_image_part]) = [fake_image_part] /\
  generate_image (fake_request false) example_config
      (fake_world (nested_chunk [fake_image_part]) [])
    = ([Acquire],
       Raise {| status_code := 502; detail := "Image generation returned no image parts" |}) /\
  emitted (request_effects
             (generate_image (fake_request true) example_config
                (fake_world (nested_chunk []) [Next (nested_chunk [fake_image_part])])))
    = [ [("type", "image"); ("mimeType", "image/png"); ("base64", "ZmFrZS1wbmctYnl0ZXM=")];
        [("type", "done")] ].
Proof. split; [exact iter_parts_spec | repeat split]. Qed.

(** C4. The non-streaming path stops reading at the first binary payload:
    when the upstream has answered and [part] is the first direct part with
    a payload, the result is a success whose [texts] and [thoughts] hold
    the textual and the thought parts up to and including [part] only, so
    the lists of the entire response are those of the result followed by
    those of the parts after [part], which are lost. With the image part
    first and a text part after it the result has no text, although the
    response has the text "caption", while the same object streamed as a
    chunk yields the image and then the text. *)
Theorem nonstreaming_drops_parts_after_image :
  (forall (request : GenerateImageRequest) (config : GatewayConfig) (w : World)
          (resp : Chunk) (pre : list Part) (part : Part) (post : list Part)
          (bytes : list byte),
      upstream_answers request config w resp ->
      default [] (parts resp) = pre ++ part :: post ->
      Forall (fun p => binary_payload p = None) pre ->
      binary_payload part = Some bytes ->
      exists body,
        generate_image request config w = ([Acquire], Ok (JsonResponse body)) /\
        texts body = all_texts (pre ++ [part]) /\
        thoughts body = all_thoughts (pre ++ [part]) /\
        all_texts (default [] (parts resp)) = texts body ++ all_texts post /\
        all_thoughts (default [] (parts resp)) = thoughts body ++ all_thoughts post) /\
  all_texts [fake_image_part; fake_text_part] = ["caption"] /\
  generate_image (fake_request false) example_config
      (fake_world (fake_chunk [fake_image_part; fake_text_part]) [])
    = ([Acquire],
       Ok (JsonResponse {| mimeType := "image/png"; base64 := "ZmFrZS1wbmctYnl0ZXM=";
                           texts := []; thoughts := [] |})) /\
  emitted (request_effects
             (generate_image (fake_request true) example_config
                (fake_world (fake_chunk [])
                   [Next (fake_chunk [fake_image_part; fake_text_part])])))
    = [ [("type", "image"); ("mimeType", "image/png"); ("base64", "ZmFrZS1wbmctYnl0ZXM=")];
        [("type", "text"); ("content", "caption")];
        [("type", "done")] ].
Proof.
  split; [|repeat split].
  intros request config w resp pre part post bytes Hw Hs Hpre Hpart.
  rewrite (generate_image_answered _ _ _ _ Hw).
  rewrite (respond_first_payload _ _ _ _ _ Hs Hpre Hpart).
  eexists. split; [reflexivity|]. cbn [texts thoughts].
  split; [reflexivity|]. split; [reflexivity|].
  rewrite Hs. replace (pre ++ part :: post) with ((pre ++ [part]) ++ post)
    by (rewrite <- app_assoc; reflexivity).
  rewrite all_texts_app, all_thoughts_app. split; reflexivity.
Qed.

(** C5. When the upstream has answered a non-streaming request: if no
    part of the response carries a binary payload, whether the parts are
    read as the code reads them or as the specification extracts them, the
    request fails with 502 "Image generation returned no image parts"; if a
    direct part carries one, the request succeeds, and decoding the [base64]
    field of the body gives back exactly the bytes of the first payload;
    and every success is of that kind. *)
Theorem image_or_explicit_failure (request : GenerateImageRequest) (config : GatewayConfig)
    (w : World) (resp : Chunk) :
  upstream_answers request config w resp ->
  (Forall (fun p => binary_payload p = None) (default [] (parts resp)) ->
   generate_image request config w =
   ([Acquire],
    Raise {| status_code := 502; detail := "Image generation returned no image parts" |})) /\
  (Forall (fun p => binary_payload p = None) (spec_parts resp) ->
   generate_image request config w =
   ([Acquire],
    Raise {| status_code := 502; detail := "Image generation returned no image parts" |})) /\
  (forall pre part post bytes,
      default [] (parts resp) = pre ++ part :: post ->
      Forall (fun p => binary_payload p = None) pre ->
      binary_payload part = Some bytes ->
      exists body,
        generate_image request config w = ([Acquire], Ok (JsonResponse body)) /\
        Base64.b64decode (base64 body) = Some bytes) /\
  (forall t r,
      generate_image request config w = (t, Ok r) ->
      exists body part bytes,
        r = JsonResponse body /\
        part ∈ default [] (parts resp) /\
        binary_payload part = Some bytes /\
        Base64.b64decode (base64 body) = Some bytes).
Proof.
  intros Hw. rewrite (generate_image_answered _ _ _ _ Hw).
  assert (Hnone : Forall (fun p => binary_payload p = None) (default [] (parts resp)) ->
                  ([Acquire],
                   match respond resp with
                   | Ok body => Ok (JsonResponse body)
                   | Raise e => Raise e
                   end) =
                  ([Acquire] : list effect,
                   Raise {| status_code := 502;
                            detail := "Image generation returned no image parts" |}
                   : result HTTPException Response)).
  { intros H. rewrite (respond_no_payload _ H). reflexivity. }
  split; [exact Hnone|]. split; [|split].
  - intros H. apply Hnone. unfold spec_parts in H.
    destruct (parts resp) as [[|p ps]|]; [constructor | exact H | constructor].
  - intros pre part post bytes Hs Hpre Hpart.
    rewrite (respond_first_payload _ _ _ _ _ Hs Hpre Hpart).
    eexists. split; [reflexivity|]. apply Base64Props.b64decode_b64encode.
  - intros t r Hr.
    destruct (first_payload_split (default [] (parts resp)))
      as [H|(pre & part & post & bytes & Hs & Hpre & Hpart)].
    + rewrite (respond_no_payload _ H) in Hr. discriminate.
    + rewrite (respond_first_payload _ _ _ _ _ Hs Hpre Hpart) in Hr.
      injection Hr as _ <-. eexists. exists part, bytes.
      split; [reflexivity|]. split; [|split].
      * rewrite Hs. apply elem_of_app. right. apply list_elem_of_here.
      * exact Hpart.
      * apply Base64Props.b64decode_b64encode.
Qed.

(** The response of the repository's test decodes to its bytes, and a
    response with text only is refused. *)
Lemma image_or_explicit_failure_witness :
  (exists body,
      generate_image (fake_request false) example_config
          (fake_world (fake_chunk [fake_thought_part; fake_part]) [])
        = ([Acquire], Ok (JsonResponse body)) /\
      Base64.b64decode (base64 body) = Some fake_png_bytes) /\
  generate_image (fake_request false) example_config
      (fake_world (fake_chunk [fake_thought_part; fake_text_part]) [])
    = ([Acquire],
       Raise {| status_code := 502; detail := "Image generation returned no image parts" |}).
Proof.
  split.
  - destruct (image_or_explicit_failure (fake_request false) example_config
                (fake_world (fake_chunk [fake_thought_part; fake_part]) [])
                (fake_chunk [fake_thought_part; fake_part])
                (fake_world_answers _ _)) as (_ & _ & Hsome & _).
    apply (Hsome [fake_thought_part] fake_part [] fake_png_bytes).
    + reflexivity.
    + repeat constructor.
    + reflexivity.
  - destruct (image_or_explicit_failure (fake_request false) example_config
                (fake_world (fake_chunk [fake_thought_part; fake_text_part]) [])
                (fake_chunk [fake_thought_part; fake_text_part])
                (fake_world_answers _ _)) as (Hnone & _).
    apply Hnone. repeat constructor.
Defined.

(** On the non-streaming path and on every failure of the handler the
    client, once acquired, is never released. *)
Lemma handler_never_releases (request : GenerateImageRequest) (config : GatewayConfig)
    (w : World) :
  fst (generate_image request config w) = [] \/
  fst (generate_image request config w) = [Acquire].
Proof.
  unfold generate_image.
  destruct (resolve_target_user w) as [uid|]; cbn [io_lift io_bind]; [|left; reflexivity].
  destruct (validate_user_credit w uid) as [[]|]; cbn [app]; [|left; reflexivity].
  destruct (genai_installed w); cbn [negb io_raise]; [|left; reflexivity].
  destruct (_get_gemini_api_key config) as [key|]; cbn [app]; [|left; reflexivity].
  destruct (Client w key) as [[]|]; cbn [try_except io_bind io_tell io_lift io_raise app];
    [|left; reflexivity].
  destruct (content_config w (request_args request)) as [[]|];
    cbn [try_except io_bind io_raise app]; [|right; reflexivity].
  destruct (stream request).
  - destruct (has_generate_content_stream w);
      [destruct (generate_content_stream w (request_args request))
      |destruct (generate_content_stream_kw w (request_args request))];
      right; reflexivity.
  - destruct (generate_content w (request_args request)) as [resp|];
      cbn [try_except io_bind io_lift io_raise app]; [|right; reflexivity].
    destruct (respond resp); right; reflexivity.
Qed.

(** C6. On every path of a generation request: when the handler returns
    the streaming generator, the client was acquired, and the run of the
    generator ends with the release of the client and returns without
    raising, whatever [close] does; on every other path, the non-streaming
    success included, the effects of the request are at most the
    acquisition of the client and no release follows it. So a successful
    non-streaming request acquires the client and never releases it, where
    its streaming sibling, on a failing upstream and a failing [close],
    ends with the release. *)
Theorem nonstreaming_leaves_client_open (request : GenerateImageRequest)
    (config : GatewayConfig) (w : World) :
  match generate_image request config w with
  | (t, Ok (StreamingResponse body)) =>
      stream request = true /\ t = [Acquire] /\
      last (fst body) = Some Release /\ snd body = Ok tt
  | (t, _) => request_effects (generate_image request config w) = t /\
              (t = [] \/ t = [Acquire])
  end /\
  request_effects
    (generate_image (fake_request false) example_config
       (fake_world (fake_chunk [fake_thought_part; fake_part]) []))
    = [Acquire] /\
  request_effects
    (generate_image (fake_request true) example_config
       (fake_world (fake_chunk []) failing_stream))
    = [Acquire;
       Emit [("type", "thought"); ("content", "thinking")];
       Emit [("type", "error"); ("message", "upstream reset")];
       Release] /\
  event_stream (Raise (Exception "close failed")) failing_stream
    = ([Emit [("type", "thought"); ("content", "thinking")];
        Emit [("type", "error"); ("message", "upstream reset")];
        Release],
       Ok tt).
Proof.
  split; [|repeat split].
  pose proof (handler_never_releases request config w) as Hh.
  destruct (generate_image request config w) as [t [[body|body]|e]] eqn:Hg;
    cbn [fst] in Hh; cbn [request_effects]; try (split; [reflexivity | exact Hh]).
  revert Hg. unfold generate_image.
  destruct (resolve_target_user w) as [uid|]; cbn [io_lift io_bind]; [|discriminate].
  destruct (validate_user_credit w uid) as [[]|]; cbn [app]; [|discriminate].
  destruct (genai_installed w); cbn [negb io_raise]; [|discriminate].
  destruct (_get_gemini_api_key config) as [key|]; cbn [app]; [|discriminate].
  destruct (Client w key) as [[]|]; cbn [try_except io_bind io_tell io_lift io_raise app];
    [|discriminate].
  destruct (content_config w (request_args request)) as [[]|];
    cbn [try_except io_bind io_raise app]; [|discriminate].
  destruct (stream request).
  - assert (Hrun : forall items,
               ([Acquire] : list effect,
                Ok (StreamingResponse (event_stream (close w) items))
                : result HTTPException Response) = (t, Ok (StreamingResponse body)) ->
               true = true /\ t = [Acquire] /\
               last (fst body) = Some Release /\ snd body = Ok tt).
    { intros items [= <- <-].
      destruct (event_stream_run (close w) items) as (t' & _ & E). rewrite E.
      cbn [fst snd]. repeat split.
      rewrite last_app. reflexivity. }
    destruct (has_generate_content_stream w);
      [destruct (generate_content_stream w (request_args request)) as [items|]
      |destruct (generate_content_stream_kw w (request_args request)) as [items|]];
      cbn [try_except io_bind io_lift io_raise io_ret app];
      try discriminate; apply Hrun.
  - destruct (generate_content w (request_args request)) as [resp|];
      cbn [try_except io_bind io_lift io_raise app]; [|discriminate].
    destruct (respond resp); discriminate.
Qed.

End ImageProps.

(** * Further properties of the image route *)

Module ImageExtras.

Import Tokens Image Examples ExtraSpecs.

#[local] Arguments Base64.b64encode : simpl never.

(** *** What the generator emits *)

Lemma stream_part_emitted (part : Part) :
  emitted (fst (stream_part part)) = part_events part.
Proof.
  unfold stream_part, part_events, part_thought, part_text, binary_payload, resolved_mime.
  destruct part as [tx th i]. cbn [text thought inline_data].
  destruct tx as [|?|?|[|? ?]|?|?]; cbn [is_text str_of negb String.eqb];
    destruct (truthy th);
    destruct i as [[d m]|]; cbn [inline_attr data mime_type];
    try (destruct d as [|[]|[]|[]|[]|[]]; cbn [truthy negb Z.eqb String.eqb]);
    try (destruct m as [|?|?|?|?|?]; cbn [is_image_mime str_of];
         try destruct (String.prefix "image/" _));
    reflexivity.
Qed.

Lemma io_bind_emitted {E A B} (m : io E A) (k : A -> io E B) (a : A) :
  snd m = Ok a ->
  emitted (fst (io_bind m k)) = emitted (fst m) ++ emitted (fst (k a)) /\
  snd (io_bind m k) = snd (k a).
Proof.
  destruct m as [t r]. cbn [snd fst]. intros ->. cbn [io_bind].
  destruct (k a) as [t' r']. cbn [fst snd]. split; [apply ImageProps.emitted_app | reflexivity].
Qed.

Lemma stream_part_returns (part : Part) : snd (stream_part part) = Ok tt.
Proof.
  destruct (ImageProps.stream_part_events part) as (t & E & _). rewrite E. reflexivity.
Qed.

Lemma for_parts_returns (ps : list Part) : snd (for_parts ps) = Ok tt.
Proof.
  destruct (ImageProps.for_parts_events ps) as (t & E & _). rewrite E. reflexivity.
Qed.

Lemma for_parts_emitted (ps : list Part) :
  emitted (fst (for_parts ps)) = flat_map part_events ps.
Proof.
  induction ps as [|part rest IH]; [reflexivity|].
  cbn [for_parts flat_map].
  destruct (io_bind_emitted (stream_part part) (fun _ => for_parts rest) tt
              (stream_part_returns part)) as [E _].
  rewrite E, stream_part_emitted, IH. reflexivity.
Qed.

Lemma for_chunks_emitted (stream_ref : list stream_item) :
  emitted (fst (for_chunks stream_ref)) =
  flat_map part_events (flat_map _iter_parts (chunks_before_failure stream_ref)).
Proof.
  induction stream_ref as [|[chunk|e] rest IH]; [reflexivity| |reflexivity].
  cbn [for_chunks chunks_before_failure flat_map].
  destruct (io_bind_emitted (for_parts (_iter_parts chunk)) (fun _ => for_chunks rest) tt
              (for_parts_returns _)) as [E _].
  rewrite E, for_parts_emitted, IH, flat_map_app. reflexivity.
Qed.

Lemma event_stream_emitted (client_ref : result exn unit) (stream_ref : list stream_item) :
  emitted (fst (event_stream client_ref stream_ref)) =
  flat_map part_events (flat_map _iter_parts (chunks_before_failure stream_ref))
    ++ [terminal_event stream_ref].
Proof.
  destruct (ImageProps.for_chunks_events stream_ref) as (t' & E' & _).
  pose proof (for_chunks_emitted stream_ref) as Hem. rewrite E' in Hem. cbn [fst] in Hem.
  unfold event_stream, terminal_event. rewrite E'.
  destruct (first_failure stream_ref); destruct client_ref as [[]|];
    cbn; rewrite ?ImageProps.emitted_app; cbn; rewrite ?app_nil_r, Hem; reflexivity.
Qed.

(** The handler on the streaming path, once the iterator is open. *)
Lemma generate_image_streams (request : GenerateImageRequest) (config : GatewayConfig)
    (w : World) (items : list stream_item) :
  upstream_streams request config w items ->
  generate_image request config w =
  ([Acquire], Ok (StreamingResponse (event_stream (close w) items))).
Proof.
  intros (uid & key & H1 & H2 & H3 & H4 & H5 & H6 & H7 & H8).
  unfold generate_image. rewrite H1. cbn [io_lift io_bind]. rewrite H2. cbn [app].
  rewrite H3. cbn [negb]. rewrite H4. cbn [app]. rewrite H5, H6.
  cbn [try_except io_bind io_tell io_lift app]. rewrite H7.
  destruct (has_generate_content_stream w); rewrite H8; reflexivity.
Qed.

Lemma fake_world_streams (resp : Chunk) (items : list stream_item) :
  upstream_streams (fake_request true) example_config (fake_world resp items) items.
Proof. exists "user-1", "test-api-key". repeat split. Qed.

(** X7. Once the streaming call has returned its iterator, the handler
    answers with a streaming response, and the events of the whole request
    are, for each chunk handed over before the iterator is exhausted or
    raises and for each part of the chunk in arrival order, the part's
    thought or text event followed by its image event, and then the one
    terminal event. Parts after an image are streamed like the others. *)
Theorem streamed_events_in_arrival_order (request : GenerateImageRequest)
    (config : GatewayConfig) (w : World) (items : list stream_item) :
  upstream_streams request config w items ->
  (exists body, generate_image request config w = ([Acquire], Ok (StreamingResponse body))) /\
  emitted (request_effects (generate_image request config w)) =
    flat_map part_events (flat_map _iter_parts (chunks_before_failure items))
      ++ [terminal_event items].
Proof.
  intros Hs. rewrite (generate_image_streams _ _ _ _ Hs). split; [eauto|].
  cbn [request_effects].
  destruct (event_stream (close w) items) as [t r] eqn:E. cbn [emitted].
  rewrite <- (event_stream_emitted (close w) items), E. reflexivity.
Qed.

Lemma streamed_events_in_arrival_order_witness :
  emitted (request_effects
             (generate_image (fake_request true) example_config
                (fake_world (fake_chunk [])
                   [Next (fake_chunk [jpeg_part; fake_text_part]);
                    Next (nested_chunk [octet_part; fake_thought_part])])))
  = [ [("type", "text"); ("content", "a cat")];
      [("type", "image"); ("mimeType", "image/jpeg"); ("base64", "/9j/")];
      [("type", "text"); ("content", "caption")];
      [("type", "image"); ("mimeType", "image/png"); ("base64", "AAE=")];
      [("type", "thought"); ("content", "thinking")];
      [("type", "done")] ].
Proof.
  apply (streamed_events_in_arrival_order (fake_request true) example_config
           (fake_world (fake_chunk [])
              [Next (fake_chunk [jpeg_part; fake_text_part]);
               Next (nested_chunk [octet_part; fake_thought_part])])
           [Next (fake_chunk [jpeg_part; fake_text_part]);
            Next (nested_chunk [octet_part; fake_thought_part])]).
  apply fake_world_streams.
Defined.

Lemma resolved_mime_image (part : Part) : String.prefix "image/" (resolved_mime part) = true.
Proof.
  unfold resolved_mime. destruct (inline_data part) as [[d m]|]; [|reflexivity].
  cbn [mime_type]. destruct m as [|?|?|s|?|?]; try reflexivity.
  destruct (String.prefix "image/" s) eqn:E; [exact E | reflexivity].
Qed.

Lemma part_events_image (part : Part) (p : payload) :
  p ∈ part_events part -> is_image p = true ->
  exists bytes,
    binary_payload part = Some bytes /\
    p = [("type", "image"); ("mimeType", resolved_mime part);
         ("base64", Base64.b64encode bytes)].
Proof.
  unfold part_events. intros Hin Himg. apply elem_of_app in Hin. destruct Hin as [Hin|Hin].
  - destruct (part_thought part); [|destruct (part_text part)];
      repeat (apply elem_of_cons in Hin; destruct Hin as [->|Hin]; [discriminate|]);
      apply elem_of_nil in Hin; destruct Hin.
  - destruct (binary_payload part) as [bytes|].
    + apply elem_of_cons in Hin. destruct Hin as [->|Hin]; [eauto|].
      apply elem_of_nil in Hin. destruct Hin.
    + apply elem_of_nil in Hin. destruct Hin.
Qed.

Lemma chunks_before_failure_elem (stream_ref : list stream_item) (chunk : Chunk) :
  chunk ∈ chunks_before_failure stream_ref -> Next chunk ∈ stream_ref.
Proof.
  induction stream_ref as [|[c|e] rest IH]; cbn [chunks_before_failure]; intros H.
  - apply elem_of_nil in H. destruct H.
  - apply elem_of_cons in H. destruct H as [->|H].
    + apply list_elem_of_here.
    + apply list_elem_of_further, IH, H.
  - apply elem_of_nil in H. destruct H.
Qed.

Lemma elem_of_flat_map {A B} (f : A -> list B) (l : list A) (y : B) :
  y ∈ flat_map f l <-> exists x, x ∈ l /\ y ∈ f x.
Proof.
  rewrite list_elem_of_In, in_flat_map. split; intros (x & H1 & H2); exists x;
    split; apply list_elem_of_In; assumption.
Qed.

(** X8. Every image event the generator emits comes from a part of a chunk
    of the stream that carries a non-empty binary payload: its [base64]
    field decodes to exactly that payload, and its [mimeType] starts with
    [image/], being the declared type when that starts with [image/] and
    [image/png] otherwise. *)
Theorem image_events_carry_payload (client_ref : result exn unit)
    (stream_ref : list stream_item) (p : payload) :
  p ∈ emitted (fst (event_stream client_ref stream_ref)) ->
  is_image p = true ->
  exists chunk part bytes mime b64,
    Next chunk ∈ stream_ref /\ part ∈ _iter_parts chunk /\
    binary_payload part = Some bytes /\ bytes <> [] /\
    p = [("type", "image"); ("mimeType", mime); ("base64", b64)] /\
    mime = resolved_mime part /\ String.prefix "image/" mime = true /\
    Base64.b64decode b64 = Some bytes.
Proof.
  intros Hin Himg. rewrite event_stream_emitted in Hin.
  apply elem_of_app in Hin. destruct Hin as [Hin|Hin].
  - apply elem_of_flat_map in Hin. destruct Hin as (part & Hpart & Hp).
    apply elem_of_flat_map in Hpart. destruct Hpart as (chunk & Hchunk & Hpart).
    destruct (part_events_image part p Hp Himg) as (bytes & Hb & ->).
    exists chunk, part, bytes. do 2 eexists.
    split; [apply chunks_before_failure_elem, Hchunk|].
    split; [exact Hpart|]. split; [exact Hb|].
    split; [destruct (ImageProps.binary_payload_nonempty _ _ Hb) as (b & bs & ->);
            discriminate|].
    split; [reflexivity|]. split; [reflexivity|].
    split; [apply resolved_mime_image | apply Base64Props.b64decode_b64encode].
  - apply elem_of_cons in Hin. destruct Hin as [->|Hin].
    + unfold terminal_event in Himg. destruct (first_failure stream_ref); discriminate.
    + apply elem_of_nil in Hin. destruct Hin.
Qed.

Lemma image_events_carry_payload_witness :
  exists chunk part bytes mime b64,
    Next chunk ∈ [Next (fake_chunk [octet_part]); Fails (Exception "reset")] /\
    part ∈ _iter_parts chunk /\
    binary_payload part = Some bytes /\ bytes <> [] /\
    [("type", "image"); ("mimeType", "image/png"); ("base64", "AAE=")]
      = [("type", "image"); ("mimeType", mime); ("base64", b64)] /\
    mime = resolved_mime part /\ String.prefix "image/" mime = true /\
    Base64.b64decode b64 = Some bytes.
Proof.
  apply (image_events_carry_payload (Ok tt)
           [Next (fake_chunk [octet_part]); Fails (Exception "reset")]
           [("type", "image"); ("mimeType", "image/png"); ("base64", "AAE=")]).
  - apply list_elem_of_here.
  - reflexivity.
Defined.

(** *** The two modes side by side *)

(** A JSON response comes from an answered non-streaming call. *)
Lemma generate_image_json_inv (request : GenerateImageRequest) (config : GatewayConfig)
    (w : World) (t : list effect) (body : GenerateImageResponse) :
  generate_image request config w = (t, Ok (JsonResponse body)) ->
  exists resp, upstream_answers request config w resp /\ respond resp = Ok body /\
               t = [Acquire].
Proof.
  unfold generate_image, upstream_answers.
  destruct (resolve_target_user w) as [uid|] eqn:H1; cbn [io_lift io_bind]; [|discriminate].
  destruct (validate_user_credit w uid) as [[]|] eqn:H2; cbn [app]; [|discriminate].
  destruct (genai_installed w) eqn:H3; cbn [negb io_raise]; [|discriminate].
  destruct (_get_gemini_api_key config) as [key|] eqn:H4; cbn [app]; [|discriminate].
  destruct (Client w key) as [[]|] eqn:H5;
    cbn [try_except io_bind io_tell io_lift io_raise app]; [|discriminate].
  destruct (content_config w (request_args request)) as [[]|] eqn:H6;
    cbn [try_except io_bind io_raise app]; [|discriminate].
  destruct (stream request) eqn:H7.
  - destruct (has_generate_content_stream w);
      [destruct (generate_content_stream w (request_args request))
      |destruct (generate_content_stream_kw w (request_args request))];
      cbn [try_except io_bind io_lift io_raise io_ret app]; discriminate.
  - destruct (generate_content w (request_args request)) as [resp|] eqn:H8;
      cbn [try_except io_bind io_lift io_raise app]; [|discriminate].
    destruct (respond resp) as [body'|] eqn:H9; cbn [io_ret app]; [|discriminate].
    intros [= <- <-]. exists resp.
    split; [exists uid, key; repeat split; assumption | split; [assumption | reflexivity]].
Qed.

(** A successful [respond] splits the direct parts at the first payload. *)
Lemma respond_ok_inv (resp : Chunk) (body : GenerateImageResponse) :
  respond resp = Ok body ->
  exists pre part post bytes,
    parts resp = Some (pre ++ part :: post) /\
    Forall (fun p => binary_payload p = None) pre /\
    binary_payload part = Some bytes /\
    body = {| mimeType := resolved_mime part;
              base64 := Base64.b64encode bytes;
              texts := all_texts (pre ++ [part]);
              thoughts := all_thoughts (pre ++ [part]) |}.
Proof.
  intros Hr.
  destruct (ImageProps.first_payload_split (default [] (parts resp)))
    as [H|(pre & part & post & bytes & Hs & Hpre & Hpart)].
  - rewrite (ImageProps.respond_no_payload _ H) in Hr. discriminate.
  - rewrite (ImageProps.respond_first_payload _ _ _ _ _ Hs Hpre Hpart) in Hr.
    injection Hr as <-. exists pre, part, post, bytes.
    split; [|repeat split; assumption].
    destruct (parts resp) as [l|]; cbn in Hs; [rewrite Hs; reflexivity|].
    destruct pre; discriminate.
Qed.

(** X9. Every synchronous response of [generate_image] is the answer to a
    non-streaming request, and the image it carries is one of the direct
    parts of the upstream response: its [base64] field is not empty and
    decodes to the payload of that part, and its [mimeType] is the
    declared type of that payload when that starts with [image/], and
    [image/png] otherwise. *)
Theorem sync_response_is_an_image (request : GenerateImageRequest) (config : GatewayConfig)
    (w : World) (t : list effect) (body : GenerateImageResponse) :
  generate_image request config w = (t, Ok (JsonResponse body)) ->
  stream request = false /\
  exists resp direct part bytes,
    generate_content w (request_args request) = Ok resp /\
    parts resp = Some direct /\ part ∈ direct /\
    binary_payload part = Some bytes /\ bytes <> [] /\
    base64 body <> "" /\
    Base64.b64decode (base64 body) = Some bytes /\
    mimeType body = resolved_mime part /\
    String.prefix "image/" (mimeType body) = true /\
    (forall i declared,
        inline_data part = Some i -> mime_type i = PyStr declared ->
        String.prefix "image/" declared = true -> mimeType body = declared).
Proof.
  intros Hg. destruct (generate_image_json_inv _ _ _ _ _ Hg) as (resp & Hw & Hr & _).
  destruct (respond_ok_inv _ _ Hr) as (pre & part & post & bytes & Hparts & _ & Hb & ->).
  cbn [mimeType base64].
  destruct Hw as (uid & key & _ & _ & _ & _ & _ & _ & Hstream & Hresp).
  split; [exact Hstream|].
  exists resp, (pre ++ part :: post), part, bytes.
  split; [exact Hresp|]. split; [exact Hparts|].
  split; [apply elem_of_app; right; apply list_elem_of_here|].
  split; [exact Hb|].
  destruct (ImageProps.binary_payload_nonempty _ _ Hb) as (b & bs & Hbytes).
  split; [rewrite Hbytes; discriminate|].
  split; [rewrite Hbytes; destruct bs as [|b' [|b'' bs']]; discriminate|].
  split; [apply Base64Props.b64decode_b64encode|].
  split; [reflexivity|]. split; [apply resolved_mime_image|].
  intros i declared Hi Hm Hp. unfold resolved_mime. rewrite Hi, Hm, Hp. reflexivity.
Qed.

Lemma sync_response_is_an_image_witness :
  stream (fake_request false) = false /\
  exists resp direct part bytes,
    generate_content (fake_world (fake_chunk [fake_thought_part; jpeg_part]) [])
        (request_args (fake_request false)) = Ok resp /\
    parts resp = Some direct /\ part ∈ direct /\
    binary_payload part = Some bytes /\ bytes <> [] /\
    "/9j/" <> "" /\
    Base64.b64decode "/9j/" = Some bytes /\
    "image/jpeg" = resolved_mime part /\
    String.prefix "image/" "image/jpeg" = true /\
    (forall i declared,
        inline_data part = Some i -> mime_type i = PyStr declared ->
        String.prefix "image/" declared = true -> "image/jpeg" = declared).
Proof.
  apply (sync_response_is_an_image (fake_request false) example_config
           (fake_world (fake_chunk [fake_thought_part; jpeg_part]) []) [Acquire]
           {| mimeType := "image/jpeg"; base64 := "/9j/";
              texts := ["a cat"]; thoughts := ["thinking"] |}).
  reflexivity.
Defined.

Lemma part_events_split (part : Part) :
  exists txt,
    Forall (fun p => is_image p = false) txt /\
    contents_of "text" txt = option_list (part_text part) /\
    contents_of "thought" txt = option_list (part_thought part) /\
    part_events part =
      txt ++ match binary_payload part with
             | Some bytes =>
                 [[("type", "image"); ("mimeType", resolved_mime part);
                   ("base64", Base64.b64encode bytes)]]
             | None => []
             end.
Proof.
  unfold part_events, part_thought, part_text.
  destruct (text part) as [|?|?|[|c s]|?|?]; try destruct (truthy (thought part));
    eexists; (split; [|split; [|split; [|reflexivity]]]);
    repeat constructor.
Qed.

Lemma contents_of_app (ty : string) (l1 l2 : list payload) :
  contents_of ty (l1 ++ l2) = contents_of ty l1 ++ contents_of ty l2.
Proof. apply omap_app. Qed.

Lemma contents_of_image (ty : string) (mime b64 : string) :
  contents_of ty [[("type", "image"); ("mimeType", mime); ("base64", b64)]] = [].
Proof.
  unfold contents_of, event_type. cbn.
  destruct (bool_decide (Some "image" = Some ty)); reflexivity.
Qed.

Lemma upto_first_image_app (l1 l2 : list payload) :
  Forall (fun p => is_image p = false) l1 ->
  upto_first_image (l1 ++ l2) = l1 ++ upto_first_image l2.
Proof.
  induction 1 as [|p l1 Hp _ IH]; [reflexivity|].
  cbn [app upto_first_image]. rewrite Hp, IH. reflexivity.
Qed.

(** The events of a run of parts without a payload, then of the part with
    the first one. *)
Lemma events_up_to_first_payload (pre : list Part) (part : Part) (bytes : list byte)
    (rest : list payload) :
  Forall (fun p => binary_payload p = None) pre ->
  binary_payload part = Some bytes ->
  exists txt,
    upto_first_image (flat_map part_events (pre ++ [part]) ++ rest) =
      txt ++ [[("type", "image"); ("mimeType", resolved_mime part);
               ("base64", Base64.b64encode bytes)]] /\
    contents_of "text" txt = all_texts (pre ++ [part]) /\
    contents_of "thought" txt = all_thoughts (pre ++ [part]).
Proof.
  intros Hpre Hpart. induction Hpre as [|p pre Hp _ (txt & E & Ht & Hth)].
  - cbn [app flat_map]. rewrite app_nil_r.
    destruct (part_events_split part) as (txt & Hno & Ht & Hth & E).
    rewrite Hpart in E. rewrite E, <- app_assoc, (upto_first_image_app _ _ Hno).
    exists txt. split; [reflexivity|].
    rewrite ImageProps.all_texts_cons, ImageProps.all_thoughts_cons, Ht, Hth.
    unfold all_texts, all_thoughts. cbn [omap]. rewrite !app_nil_r. split; reflexivity.
  - cbn [app flat_map].
    destruct (part_events_split p) as (txt0 & Hno & Ht0 & Hth0 & E0).
    rewrite Hp, app_nil_r in E0. rewrite E0, <- app_assoc, (upto_first_image_app _ _ Hno), E.
    exists (txt0 ++ txt). split; [rewrite app_assoc; reflexivity|].
    rewrite !contents_of_app, Ht, Hth, Ht0, Hth0.
    rewrite (ImageProps.all_texts_cons p), (ImageProps.all_thoughts_cons p).
    split; reflexivity.
Qed.

(** X10. The synchronous response agrees with the stream of the same
    response: when a non-streaming request succeeds with [body], streaming
    the response the upstream returned as a single chunk emits, up to and
    including its first image event, text events whose contents are
    [texts body], thought events whose contents are [thoughts body], and
    last the image event with the [mimeType] and [base64] of [body]. *)
Theorem sync_response_matches_stream (request : GenerateImageRequest)
    (config : GatewayConfig) (w : World) (t : list effect) (body : GenerateImageResponse)
    (resp : Chunk) (client_ref : result exn unit) :
  generate_image request config w = (t, Ok (JsonResponse body)) ->
  generate_content w (request_args request) = Ok resp ->
  contents_of "text"
    (upto_first_image (emitted (fst (event_stream client_ref [Next resp])))) = texts body /\
  contents_of "thought"
    (upto_first_image (emitted (fst (event_stream client_ref [Next resp])))) = thoughts body /\
  last (upto_first_image (emitted (fst (event_stream client_ref [Next resp])))) =
    Some [("type", "image"); ("mimeType", mimeType body); ("base64", base64 body)].
Proof.
  intros Hg Hresp. destruct (generate_image_json_inv _ _ _ _ _ Hg) as (resp' & Hw & Hr & _).
  assert (resp' = resp) as ->.
  { destruct Hw as (? & ? & _ & _ & _ & _ & _ & _ & _ & H). congruence. }
  destruct (respond_ok_inv _ _ Hr) as (pre & part & post & bytes & Hs & Hpre & Hb & ->).
  cbn [texts thoughts mimeType base64].
  rewrite event_stream_emitted. cbn [chunks_before_failure flat_map]. rewrite app_nil_r.
  assert (Hparts : _iter_parts resp = (pre ++ [part]) ++ post).
  { unfold _iter_parts. rewrite Hs, <- app_assoc.
    destruct pre; reflexivity. }
  rewrite Hparts, flat_map_app, <- app_assoc.
  destruct (events_up_to_first_payload pre part bytes
              (flat_map part_events post ++ [terminal_event [Next resp]]) Hpre Hb)
    as (txt & E & Ht & Hth).
  rewrite E, !contents_of_app, !contents_of_image, !app_nil_r, Ht, Hth, last_snoc.
  repeat split.
Qed.

Lemma sync_response_matches_stream_witness :
  contents_of "text"
    (upto_first_image
       (emitted (fst (event_stream (Ok tt)
          [Next (fake_chunk [fake_thought_part; jpeg_part; fake_text_part])])))) = ["a cat"] /\
  contents_of "thought"
    (upto_first_image
       (emitted (fst (event_stream (Ok tt)
          [Next (fake_chunk [fake_thought_part; jpeg_part; fake_text_part])])))) = ["thinking"] /\
  last (upto_first_image
          (emitted (fst (event_stream (Ok tt)
             [Next (fake_chunk [fake_thought_part; jpeg_part; fake_text_part])])))) =
    Some [("type", "image"); ("mimeType", "image/jpeg"); ("base64", "/9j/")].
Proof.
  apply (sync_response_matches_stream (fake_request false) example_config
           (fake_world (fake_chunk [fake_thought_part; jpeg_part; fake_text_part]) [])
           [Acquire]
           {| mimeType := "image/jpeg"; base64 := "/9j/";
              texts := ["a cat"]; thoughts := ["thinking"] |}
           (fake_chunk [fake_thought_part; jpeg_part; fake_text_part]) (Ok tt));
    reflexivity.
Defined.

(** *** The handler before the response *)

Lemma generate_image_acquires (request : GenerateImageRequest) (config : GatewayConfig)
    (w : World) (api_key : string) :
  admitted config w api_key -> Client w api_key = Ok tt ->
  fst (generate_image request config w) = [Acquire].
Proof.
  intros (uid & H1 & H2 & H3 & H4) H5.
  unfold generate_image. rewrite H1. cbn [io_lift io_bind]. rewrite H2. cbn [app].
  rewrite H3. cbn [negb]. rewrite H4. cbn [app]. rewrite H5.
  cbn [try_except io_bind io_tell io_lift app].
  destruct (content_config w (request_args request)) as [[]|];
    cbn [try_except io_bind io_raise app fst]; [|reflexivity].
  destruct (stream request).
  - destruct (has_generate_content_stream w);
      [destruct (generate_content_stream w (request_args request))
      |destruct (generate_content_stream_kw w (request_args request))];
      reflexivity.
  - destruct (generate_content w (request_args request)) as [resp|];
      cbn [try_except io_bind io_lift io_raise app]; [|reflexivity].
    destruct (respond resp); reflexivity.
Qed.

(** X11. [generate_image] builds the upstream client only for a request
    that passed target-user resolution, the credit check, the SDK check
    and the API-key lookup; when resolution or the credit check raises, the
    handler raises that same exception and nothing has been done
    upstream. *)
Theorem client_built_only_when_admitted (request : GenerateImageRequest)
    (config : GatewayConfig) (w : World) :
  (Acquire ∈ fst (generate_image request config w) <->
   exists api_key, admitted config w api_key /\ Client w api_key = Ok tt) /\
  (forall e, resolve_target_user w = Raise e ->
             generate_image request config w = ([], Raise e)) /\
  (forall uid e, resolve_target_user w = Ok uid -> validate_user_credit w uid = Raise e ->
                 generate_image request config w = ([], Raise e)).
Proof.
  split; [split|split].
  - unfold generate_image, admitted.
    destruct (resolve_target_user w) as [uid|] eqn:H1; cbn [io_lift io_bind fst];
      [|intros H; apply elem_of_nil in H; destruct H].
    destruct (validate_user_credit w uid) as [[]|] eqn:H2; cbn [app fst];
      [|intros H; apply elem_of_nil in H; destruct H].
    destruct (genai_installed w) eqn:H3; cbn [negb io_raise fst];
      [|intros H; apply elem_of_nil in H; destruct H].
    destruct (_get_gemini_api_key config) as [key|] eqn:H4; cbn [app fst];
      [|intros H; apply elem_of_nil in H; destruct H].
    destruct (Client w key) as [[]|] eqn:H5;
      cbn [try_except io_bind io_tell io_lift io_raise app fst];
      [|intros H; apply elem_of_nil in H; destruct H].
    intros _. exists key. split; [exists uid; repeat split; assumption | assumption].
  - intros (key & Hadm & Hc). rewrite (generate_image_acquires _ _ _ _ Hadm Hc).
    apply list_elem_of_here.
  - intros e H. unfold generate_image. rewrite H. reflexivity.
  - intros uid e H1 H2. unfold generate_image. rewrite H1. cbn [io_lift io_bind].
    rewrite H2. reflexivity.
Qed.

(** X12. Once a request is admitted, every exception of the SDK on the way
    to the response (building the client, building the request
    configuration, opening the stream, or the non-streaming call) makes
    the handler raise 502 with the detail "Image generation failed: "
    followed by the text of the exception. *)
Theorem upstream_failures_are_bad_gateway (request : GenerateImageRequest)
    (config : GatewayConfig) (w : World) (api_key : string) (e : exn) :
  admitted config w api_key ->
  (Client w api_key = Raise e \/
   Client w api_key = Ok tt /\
   (content_config w (request_args request) = Raise e \/
    content_config w (request_args request) = Ok tt /\
    (stream request = true /\
     (if has_generate_content_stream w
      then generate_content_stream w (request_args request)
      else generate_content_stream_kw w (request_args request)) = Raise e \/
     stream request = false /\
     generate_content w (request_args request) = Raise e))) ->
  snd (generate_image request config w) =
  Raise {| status_code := 502; detail := "Image generation failed: " +:+ exn_str e |}.
Proof.
  intros (uid & H1 & H2 & H3 & H4) Hfail.
  unfold generate_image. rewrite H1. cbn [io_lift io_bind]. rewrite H2. cbn [app].
  rewrite H3. cbn [negb]. rewrite H4. cbn [app].
  destruct Hfail as [H5|[H5 [H6|[H6 [[H7 H8]|[H7 H8]]]]]]; rewrite H5;
    cbn [try_except io_bind io_tell io_lift io_raise app]; try reflexivity;
    rewrite H6; cbn [try_except io_bind io_raise app snd]; try reflexivity;
    rewrite H7.
  - destruct (has_generate_content_stream w); rewrite H8; reflexivity.
  - rewrite H8. reflexivity.
Qed.

Lemma upstream_failures_are_bad_gateway_witness :
  snd (generate_image (fake_request true) example_config
         {| resolve_target_user := Ok "user-1";
            validate_user_credit := fun _ => Ok tt;
            genai_installed := true;
            Client := fun _ => Ok tt;
            content_config := fun _ => Ok tt;
            has_generate_content_stream := false;
            generate_content_stream := fun _ => Ok [];
            generate_content_stream_kw := fun _ => Raise (Exception "quota exceeded");
            generate_content := fun _ => Ok (fake_chunk []);
            close := Ok tt |}) =
  Raise {| status_code := 502; detail := "Image generation failed: quota exceeded" |}.
Proof.
  apply (upstream_failures_are_bad_gateway (fake_request true) example_config _
           "test-api-key" (Exception "quota exceeded")).
  - exists "user-1". repeat split.
  - right. split; [reflexivity|]. right. split; [reflexivity|]. left. split; reflexivity.
Defined.

(** X13. [_get_gemini_api_key] returns a key exactly when the settings of
    the provider [gemini] hold a non-empty string under [api_key], and it
    returns that string; with the provider absent, the key absent, empty or
    not a string, it raises 500 "Gemini provider api_key is not configured
    on the gateway". *)
Theorem gemini_api_key_cases (config : GatewayConfig) :
  (forall k,
      _get_gemini_api_key config = Ok k <->
      k <> "" /\
      exists settings,
        providers config !! "gemini" = Some settings /\
        settings !! "api_key" = Some (JStr k)) /\
  (forall e,
      _get_gemini_api_key config = Raise e ->
      e = {| status_code := 500;
             detail := "Gemini provider api_key is not configured on the gateway" |}).
Proof.
  unfold _get_gemini_api_key. split.
  - intros k. split.
    + destruct (providers config !! "gemini") as [settings|] eqn:Hp; cbn [default].
      * change (id settings) with settings.
        destruct (settings !! "api_key") as [[z|[|c s]]|] eqn:Hk; try discriminate.
        intros [= <-]. split; [discriminate|]. exists settings. split; [reflexivity|exact Hk].
      * change (id (∅ : gmap string jvalue)) with (∅ : gmap string jvalue).
        rewrite lookup_empty. discriminate.
    + intros (Hne & settings & Hp & Hk). rewrite Hp. cbn [default].
      change (id settings) with settings. rewrite Hk.
      destruct k as [|c s]; [destruct (Hne eq_refl) | reflexivity].
  - intros e.
    destruct (default ∅ (providers config !! "gemini") !! "api_key") as [[z|[|c s]]|];
      try discriminate; intros [= <-]; reflexivity.
Qed.

(** *** The wire format *)

Lemma escape_char_printable (c : ascii) : forallb printable (Json.escape_char c) = true.
Proof.
  apply (SecretsExtras.ascii_forallb (fun c => forallb printable (Json.escape_char c))).
  vm_compute. reflexivity.
Qed.

Lemma json_string_printable (s : string) : forallb printable (Json.json_string s) = true.
Proof.
  assert (H : forallb printable (flat_map Json.escape_char (list_ascii_of_string s)) = true).
  { induction (list_ascii_of_string s) as [|c l IH]; [reflexivity|].
    cbn [flat_map]. rewrite forallb_app, escape_char_printable, IH. reflexivity. }
  unfold Json.json_string. rewrite !forallb_app, H. reflexivity.
Qed.

Lemma json_items_printable (p : payload) : forallb printable (Json.json_items p) = true.
Proof.
  induction p as [|kv rest IH]; [reflexivity|].
  assert (Hkv : forallb printable (Json.json_item kv) = true).
  { unfold Json.json_item. rewrite !forallb_app, !json_string_printable. reflexivity. }
  destruct rest as [|kv' rest]; [exact Hkv|].
  change (Json.json_items (kv :: kv' :: rest))
    with (Json.json_item kv ++ list_ascii_of_string ", " ++ Json.json_items (kv' :: rest)).
  rewrite !forallb_app, Hkv, IH. reflexivity.
Qed.

(** X20. The frame of an event is one line: [_format_sse_event] over
    [json.dumps] gives "data: ", then a JSON text made of printable ASCII
    characters only, whatever characters the values of the payload hold
    (line breaks, quotes and non-ASCII characters are escaped), then the
    two line feeds that end the event. *)
Theorem sse_frame_is_one_line (p : payload) :
  exists body,
    _format_sse_event Json.json_dumps p = "data: " +:+ body +:+ newline +:+ newline /\
    forallb printable (chars body) = true /\
    forall c, c ∈ chars body -> c <> ascii_of_nat 10 /\ c <> ascii_of_nat 13.
Proof.
  exists (Json.json_dumps p). split; [reflexivity|].
  assert (H : forallb printable (chars (Json.json_dumps p)) = true).
  { unfold Json.json_dumps, chars. rewrite list_ascii_of_string_of_list_ascii.
    rewrite !forallb_app, json_items_printable. reflexivity. }
  split; [exact H|].
  intros c Hc. rewrite forallb_forall in H. apply list_elem_of_In in Hc.
  specialize (H c Hc). split; intros ->; discriminate.
Qed.

Example sse_frame_of_a_text_event :
  _format_sse_event Json.json_dumps
    [("type", "text"); ("content", "line 1" +:+ newline +:+ "line 2")]
  = String.concat ""
      ["data: {"; String Json.quote "type"; String Json.quote ": ";
       String Json.quote "text"; String Json.quote ", ";
       String Json.quote "content"; String Json.quote ": ";
       String Json.quote "line 1\nline 2"; String Json.quote "}"; newline; newline].
Proof. reflexivity. Qed.

End ImageExtras.

(** * Properties of the profile route *)

Module ProfileProps.

Import Profile Examples.

Lemma db_bind_ret {A B} (a : A) (k : A -> db_io B) : db_bind (db_ret a) k = k a.
Proof. unfold db_bind, db_ret. destruct (k a). reflexivity. Qed.

Lemma db_bind_query {A B} (q : query) (a : A) (k : A -> db_io B) :
  db_bind (db_query q a) k = (q :: fst (k a), snd (k a)).
Proof. unfold db_bind, db_query. destruct (k a). reflexivity. Qed.

(** C9. When the caller authenticated with the master key and supplied no
    target user (the query parameter is absent or empty), [get_profile]
    raises the HTTP 400 error "When using master key, 'user' query
    parameter is required" and has sent no query to the store; with a
    target user supplied, the first query is the lookup of that user. *)
Theorem master_key_requires_user (isoformat : datetime -> string)
    (api_key : option APIKey) (resolved_user_id : option string) (db : DB)
    (user : option string) (recent_limit : Z) (now : datetime) :
  user = None \/ user = Some "" ->
  get_profile isoformat (api_key, true, resolved_user_id) db user recent_limit now =
    ([], Raise {| status_code := 400;
                  detail := "When using master key, 'user' query parameter is required" |}) /\
  forall c s, exists t r,
    get_profile isoformat (api_key, true, resolved_user_id) db (Some (String c s))
      recent_limit now = (QueryUser (String c s) :: t, r).
Proof.
  intros Huser. split.
  - destruct Huser as [-> | ->]; reflexivity.
  - intros c s. unfold get_profile. cbn [str_truthy negb default].
    rewrite db_bind_ret, db_bind_query. do 2 eexists. reflexivity.
Qed.

Lemma master_key_requires_user_witness :
  get_profile epoch_micros (None, true, None) empty_db None 10 1700000000000000 =
    ([], Raise {| status_code := 400;
                  detail := "When using master key, 'user' query parameter is required" |}).
Proof.
  apply (master_key_requires_user epoch_micros None None empty_db None 10 1700000000000000).
  left. reflexivity.
Defined.

End ProfileProps.

(** * Further properties of the profile route *)

Module ProfileExtras.

Import Profile Examples ExtraSpecs.

Lemma str_truthy_inv (o : option string) :
  str_truthy o = true -> exists c s, o = Some (String c s).
Proof. destruct o as [[|c s]|]; try discriminate. eauto. Qed.

Lemma find_some_eqb {A} (key : A -> string) (u : string) (rows : list A) (row : A) :
  List.find (fun r => String.eqb (key r) u) rows = Some row ->
  row ∈ rows /\ key row = u.
Proof.
  intros H. apply List.find_some in H. destruct H as [Hin Heq].
  split; [apply list_elem_of_In; exact Hin | apply String.eqb_eq; exact Heq].
Qed.

(** Whoever the caller is, [get_profile] runs as it does for the master
    asking for the target user. *)
Lemma get_profile_target (isoformat : datetime -> string)
    (auth_result : option APIKey * bool * option string) (db : DB) (user : option string)
    (recent_limit : Z) (now : datetime) (u : string) :
  target_user auth_result user = Some u ->
  get_profile isoformat auth_result db user recent_limit now =
  get_profile isoformat (None, true, None) db (Some u) recent_limit now.
Proof.
  destruct auth_result as [[api_key is_master] resolved]. unfold target_user, own_tenant.
  destruct is_master.
  - destruct user as [[|c s]|]; try discriminate. intros [= <-]. reflexivity.
  - destruct resolved as [[|c s]|];
      [destruct api_key as [[[[|c s]|]]|] | intros [= <-]; reflexivity
      |destruct api_key as [[[[|c s]|]]|]];
      try discriminate; intros [= <-]; reflexivity.
Qed.

Lemma target_user_nonempty (auth_result : option APIKey * bool * option string)
    (user : option string) (u : string) :
  target_user auth_result user = Some u -> exists c s, u = String c s.
Proof.
  destruct auth_result as [[api_key is_master] resolved]. unfold target_user, own_tenant.
  destruct is_master.
  - destruct user as [[|c s]|]; try discriminate. intros [= <-]. eauto.
  - destruct resolved as [[|c s]|];
      [destruct api_key as [[[[|c' s']|]]|] | intros [= <-]; eauto
      |destruct api_key as [[[[|c' s']|]]|]];
      try discriminate; intros [= <-]; eauto.
Qed.

(** The run for a target user that the store does not know. *)
Lemma get_profile_unknown (isoformat : datetime -> string) (db : DB) (c : ascii) (s : string)
    (recent_limit : Z) (now : datetime) :
  first_where (fun row => String.eqb (user_id row) (String c s)) (db_users db) = None ->
  get_profile isoformat (None, true, None) db (Some (String c s)) recent_limit now =
  ([QueryUser (String c s)],
   Raise {| status_code := 404; detail := "User '" +:+ String c s +:+ "' not found" |}).
Proof.
  intros Hu. unfold get_profile. cbn [str_truthy negb default].
  rewrite ProfileProps.db_bind_ret, ProfileProps.db_bind_query.
  change (id (String c s)) with (String c s). rewrite Hu. reflexivity.
Qed.

(** The run for a target user that the store knows: the queries it sends,
    and the response built from the row and from what [_aggregate_usage]
    and [_recent_usage] return. *)
Lemma get_profile_known (isoformat : datetime -> string) (db : DB) (c : ascii) (s : string)
    (recent_limit : Z) (now : datetime) (row : User) :
  first_where (fun row => String.eqb (user_id row) (String c s)) (db_users db) = Some row ->
  exists r d w m recent,
    get_profile isoformat (None, true, None) db (Some (String c s)) recent_limit now =
      ([QueryUser (String c s); QueryCaretUser (String c s)]
         ++ match budget_id row with
            | Some (String c' s') => [QueryBudget (String c' s')]
            | _ => []
            end
         ++ [QueryUsageTotals (String c s) (now - 24 * 3600000000);
             QueryUsageTotals (String c s) (now - 7 * 86400000000);
             QueryUsageTotals (String c s) (now - 30 * 86400000000);
             QueryRecentUsage (String c s) recent_limit],
       Ok r) /\
    _aggregate_usage db (String c s) (now - 24 * 3600000000)
      = ([QueryUsageTotals (String c s) (now - 24 * 3600000000)], Ok d) /\
    _aggregate_usage db (String c s) (now - 7 * 86400000000)
      = ([QueryUsageTotals (String c s) (now - 7 * 86400000000)], Ok w) /\
    _aggregate_usage db (String c s) (now - 30 * 86400000000)
      = ([QueryUsageTotals (String c s) (now - 30 * 86400000000)], Ok m) /\
    _recent_usage isoformat db (String c s) recent_limit
      = ([QueryRecentUsage (String c s) recent_limit], Ok recent) /\
    usage r = [("last_24h", d); ("last_7d", w); ("last_30d", m)] /\
    recent_usage r = recent /\
    pi_user_id (profile r) = user_id row /\
    pi_alias (profile r) = alias row.
Proof.
  intros Hu. unfold get_profile. cbn [str_truthy negb default].
  rewrite ProfileProps.db_bind_ret, ProfileProps.db_bind_query.
  change (id (String c s)) with (String c s). rewrite Hu.
  unfold _aggregate_usage, _recent_usage, db_query, db_bind, db_ret.
  destruct (budget_id row) as [[|c' s']|]; cbn [str_truthy fst snd app default];
    do 5 eexists; (split; [reflexivity|]); repeat split.
Qed.

(** A request whose target user does not resolve is refused before any
    query: 400 for the master, 401 for every other caller. *)
Lemma get_profile_unresolved (isoformat : datetime -> string)
    (auth_result : option APIKey * bool * option string) (db : DB) (user : option string)
    (recent_limit : Z) (now : datetime) :
  target_user auth_result user = None ->
  exists e, get_profile isoformat auth_result db user recent_limit now = ([], Raise e) /\
            status_code e = if snd (fst auth_result) then 400 else 401.
Proof.
  destruct auth_result as [[api_key is_master] resolved]. unfold target_user, own_tenant.
  destruct is_master.
  - destruct user as [[|c s]|]; try discriminate; intros _; eexists; split; reflexivity.
  - destruct resolved as [[|c s]|];
      [destruct api_key as [[[[|c s]|]]|] | discriminate
      |destruct api_key as [[[[|c s]|]]|]];
      try discriminate; intros _; eexists; split; reflexivity.
Qed.

(** A success comes from a resolved target user whom the store knows. *)
Lemma get_profile_ok_inv (isoformat : datetime -> string)
    (auth_result : option APIKey * bool * option string) (db : DB) (user : option string)
    (recent_limit : Z) (now : datetime) (t : list query) (r : ProfileResponse) :
  get_profile isoformat auth_result db user recent_limit now = (t, Ok r) ->
  exists c s row,
    target_user auth_result user = Some (String c s) /\
    first_where (fun row => String.eqb (user_id row) (String c s)) (db_users db) = Some row.
Proof.
  intros Hg. destruct (target_user auth_result user) as [u|] eqn:Ht.
  - destruct (target_user_nonempty _ _ _ Ht) as (c & s & ->).
    rewrite (get_profile_target _ _ _ _ _ _ _ Ht) in Hg.
    destruct (first_where (fun row => String.eqb (user_id row) (String c s)) (db_users db))
      as [row|] eqn:Hu.
    + eauto.
    + rewrite (get_profile_unknown _ _ _ _ _ _ Hu) in Hg. discriminate.
  - destruct (get_profile_unresolved isoformat _ db _ recent_limit now Ht) as (e & He & _).
    rewrite He in Hg. discriminate.
Qed.

Lemma find_none_eqb {A} (key : A -> string) (u : string) (rows : list A) :
  (forall row, row ∈ rows -> key row <> u) ->
  List.find (fun r => String.eqb (key r) u) rows = None.
Proof.
  intros H. destruct (List.find _ rows) as [row|] eqn:Hf; [|reflexivity].
  apply find_some_eqb in Hf. destruct Hf as [Hin Heq]. destruct (H row Hin Heq).
Qed.

(** X1. Every query that [get_profile] sends for a caller who is not the
    master reads the rows of the caller's own tenant (the resolved
    identity, else the owner of the API key) or the budget row that tenant
    points to, whatever [user] parameter the request carries; a profile
    that is returned is that tenant's. *)
Theorem profile_queries_own_tenant (isoformat : datetime -> string)
    (api_key : option APIKey) (resolved_user_id : option string) (db : DB)
    (user : option string) (recent_limit : Z) (now : datetime) (u : string) :
  own_tenant api_key resolved_user_id = Some u ->
  Forall (scoped_to db u)
    (fst (get_profile isoformat (api_key, false, resolved_user_id) db user recent_limit now)) /\
  forall r,
    snd (get_profile isoformat (api_key, false, resolved_user_id) db user recent_limit now)
      = Ok r ->
    pi_user_id (profile r) = u.
Proof.
  intros Ht.
  assert (Ht' : target_user (api_key, false, resolved_user_id) user = Some u) by exact Ht.
  rewrite (get_profile_target _ _ _ _ _ _ _ Ht').
  destruct (target_user_nonempty _ _ _ Ht') as (c & s & ->).
  destruct (first_where (fun row => String.eqb (user_id row) (String c s)) (db_users db))
    as [row|] eqn:Hu.
  - destruct (get_profile_known isoformat db c s recent_limit now row Hu)
      as (r & d & w & m & recent & Hg & _ & _ & _ & _ & _ & _ & Hid & _).
    apply find_some_eqb in Hu. destruct Hu as [Hin Hrow].
    rewrite Hg. cbn [fst snd]. split.
    + repeat (apply Forall_cons; split; [reflexivity|]).
      apply Forall_app. split.
      * destruct (budget_id row) as [[|c' s']|] eqn:Hb; repeat constructor.
        exists row. repeat split; assumption.
      * repeat (apply Forall_cons; split; [reflexivity|]). constructor.
    + intros r' [= <-]. rewrite Hid. exact Hrow.
  - rewrite (get_profile_unknown _ _ _ _ _ _ Hu). cbn [fst snd]. split.
    + repeat constructor.
    + discriminate.
Qed.

(** X2. A caller who is not the master and whose credential resolves to no
    tenant (no resolved identity, and no API key or an API key without an
    owner) is refused with 401 "User not resolved" before any query is
    sent, whatever [user] parameter the request carries. *)
Theorem unresolved_caller_unauthorized (isoformat : datetime -> string)
    (api_key : option APIKey) (resolved_user_id : option string) (db : DB)
    (user : option string) (recent_limit : Z) (now : datetime) :
  own_tenant api_key resolved_user_id = None ->
  get_profile isoformat (api_key, false, resolved_user_id) db user recent_limit now =
  ([], Raise {| status_code := 401; detail := "User not resolved" |}).
Proof.
  unfold own_tenant.
  destruct resolved_user_id as [[|c s]|];
    [destruct api_key as [[[[|c s]|]]|] | discriminate
    |destruct api_key as [[[[|c s]|]]|]];
    try discriminate; intros _; reflexivity.
Qed.

(** X3. When the target user resolves but the store has no row for it,
    [get_profile] raises 404 "User '<id>' not found" after the single
    lookup of that user: no usage, budget or social-profile query is
    sent. *)
Theorem unknown_user_not_found (isoformat : datetime -> string)
    (auth_result : option APIKey * bool * option string) (db : DB) (user : option string)
    (recent_limit : Z) (now : datetime) (u : string) :
  target_user auth_result user = Some u ->
  (forall row, row ∈ db_users db -> user_id row <> u) ->
  get_profile isoformat auth_result db user recent_limit now =
  ([QueryUser u],
   Raise {| status_code := 404; detail := "User '" +:+ u +:+ "' not found" |}).
Proof.
  intros Ht Hnone. rewrite (get_profile_target _ _ _ _ _ _ _ Ht).
  destruct (target_user_nonempty _ _ _ Ht) as (c & s & ->).
  apply get_profile_unknown. apply find_none_eqb. exact Hnone.
Qed.

(** Fewer rows pass a later cut-off. *)
Lemma aggregate_requests_monotone (db : DB) (u : string) (since1 since2 : datetime)
    (t1 t2 : list query) (a b : UsageWindow) :
  since1 <= since2 ->
  _aggregate_usage db u since1 = (t1, Ok a) ->
  _aggregate_usage db u since2 = (t2, Ok b) ->
  0 <= uw_requests b <= uw_requests a.
Proof.
  intros Hle [= _ <-] [= _ <-]. cbn [uw_requests]. split; [lia|].
  apply inj_le. induction (db_usage_logs db) as [|row rows IH]; [reflexivity|].
  rewrite !filter_cons.
  destruct (decide (log_user_id row = Some u /\ since2 <= log_timestamp row)) as [[H1 H2]|H];
    destruct (decide (log_user_id row = Some u /\ since1 <= log_timestamp row)) as [H'|H'];
    cbn [length]; try lia.
  exfalso. apply H'. split; [assumption | lia].
Qed.

(** X4. In every profile that [get_profile] returns, the usage windows are
    [last_24h], [last_7d] and [last_30d] in this order, and their request
    counts are nested: 0 <= last_24h <= last_7d <= last_30d. *)
Theorem usage_windows_nested (isoformat : datetime -> string)
    (auth_result : option APIKey * bool * option string) (db : DB) (user : option string)
    (recent_limit : Z) (now : datetime) (t : list query) (r : ProfileResponse) :
  get_profile isoformat auth_result db user recent_limit now = (t, Ok r) ->
  exists d w m,
    usage r = [("last_24h", d); ("last_7d", w); ("last_30d", m)] /\
    0 <= uw_requests d /\ uw_requests d <= uw_requests w /\ uw_requests w <= uw_requests m.
Proof.
  intros Hg.
  destruct (get_profile_ok_inv _ _ _ _ _ _ _ _ Hg) as (c & s & row & Ht & Hu).
  rewrite (get_profile_target _ _ _ _ _ _ _ Ht) in Hg.
  destruct (get_profile_known isoformat db c s recent_limit now row Hu)
    as (r' & d & w & m & recent & Hg' & Hd & Hw & Hm & _ & Husage & _).
  rewrite Hg' in Hg. injection Hg as _ <-.
  exists d, w, m. split; [exact Husage|].
  pose proof (aggregate_requests_monotone db (String c s)
                (now - 7 * 86400000000) (now - 24 * 3600000000) _ _ _ _
                ltac:(lia) Hw Hd) as H1.
  pose proof (aggregate_requests_monotone db (String c s)
                (now - 30 * 86400000000) (now - 7 * 86400000000) _ _ _ _
                ltac:(lia) Hm Hw) as H2.
  lia.
Qed.

#[local] Existing Instance newer_first_dec.

#[local] Instance newer_first_transitive : Transitive newer_first.
Proof. intros a b c. unfold newer_first. lia. Qed.

#[local] Instance newer_first_total : Total newer_first.
Proof. intros a b. unfold newer_first. lia. Qed.

(** X5. [_recent_usage] sends one query and returns the items of the
    user's most recent rows: the rows of the user, put newest first and cut
    after [limit] of them. The rows returned followed by the rows cut off
    are a rearrangement of all the rows of that user, ordered by
    non-increasing timestamp, and the number returned is the smaller of
    [limit] and the number of rows of the user. The limit is not negative:
    the route admits 0 to 100, and what a negative one selects depends on
    the database. *)
Theorem recent_usage_newest_first (isoformat : datetime -> string) (db : DB) (u : string)
    (limit : Z) :
  0 <= limit ->
  exists recent older,
    _recent_usage isoformat db u limit
      = ([QueryRecentUsage u limit], Ok (map (item_of isoformat) recent)) /\
    recent ++ older ≡ₚ logs_of db u /\
    StronglySorted newer_first (recent ++ older) /\
    Z.of_nat (length recent) = Z.min limit (Z.of_nat (length (logs_of db u))).
Proof.
  intros Hlimit. set (sorted := merge_sort newer_first (logs_of db u)).
  exists (take (Z.to_nat limit) sorted), (drop (Z.to_nat limit) sorted).
  split; [reflexivity|]. rewrite take_drop. split; [|split].
  - apply merge_sort_Permutation.
  - apply StronglySorted_merge_sort; apply _.
  - rewrite length_take.
    assert (Hlen : length sorted = length (logs_of db u))
      by apply Permutation_length, merge_sort_Permutation.
    lia.
Qed.

(** X6. Recording one more usage row changes the totals of
    [_aggregate_usage] for a user and a cut-off only when the row belongs
    to that user and is not older than the cut-off: then the request count
    grows by one and each token total by the row's value, a NULL column
    counting as 0; a row of another tenant, or an older one, leaves the
    result as it was. *)
Theorem usage_totals_after_insert (db : DB) (u : string) (since : datetime) (row : UsageLog)
    (a : UsageWindow) :
  snd (_aggregate_usage db u since) = Ok a ->
  if decide (log_user_id row = Some u /\ since <= log_timestamp row)
  then
    exists b,
      snd (_aggregate_usage (with_log db row) u since) = Ok b /\
      uw_requests b = uw_requests a + 1 /\
      uw_prompt_tokens b = default 0 (log_prompt_tokens row) + uw_prompt_tokens a /\
      uw_completion_tokens b
        = default 0 (log_completion_tokens row) + uw_completion_tokens a /\
      uw_total_tokens b = default 0 (log_total_tokens row) + uw_total_tokens a
  else _aggregate_usage (with_log db row) u since = _aggregate_usage db u since.
Proof.
  intros [= <-]. unfold _aggregate_usage, with_log. cbn [db_usage_logs snd db_query].
  rewrite filter_cons.
  destruct (decide (log_user_id row = Some u /\ since <= log_timestamp row)) as [H|H].
  - eexists. split; [reflexivity|].
    cbn [length sum_column foldr uw_requests uw_prompt_tokens
         uw_completion_tokens uw_total_tokens].
    repeat split. lia.
  - reflexivity.
Qed.

(** The budget block of the profile of a known user. *)
Lemma get_profile_known_budget (isoformat : datetime -> string) (db : DB) (c : ascii)
    (s : string) (recent_limit : Z) (now : datetime) (row : User) (t : list query)
    (r : ProfileResponse) :
  first_where (fun row => String.eqb (user_id row) (String c s)) (db_users db) = Some row ->
  get_profile isoformat (None, true, None) db (Some (String c s)) recent_limit now
    = (t, Ok r) ->
  budget r =
    match budget_id row with
    | Some (String c' s') =>
        match first_where (fun b => String.eqb (row_budget_id b) (String c' s'))
                (db_budgets db) with
        | Some b =>
            Some {| bi_budget_id := Some (row_budget_id b);
                    bi_max_budget := row_max_budget b;
                    bi_budget_duration_sec := row_budget_duration_sec b;
                    bi_spend := spend row;
                    bi_budget_started_at := isoformat <$> budget_started_at row;
                    bi_next_budget_reset_at := isoformat <$> next_budget_reset_at row |}
        | None => None
        end
    | _ => None
    end.
Proof.
  intros Hu. unfold get_profile. cbn [str_truthy negb default].
  rewrite ProfileProps.db_bind_ret, ProfileProps.db_bind_query.
  change (id (String c s)) with (String c s). rewrite Hu.
  unfold _aggregate_usage, _recent_usage, db_query, db_bind, db_ret.
  destruct (budget_id row) as [[|c' s']|]; cbn [str_truthy fst snd app default];
    intros [= _ <-]; reflexivity.
Qed.

(** X23. The budget block of a returned profile is present exactly when
    the user's row names a budget that the store has: it then carries that
    budget's id and ceiling and the spend of the user; a user without a
    budget id, or whose budget id matches no budget row, gets a profile
    without a budget block and no error. *)
Theorem budget_block_of_profile (isoformat : datetime -> string)
    (auth_result : option APIKey * bool * option string) (db : DB) (user : option string)
    (recent_limit : Z) (now : datetime) (t : list query) (r : ProfileResponse) :
  get_profile isoformat auth_result db user recent_limit now = (t, Ok r) ->
  exists row,
    row ∈ db_users db /\ pi_user_id (profile r) = user_id row /\
    match budget r with
    | Some b =>
        exists brow,
          brow ∈ db_budgets db /\
          budget_id row = Some (row_budget_id brow) /\
          bi_budget_id b = Some (row_budget_id brow) /\
          bi_max_budget b = row_max_budget brow /\
          bi_spend b = spend row
    | None =>
        budget_id row = None \/ budget_id row = Some "" \/
        forall brow, brow ∈ db_budgets db -> budget_id row <> Some (row_budget_id brow)
    end.
Proof.
  intros Hg.
  destruct (get_profile_ok_inv _ _ _ _ _ _ _ _ Hg) as (c & s & row & Ht & Hu).
  rewrite (get_profile_target _ _ _ _ _ _ _ Ht) in Hg.
  pose proof (get_profile_known_budget _ _ _ _ _ _ _ _ _ Hu Hg) as Hb.
  destruct (get_profile_known isoformat db c s recent_limit now row Hu)
    as (r' & _ & _ & _ & _ & Hg' & _ & _ & _ & _ & _ & _ & Hid & _).
  rewrite Hg' in Hg. injection Hg as _ <-.
  exists row. split; [apply (find_some_eqb user_id _ _ _ Hu)|]. split; [exact Hid|].
  rewrite Hb. destruct (budget_id row) as [[|c' s']|] eqn:Hbid; [right; left; reflexivity| |left; reflexivity].
  destruct (first_where (fun b => String.eqb (row_budget_id b) (String c' s')) (db_budgets db))
    as [brow|] eqn:Hf.
  - apply find_some_eqb in Hf. destruct Hf as [Hin Heq].
    exists brow. rewrite Heq. repeat split. exact Hin.
  - right. right. intros brow Hin Heq. injection Heq as Heq.
    apply List.find_none with (x := brow) in Hf; [|apply list_elem_of_In; exact Hin].
    rewrite <- Heq, String.eqb_refl in Hf. discriminate.
Qed.

(** Alice's budget on the fixture; bob has none. *)
Lemma budget_block_of_profile_witness :
  exists r row,
    snd (get_profile epoch_micros (None, false, Some "alice") fake_db None 2
           1700000000000000) = Ok r /\
    row ∈ db_users fake_db /\ pi_user_id (profile r) = user_id row /\
    match budget r with
    | Some b =>
        exists brow,
          brow ∈ db_budgets fake_db /\
          budget_id row = Some (row_budget_id brow) /\
          bi_budget_id b = Some (row_budget_id brow) /\
          bi_max_budget b = row_max_budget brow /\
          bi_spend b = spend row
    | None =>
        budget_id row = None \/ budget_id row = Some "" \/
        forall brow, brow ∈ db_budgets fake_db -> budget_id row <> Some (row_budget_id brow)
    end.
Proof.
  destruct (get_profile epoch_micros (None, false, Some "alice") fake_db None 2
              1700000000000000) as [t [r|e]] eqn:Hg; [|vm_compute in Hg; discriminate].
  destruct (budget_block_of_profile epoch_micros _ _ _ _ _ t r Hg) as (row & H).
  exists r, row. split; [reflexivity | exact H].
Defined.

(** Alice's token with [user=bob] in the request: every query is about
    alice. *)
Lemma profile_queries_own_tenant_witness :
  Forall (scoped_to fake_db "alice")
    (fst (get_profile epoch_micros (None, false, Some "alice") fake_db (Some "bob") 2
            1700000000000000)) /\
  forall r,
    snd (get_profile epoch_micros (None, false, Some "alice") fake_db (Some "bob") 2
           1700000000000000) = Ok r ->
    pi_user_id (profile r) = "alice".
Proof.
  apply (profile_queries_own_tenant epoch_micros None (Some "alice") fake_db (Some "bob") 2
           1700000000000000 "alice").
  reflexivity.
Defined.

(** The two newest of Alice's rows on the fixture. *)
Lemma recent_usage_newest_first_witness :
  exists recent older,
    _recent_usage epoch_micros fake_db "alice" 2
      = ([QueryRecentUsage "alice" 2], Ok (map (item_of epoch_micros) recent)) /\
    recent ++ older ≡ₚ logs_of fake_db "alice" /\
    StronglySorted newer_first (recent ++ older) /\
    Z.of_nat (length recent) = Z.min 2 (Z.of_nat (length (logs_of fake_db "alice"))).
Proof.
  apply (recent_usage_newest_first epoch_micros fake_db "alice" 2). lia.
Defined.

(** An API key without an owner. *)
Lemma unresolved_caller_unauthorized_witness :
  get_profile epoch_micros (Some {| key_user_id := None |}, false, None) fake_db
    (Some "alice") 2 1700000000000000 =
  ([], Raise {| status_code := 401; detail := "User not resolved" |}).
Proof.
  apply (unresolved_caller_unauthorized epoch_micros (Some {| key_user_id := None |}) None
           fake_db (Some "alice") 2 1700000000000000).
  reflexivity.
Defined.

(** The master asks for a user the store does not know. *)
Lemma unknown_user_not_found_witness :
  get_profile epoch_micros (None, true, None) fake_db (Some "carol") 2 1700000000000000 =
  ([QueryUser "carol"],
   Raise {| status_code := 404; detail := "User 'carol' not found" |}).
Proof.
  apply (unknown_user_not_found epoch_micros (None, true, None) fake_db (Some "carol") 2
           1700000000000000 "carol").
  - reflexivity.
  - intros row Hin. cbn [fake_db db_users] in Hin.
    apply elem_of_cons in Hin. destruct Hin as [->|Hin]; [discriminate|].
    apply elem_of_cons in Hin. destruct Hin as [->|Hin]; [discriminate|].
    apply elem_of_nil in Hin. destruct Hin.
Defined.

(** Alice's windows on the fixture: two requests in the last day, two in
    the last week, three in the last month. *)
Lemma usage_windows_nested_witness :
  exists r d w m,
    snd (get_profile epoch_micros (None, false, Some "alice") fake_db None 2
           1700000000000000) = Ok r /\
    usage r = [("last_24h", d); ("last_7d", w); ("last_30d", m)] /\
    uw_requests d = 2 /\ uw_requests w = 2 /\ uw_requests m = 3 /\
    0 <= uw_requests d /\ uw_requests d <= uw_requests w /\ uw_requests w <= uw_requests m.
Proof.
  destruct (get_profile epoch_micros (None, false, Some "alice") fake_db None 2
              1700000000000000) as [t [r|e]] eqn:Hg; [|vm_compute in Hg; discriminate].
  destruct (usage_windows_nested epoch_micros _ _ _ _ _ t r Hg)
    as (d & w & m & Hu & H0 & H1 & H2).
  exists r, d, w, m.
  split; [reflexivity|]. split; [exact Hu|].
  vm_compute in Hg. injection Hg as _ <-. injection Hu as <- <- <-.
  repeat split; assumption.
Defined.

(** One more request of alice inside the window. *)
Lemma usage_totals_after_insert_witness :
  exists b,
    snd (_aggregate_usage (with_log fake_db (fake_log "log-5" "alice" 1699999500000000))
           "alice" 1699913600000000) = Ok b /\
    uw_requests b = 2 + 1 /\
    uw_prompt_tokens b = 10 + 20 /\
    uw_completion_tokens b = 0 + 0 /\
    uw_total_tokens b = 10 + 20.
Proof.
  apply (usage_totals_after_insert fake_db "alice" 1699913600000000
           (fake_log "log-5" "alice" 1699999500000000)
           {| uw_requests := 2; uw_prompt_tokens := 20; uw_completion_tokens := 0;
              uw_total_tokens := 20; uw_cost := 0.5%float |}).
  reflexivity.
Defined.

End ProfileExtras.
